(** * GenAI_apk: the attendance client, embedded and checked

    A shallow embedding of the parts of the mobile attendance client that
    carry behaviour: the auth-blob store ([utils/session]), the axios
    interceptors ([api/httpClient.ts]), and the capture loop of the
    attendance screen ([pages/AttendanceScreen.tsx]) together with the older
    tap-to-capture screen; around them the auth provider
    ([contexts/AuthContext.tsx]), the employee upload ([registerEmployee])
    and the base url of the API.

    Conventions of the embedding
    - JavaScript values that reach the code from JSON (response bodies, the
      parsed auth blob) are values of [json]; [undefined] is [None] of
      [option json].  JSON numbers are restricted to integers.
    - [Date.now()] is an explicit argument, one per call site.
    - An [await] ends a synchronous block: every block is a function of its
      own, and a whole run is their composition.
    - React state setters are applied at once; refs and state are fields of
      one record.  The camera permission is taken as granted.
    - Console output is left out. *)

From Stdlib Require Import ZArith QArith Qround String List Bool Lia Ascii.
From stdpp Require Import base option list gmap strings pretty.

Set Warnings "-register-all".
Open Scope string_scope.
Open Scope list_scope.
Open Scope Z_scope.

(* ================================================================== *)
(** ** JavaScript values *)
(* ================================================================== *)

Module Js.

Inductive json : Type :=
| JNull
| JBool (b : bool)
| JNum (n : Z)
| JStr (s : string)
| JArr (items : list json)
| JObj (fields : list (string * json)).

(** [Boolean(v)], the test of [if (v)] and [!v]. *)
Definition truthy (v : json) : bool :=
  match v with
  | JNull => false
  | JBool b => b
  | JNum n => negb (n =? 0)
  | JStr s => negb (String.eqb s "")
  | JArr _ | JObj _ => true
  end.

(** The same test on a value that may be [undefined]. *)
Definition truthy_opt (v : option json) : bool :=
  match v with
  | None => false
  | Some v => truthy v
  end.

(** A string read from storage: [null] or a string. *)
Definition truthy_str (s : option string) : bool :=
  match s with
  | None => false
  | Some s => negb (String.eqb s "")
  end.

Fixpoint assoc (k : string) (fields : list (string * json)) : option json :=
  match fields with
  | [] => None
  | (k', v) :: rest => if String.eqb k k' then Some v else assoc k rest
  end.

(** [v.k] on a value that is neither [null] nor [undefined]: own
    properties of an object; the named properties used by the client
    ([error], [token], [status], ...) do not exist on arrays, strings,
    numbers or booleans. *)
Definition prop (k : string) (v : json) : option json :=
  match v with
  | JObj fields => assoc k fields
  | _ => None
  end.

(** [v?.k]: [undefined] when [v] is [null] or [undefined]. *)
Definition opt_prop (k : string) (v : option json) : option json :=
  match v with
  | None | Some JNull => None
  | Some v => prop k v
  end.

(** [a || b] on values that may be undefined. *)
Definition or_else (a b : option json) : option json :=
  if truthy_opt a then a else b.

Definition join (sep : string) (parts : list string) : string :=
  match parts with
  | [] => ""
  | p :: ps => fold_left (fun acc q => acc +:+ sep +:+ q) ps p
  end.

(** [String(v)], as a template literal applies it.  Array elements that
    are [null] print as the empty string. *)
Fixpoint to_string (v : json) : string :=
  match v with
  | JNull => "null"
  | JBool true => "true"
  | JBool false => "false"
  | JNum n => pretty n
  | JStr s => s
  | JArr items =>
      join "," (map (fun x => match x with JNull => "" | _ => to_string x end) items)
  | JObj _ => "[object Object]"
  end.

Definition to_string_opt (v : option json) : string :=
  match v with
  | None => "undefined"
  | Some v => to_string v
  end.

(** [Array.isArray(v) ? v[0] : v]. *)
Definition first_if_array (v : option json) : option json :=
  match v with
  | Some (JArr items) => head items
  | _ => v
  end.

(** [obj[Object.keys(obj)[0]]] when [Object.keys(obj)] is not empty.
    The fields of an object are listed in the order [Object.keys]
    enumerates them; an array enumerates its indices and a string its
    characters; numbers and booleans have no keys. *)
Definition first_own_value (v : json) : option json :=
  match v with
  | JObj ((_, x) :: _) => Some x
  | JArr (x :: _) => Some x
  | JStr (String c _) => Some (JStr (String c ""))
  | _ => None
  end.

(** An HTTP response as axios hands it over: [response.status] and
    [response.data] (absent for an empty body). *)
Record Response : Type := {
  status : Z;
  data : option json;
}.

(** A thrown value or rejection reason: [error.message] and, for an axios
    error that carries a server answer, [error.response]. *)
Record JsError : Type := {
  message : option string;
  response : option Response;
}.

(** The two built-ins the auth store goes through.  [JSON.parse] throws
    on malformed text: [None]. *)
Record JsonCodec : Type := {
  JSON_stringify : json -> string;
  JSON_parse : string -> option json;
}.

End Js.

Import Js.

(* ================================================================== *)
(** ** A small JSON reader and writer, to run the store on real text *)
(* ================================================================== *)

Module MiniJson.

Definition dquote : ascii := ascii_of_nat 34.

Fixpoint escape (s : string) : string :=
  match s with
  | EmptyString => ""
  | String c rest =>
      if Ascii.eqb c dquote then String "\"%char (String c (escape rest))
      else if Ascii.eqb c "\"%char then String "\"%char (String c (escape rest))
      else String c (escape rest)
  end.

Definition quote (s : string) : string := String dquote (escape s +:+ String dquote "").

Fixpoint stringify (v : json) : string :=
  match v with
  | JNull => "null"
  | JBool true => "true"
  | JBool false => "false"
  | JNum n => pretty n
  | JStr s => quote s
  | JArr items => "[" +:+ join "," (map stringify items) +:+ "]"
  | JObj fields =>
      "{" +:+ join "," (map (fun kv => quote (fst kv) +:+ ":" +:+ stringify (snd kv)) fields) +:+ "}"
  end.

Definition is_ws (c : ascii) : bool :=
  Ascii.eqb c " "%char || Ascii.eqb c "009"%char || Ascii.eqb c "010"%char || Ascii.eqb c "013"%char.

Fixpoint skip_ws (s : string) : string :=
  match s with
  | String c rest => if is_ws c then skip_ws rest else s
  | EmptyString => s
  end.

Fixpoint strip_prefix (p s : string) : option string :=
  match p, s with
  | EmptyString, _ => Some s
  | String a p', String b s' => if Ascii.eqb a b then strip_prefix p' s' else None
  | _, _ => None
  end.

Definition digit_of (c : ascii) : option Z :=
  let n := Z.of_nat (nat_of_ascii c) in
  if (48 <=? n) && (n <=? 57) then Some (n - 48) else None.

Fixpoint read_digits (acc : Z) (s : string) : Z * string :=
  match s with
  | String c rest =>
      match digit_of c with
      | Some d => read_digits (10 * acc + d) rest
      | None => (acc, s)
      end
  | EmptyString => (acc, s)
  end.

(** The body of a string literal, after the opening quote. *)
Fixpoint read_string (s : string) : option (string * string) :=
  match s with
  | EmptyString => None
  | String c rest =>
      if Ascii.eqb c dquote then Some ("", rest)
      else if Ascii.eqb c "\"%char then
        match rest with
        | String e rest' =>
            match read_string rest' with
            | Some (body, tail) => Some (String e body, tail)
            | None => None
            end
        | EmptyString => None
        end
      else
        match read_string rest with
        | Some (body, tail) => Some (String c body, tail)
        | None => None
        end
  end.

Fixpoint read_value (fuel : nat) (s : string) : option (json * string) :=
  match fuel with
  | O => None
  | S fuel =>
      match skip_ws s with
      | EmptyString => None
      | String c rest as t =>
          if Ascii.eqb c "n"%char then
            option_map (fun r => (JNull, r)) (strip_prefix "null" t)
          else if Ascii.eqb c "t"%char then
            option_map (fun r => (JBool true, r)) (strip_prefix "true" t)
          else if Ascii.eqb c "f"%char then
            option_map (fun r => (JBool false, r)) (strip_prefix "false" t)
          else if Ascii.eqb c dquote then
            option_map (fun br => (JStr (fst br), snd br)) (read_string rest)
          else if Ascii.eqb c "["%char then
            match skip_ws rest with
            | String "]"%char r => Some (JArr [], r)
            | _ => option_map (fun ir => (JArr (fst ir), snd ir)) (read_items fuel rest)
            end
          else if Ascii.eqb c "{"%char then
            match skip_ws rest with
            | String "}"%char r => Some (JObj [], r)
            | _ => option_map (fun fr => (JObj (fst fr), snd fr)) (read_members fuel rest)
            end
          else if Ascii.eqb c "-"%char then
            match rest with
            | String d _ =>
                match digit_of d with
                | Some _ => let '(n, r) := read_digits 0 rest in Some (JNum (- n), r)
                | None => None
                end
            | EmptyString => None
            end
          else
            match digit_of c with
            | Some _ => let '(n, r) := read_digits 0 t in Some (JNum n, r)
            | None => None
            end
      end
  end
with read_items (fuel : nat) (s : string) : option (list json * string) :=
  match fuel with
  | O => None
  | S fuel =>
      match read_value fuel s with
      | None => None
      | Some (v, r) =>
          match skip_ws r with
          | String "]"%char r' => Some ([v], r')
          | String ","%char r' =>
              option_map (fun ir => (v :: fst ir, snd ir)) (read_items fuel r')
          | _ => None
          end
      end
  end
with read_members (fuel : nat) (s : string) : option (list (string * json) * string) :=
  match fuel with
  | O => None
  | S fuel =>
      match skip_ws s with
      | String q r0 =>
          if negb (Ascii.eqb q dquote) then None else
          match read_string r0 with
          | None => None
          | Some (k, r1) =>
              match skip_ws r1 with
              | String ":"%char r2 =>
                  match read_value fuel r2 with
                  | None => None
                  | Some (v, r3) =>
                      match skip_ws r3 with
                      | String "}"%char r' => Some ([(k, v)], r')
                      | String ","%char r' =>
                          option_map (fun fr => ((k, v) :: fst fr, snd fr))
                                     (read_members fuel r')
                      | _ => None
                      end
                  end
              | _ => None
              end
          end
      | _ => None
      end
  end.

Definition parse (s : string) : option json :=
  match read_value (2 * String.length s + 2) s with
  | Some (v, r) => match skip_ws r with EmptyString => Some v | _ => None end
  | None => None
  end.

Definition codec : JsonCodec :=
  {| JSON_stringify := stringify; JSON_parse := parse |}.

End MiniJson.

(* ================================================================== *)
(** ** The world outside the screen: device storage and the logout hook *)
(* ================================================================== *)

Module Runtime.

(** A registered function is known by a name; calling it is recorded. *)
Definition Callback : Type := nat.

Record World : Type := {
  storage : gmap string string;           (* AsyncStorage *)
  logoutCallback : option Callback;       (* httpClient.ts, module variable *)
  called : list Callback;                 (* callbacks invoked so far, oldest first *)
}.

Definition with_storage (f : gmap string string -> gmap string string) (w : World) : World :=
  {| storage := f (storage w); logoutCallback := logoutCallback w; called := called w |}.

(** How an [async] function settles. *)
Inductive completion (A : Type) : Type :=
| Return (a : A)
| Throw (e : JsError).
Arguments Return {A} a.
Arguments Throw {A} e.

Definition Async (A : Type) : Type := World -> completion A * World.

Definition ret {A} (a : A) : Async A := fun w => (Return a, w).
Definition throw {A} (e : JsError) : Async A := fun w => (Throw e, w).
Definition bind {A B} (m : Async A) (k : A -> Async B) : Async B :=
  fun w => match m w with
           | (Return a, w') => k a w'
           | (Throw e, w') => (Throw e, w')
           end.
(** [try { body } catch { handler }] *)
Definition try_catch {A} (body : Async A) (handler : JsError -> Async A) : Async A :=
  fun w => match body w with
           | (Return a, w') => (Return a, w')
           | (Throw e, w') => handler e w'
           end.

Fixpoint for_each {A} (items : list A) (body : A -> Async unit) : Async unit :=
  match items with
  | [] => ret tt
  | x :: rest => bind (body x) (fun _ => for_each rest body)
  end.

Definition getItem (k : string) : Async (option string) :=
  fun w => (Return (storage w !! k), w).
Definition setItem (k v : string) : Async unit :=
  fun w => (Return tt, with_storage (insert k v) w).
Definition removeItem (k : string) : Async unit :=
  fun w => (Return tt, with_storage (delete k) w).

Definition SyntaxError : JsError :=
  {| message := Some "JSON Parse error"; response := None |}.

Definition JSON_parse_or_throw (J : JsonCodec) (text : string) : Async json :=
  match JSON_parse J text with
  | Some v => ret v
  | None => throw SyntaxError
  end.

End Runtime.

Import Runtime.

#[global] Instance async_ret : MRet Async := @ret.
#[global] Instance async_bind : MBind Async := fun A B k m => bind m k.

(* ================================================================== *)
(** ** utils/session: the persisted auth blob *)
(* ================================================================== *)

Module Session.

(** config/apiConfig *)
Definition AUTH_STORAGE_KEY : string := "trueface_auth".

Definition LEGACY_AUTH_KEYS : list string := ["trueface_auth"].

Definition setAuthData (J : JsonCodec) (auth : json) : Async unit :=
  if negb (truthy auth) then
    removeItem AUTH_STORAGE_KEY;;
    for_each LEGACY_AUTH_KEYS removeItem
  else
    setItem AUTH_STORAGE_KEY (JSON_stringify J auth);;
    for_each LEGACY_AUTH_KEYS
      (fun key => if String.eqb key AUTH_STORAGE_KEY then ret tt else removeItem key).

(** The [for] loop of [getAuthData].  [inl v]: the loop left the function
    with [return v]; [inr raw]: the loop ran out with this [raw]. *)
Fixpoint legacy_scan (J : JsonCodec) (keys : list string) (raw : option string)
  : Async (json + option string) :=
  match keys with
  | [] => ret (inr raw)
  | legacyKey :: keys' =>
      raw ← getItem legacyKey;
      match raw with
      | Some text =>
          if String.eqb text "" then legacy_scan J keys' raw
          else
            r ← try_catch
                   (parsed ← JSON_parse_or_throw J text;
                    setAuthData J parsed;;
                    removeItem legacyKey;;
                    ret (inl parsed))
                   (fun _ => removeItem legacyKey;; ret (inr None));
            match r with
            | inl parsed => ret (inl parsed)
            | inr raw' => legacy_scan J keys' raw'
            end
      | None => legacy_scan J keys' raw
      end
  end.

(** [null] is [JNull]. *)
Definition getAuthData (J : JsonCodec) : Async json :=
  try_catch
    (raw ← getItem AUTH_STORAGE_KEY;
     r ← (if negb (truthy_str raw) then legacy_scan J LEGACY_AUTH_KEYS raw
          else ret (inr raw));
     match r with
     | inl parsed => ret parsed
     | inr None => ret JNull
     | inr (Some text) =>
         if String.eqb text "" then ret JNull else JSON_parse_or_throw J text
     end)
    (fun _ => removeItem AUTH_STORAGE_KEY;; ret JNull).

Definition clearAuthData : Async unit :=
  removeItem AUTH_STORAGE_KEY;;
  for_each LEGACY_AUTH_KEYS removeItem.

Definition isAuthenticated (J : JsonCodec) : Async bool :=
  auth ← getAuthData J;
  ret (truthy_opt (opt_prop "token" (Some auth))).

End Session.

(* ================================================================== *)
(** ** api/httpClient.ts: the two interceptors *)
(* ================================================================== *)

Module HttpClient.
Import Session.

(** The part of an axios request config the interceptor reads or writes.
    Header values are strings; an absent header reads as [undefined]. *)
Record Config : Type := {
  headers : option (gmap string string);
  method : option string;
  url : option string;
}.

Definition set_headers (h : gmap string string) (c : Config) : Config :=
  {| headers := Some h; method := method c; url := url c |}.

(** [!h[k]] negated: the header is there and is not the empty string. *)
Definition header_set (k : string) (h : gmap string string) : bool :=
  truthy_str (h !! k).

Definition registerLogoutCallback (callback : Callback) : Async unit :=
  fun w => (Return tt,
            {| storage := storage w; logoutCallback := Some callback; called := called w |}).

Definition call (cb : Callback) : Async unit :=
  fun w => (Return tt,
            {| storage := storage w; logoutCallback := logoutCallback w;
               called := called w ++ [cb] |}).

(** [if (logoutCallback) logoutCallback()] *)
Definition call_logoutCallback : Async unit :=
  fun w => match logoutCallback w with
           | Some cb => call cb w
           | None => ret tt w
           end.

(** [interceptors.request.use(async (config) => ...)]; the console line is
    left out. *)
Definition request_interceptor (J : JsonCodec) (config : Config) : Async Config :=
  auth ← getAuthData J;
  let token := opt_prop "token" (Some auth) in
  if truthy_opt token then
    let h := match headers config with Some h => h | None => ∅ end in
    let tokenValue := "Token " +:+ to_string_opt token in
    if negb (header_set "Authorization" h) && negb (header_set "authorization" h) then
      ret (set_headers (<["authorization" := tokenValue]>
                          (<["Authorization" := tokenValue]> h)) config)
    else
      let h1 :=
        if negb (header_set "Authorization" h) && header_set "authorization" h
        then match h !! "authorization" with
             | Some v => <["Authorization" := v]> h
             | None => h
             end
        else h in
      let h2 :=
        if negb (header_set "authorization" h1) && header_set "Authorization" h1
        then match h1 !! "Authorization" with
             | Some v => <["authorization" := v]> h1
             | None => h1
             end
        else h1 in
      ret (set_headers h2 config)
  else ret config.

(** The rejection handler of [interceptors.response.use]; the console
    lines are left out.  The promise it returns is always rejected with
    the error it was given. *)
Definition response_rejected (error : JsError) : Async Response :=
  (if match response error with
      | Some r => (status r =? 401) || (status r =? 403)
      | None => false
      end
   then
     clearAuthData;;
     call_logoutCallback
   else ret tt);;
  throw error.

End HttpClient.

(* ================================================================== *)
(** ** api/attendanceApi.ts *)
(* ================================================================== *)

Module AttendanceApi.

(** A [FormData] entry: a text field or a file part [{uri, type, name}]. *)
Inductive FormValue : Type :=
| FText (text : string)
| FFile (uri type name : string).

Definition FormData : Type := list (string * FormValue).

(** [formData.append(name, value)] *)
Definition append (name : string) (value : FormValue) (fd : FormData) : FormData :=
  fd ++ [(name, value)].

Record Request : Type := {
  req_method : string;
  req_url : string;
  req_content_type : string;
  req_body : FormData;
}.

(** [httpClient.post('/attendance/', formData, {headers: ...})] *)
Definition markAttendance (formData : FormData) : Request :=
  {| req_method := "post"; req_url := "/attendance/";
     req_content_type := "multipart/form-data"; req_body := formData |}.

Definition has_field (name : string) (fd : FormData) : bool :=
  existsb (fun kv => String.eqb (fst kv) name) fd.

End AttendanceApi.

Import AttendanceApi.

(* ================================================================== *)
(** ** JavaScript numbers of the geolocation fix *)
(* ================================================================== *)

Module Num.

(** A finite double is a rational; [NaN] and the infinities are left out. *)
Definition zeros (k : nat) : string := string_of_list_ascii (repeat "0"%char k).

(** [x.toFixed(f)]: the nearest decimal with [f] fraction digits, ties
    upwards in magnitude, the sign of [x] kept. *)
Definition toFixed (f : nat) (x : Q) : string :=
  let den := Z.pos (Qden x) in
  let n := (2 * Z.abs (Qnum x) * 10 ^ Z.of_nat f + den) / (2 * den) in
  let digits := pretty n in
  let padded := zeros (S f - String.length digits) +:+ digits in
  let cut := (String.length padded - f)%nat in
  (if Qnum x <? 0 then "-" else "")
    +:+ String.substring 0 cut padded
    +:+ (match f with O => "" | _ => "." +:+ String.substring cut f padded end).

(** [Math.round(x)] *)
Definition round (x : Q) : Z := Qfloor (x + (1 # 2))%Q.

Definition is_zero (x : Q) : bool := Qnum x =? 0.

End Num.

(* ================================================================== *)
(** ** pages/AttendanceScreen.tsx: state, toasts, one capture *)
(* ================================================================== *)

Module Attendance.

Inductive ToastType : Type := success | error | info.

Inductive StoppedState : Type :=
| idle | stopped_error | cancelled | stopped_success | retry.

Record GeoLocation : Type := {
  latitude : Q;
  longitude : Q;
  accuracy : Q;
}.

(** [message] is typed [string]; the success path stores [data.message]
    as the server sent it, so the field holds a JSON value. *)
Record ToastMessage : Type := {
  id : string;
  message : json;
  type : ToastType;
  employee : option json;
  checkin : option json;
  checkout : option json;
  confidence : option json;
  location : option GeoLocation;
}.

Record ToastOpts : Type := {
  o_employee : option json;
  o_checkin : option json;
  o_checkout : option json;
  o_confidence : option json;
  o_location : option GeoLocation;
}.

Definition no_opts : ToastOpts :=
  {| o_employee := None; o_checkin := None; o_checkout := None;
     o_confidence := None; o_location := None |}.

(** What a [setTimeout] callback of this screen does. *)
Inductive TimerAction : Type :=
| RemoveToast (toast_id : string)     (* showToast *)
| ClearProcessing                     (* captureAndSend, location missing *)
| AutoCapture.                        (* the detection effect *)

(** [set_at] is the last [Date.now()] read before the [setTimeout] call,
    in the same synchronous block: the callback cannot run before
    [set_at + delay]. *)
Record Timer : Type := {
  handle : nat;
  delay : Z;
  set_at : Z;
  action : TimerAction;
}.

Inductive Task : Type :=
| TickDetect                   (* interval callback inside checkForFace *)
| TimeoutDetect (h : nat)      (* capture timeout inside checkForFace *)
| Capture (h : nat).           (* capture timeout inside captureAndSend *)

#[global] Instance Task_eq_dec : EqDecision Task.
Proof. solve_decision. Defined.

Record Screen : Type := {
  cameraRef : bool;   (* cameraRef.current is a mounted camera *)
  locationPermission : option bool;
  isProcessing : bool;
  toasts : list ToastMessage;
  started : bool;
  cameraActive : bool;
  faceDetected : bool;
  stoppedState : StoppedState;
  geolocation : option GeoLocation;
  geoError : option string;
  isProcessingRef : bool;
  faceDetectedRef : bool;
  lastCaptureTimeRef : Z;
  nextAllowedCaptureAtRef : Z;   (* block auto-captures until this timestamp *)
  captureTimeoutRef : option nat;   (* handle of the pending capture timeout *)
  lastToastTimeRef : gmap string Z;
  timers : list Timer;   (* setTimeout callbacks not yet run *)
  next_handle : nat;   (* the handle the next setTimeout returns *)
  requests : list Request;   (* calls of markAttendance, oldest first *)
  spoken : list json;   (* texts handed to Speech.speak *)
  tasks : list Task;   (* async callbacks suspended at an await *)
}.

Definition set_cameraRef (v : bool) (s : Screen) : Screen :=
  {| cameraRef := v; locationPermission := locationPermission s; isProcessing := isProcessing
     s; toasts := toasts s; started := started s; cameraActive := cameraActive s;
     faceDetected := faceDetected s; stoppedState := stoppedState s; geolocation :=
     geolocation s; geoError := geoError s; isProcessingRef := isProcessingRef s;
     faceDetectedRef := faceDetectedRef s; lastCaptureTimeRef := lastCaptureTimeRef s;
     nextAllowedCaptureAtRef := nextAllowedCaptureAtRef s; captureTimeoutRef :=
     captureTimeoutRef s; lastToastTimeRef := lastToastTimeRef s; timers := timers s;
     next_handle := next_handle s; requests := requests s; spoken := spoken s; tasks := tasks
     s |}.
Definition set_locationPermission (v : option bool) (s : Screen) : Screen :=
  {| cameraRef := cameraRef s; locationPermission := v; isProcessing := isProcessing s;
     toasts := toasts s; started := started s; cameraActive := cameraActive s; faceDetected
     := faceDetected s; stoppedState := stoppedState s; geolocation := geolocation s;
     geoError := geoError s; isProcessingRef := isProcessingRef s; faceDetectedRef :=
     faceDetectedRef s; lastCaptureTimeRef := lastCaptureTimeRef s; nextAllowedCaptureAtRef
     := nextAllowedCaptureAtRef s; captureTimeoutRef := captureTimeoutRef s; lastToastTimeRef
     := lastToastTimeRef s; timers := timers s; next_handle := next_handle s; requests :=
     requests s; spoken := spoken s; tasks := tasks s |}.
Definition set_isProcessing (v : bool) (s : Screen) : Screen :=
  {| cameraRef := cameraRef s; locationPermission := locationPermission s; isProcessing := v;
     toasts := toasts s; started := started s; cameraActive := cameraActive s; faceDetected
     := faceDetected s; stoppedState := stoppedState s; geolocation := geolocation s;
     geoError := geoError s; isProcessingRef := isProcessingRef s; faceDetectedRef :=
     faceDetectedRef s; lastCaptureTimeRef := lastCaptureTimeRef s; nextAllowedCaptureAtRef
     := nextAllowedCaptureAtRef s; captureTimeoutRef := captureTimeoutRef s; lastToastTimeRef
     := lastToastTimeRef s; timers := timers s; next_handle := next_handle s; requests :=
     requests s; spoken := spoken s; tasks := tasks s |}.
Definition set_toasts (v : list ToastMessage) (s : Screen) : Screen :=
  {| cameraRef := cameraRef s; locationPermission := locationPermission s; isProcessing :=
     isProcessing s; toasts := v; started := started s; cameraActive := cameraActive s;
     faceDetected := faceDetected s; stoppedState := stoppedState s; geolocation :=
     geolocation s; geoError := geoError s; isProcessingRef := isProcessingRef s;
     faceDetectedRef := faceDetectedRef s; lastCaptureTimeRef := lastCaptureTimeRef s;
     nextAllowedCaptureAtRef := nextAllowedCaptureAtRef s; captureTimeoutRef :=
     captureTimeoutRef s; lastToastTimeRef := lastToastTimeRef s; timers := timers s;
     next_handle := next_handle s; requests := requests s; spoken := spoken s; tasks := tasks
     s |}.
Definition set_started (v : bool) (s : Screen) : Screen :=
  {| cameraRef := cameraRef s; locationPermission := locationPermission s; isProcessing :=
     isProcessing s; toasts := toasts s; started := v; cameraActive := cameraActive s;
     faceDetected := faceDetected s; stoppedState := stoppedState s; geolocation :=
     geolocation s; geoError := geoError s; isProcessingRef := isProcessingRef s;
     faceDetectedRef := faceDetectedRef s; lastCaptureTimeRef := lastCaptureTimeRef s;
     nextAllowedCaptureAtRef := nextAllowedCaptureAtRef s; captureTimeoutRef :=
     captureTimeoutRef s; lastToastTimeRef := lastToastTimeRef s; timers := timers s;
     next_handle := next_handle s; requests := requests s; spoken := spoken s; tasks := tasks
     s |}.
Definition set_cameraActive (v : bool) (s : Screen) : Screen :=
  {| cameraRef := cameraRef s; locationPermission := locationPermission s; isProcessing :=
     isProcessing s; toasts := toasts s; started := started s; cameraActive := v;
     faceDetected := faceDetected s; stoppedState := stoppedState s; geolocation :=
     geolocation s; geoError := geoError s; isProcessingRef := isProcessingRef s;
     faceDetectedRef := faceDetectedRef s; lastCaptureTimeRef := lastCaptureTimeRef s;
     nextAllowedCaptureAtRef := nextAllowedCaptureAtRef s; captureTimeoutRef :=
     captureTimeoutRef s; lastToastTimeRef := lastToastTimeRef s; timers := timers s;
     next_handle := next_handle s; requests := requests s; spoken := spoken s; tasks := tasks
     s |}.
Definition set_faceDetected (v : bool) (s : Screen) : Screen :=
  {| cameraRef := cameraRef s; locationPermission := locationPermission s; isProcessing :=
     isProcessing s; toasts := toasts s; started := started s; cameraActive := cameraActive
     s; faceDetected := v; stoppedState := stoppedState s; geolocation := geolocation s;
     geoError := geoError s; isProcessingRef := isProcessingRef s; faceDetectedRef :=
     faceDetectedRef s; lastCaptureTimeRef := lastCaptureTimeRef s; nextAllowedCaptureAtRef
     := nextAllowedCaptureAtRef s; captureTimeoutRef := captureTimeoutRef s; lastToastTimeRef
     := lastToastTimeRef s; timers := timers s; next_handle := next_handle s; requests :=
     requests s; spoken := spoken s; tasks := tasks s |}.
Definition set_stoppedState (v : StoppedState) (s : Screen) : Screen :=
  {| cameraRef := cameraRef s; locationPermission := locationPermission s; isProcessing :=
     isProcessing s; toasts := toasts s; started := started s; cameraActive := cameraActive
     s; faceDetected := faceDetected s; stoppedState := v; geolocation := geolocation s;
     geoError := geoError s; isProcessingRef := isProcessingRef s; faceDetectedRef :=
     faceDetectedRef s; lastCaptureTimeRef := lastCaptureTimeRef s; nextAllowedCaptureAtRef
     := nextAllowedCaptureAtRef s; captureTimeoutRef := captureTimeoutRef s; lastToastTimeRef
     := lastToastTimeRef s; timers := timers s; next_handle := next_handle s; requests :=
     requests s; spoken := spoken s; tasks := tasks s |}.
Definition set_geolocation (v : option GeoLocation) (s : Screen) : Screen :=
  {| cameraRef := cameraRef s; locationPermission := locationPermission s; isProcessing :=
     isProcessing s; toasts := toasts s; started := started s; cameraActive := cameraActive
     s; faceDetected := faceDetected s; stoppedState := stoppedState s; geolocation := v;
     geoError := geoError s; isProcessingRef := isProcessingRef s; faceDetectedRef :=
     faceDetectedRef s; lastCaptureTimeRef := lastCaptureTimeRef s; nextAllowedCaptureAtRef
     := nextAllowedCaptureAtRef s; captureTimeoutRef := captureTimeoutRef s; lastToastTimeRef
     := lastToastTimeRef s; timers := timers s; next_handle := next_handle s; requests :=
     requests s; spoken := spoken s; tasks := tasks s |}.
Definition set_geoError (v : option string) (s : Screen) : Screen :=
  {| cameraRef := cameraRef s; locationPermission := locationPermission s; isProcessing :=
     isProcessing s; toasts := toasts s; started := started s; cameraActive := cameraActive
     s; faceDetected := faceDetected s; stoppedState := stoppedState s; geolocation :=
     geolocation s; geoError := v; isProcessingRef := isProcessingRef s; faceDetectedRef :=
     faceDetectedRef s; lastCaptureTimeRef := lastCaptureTimeRef s; nextAllowedCaptureAtRef
     := nextAllowedCaptureAtRef s; captureTimeoutRef := captureTimeoutRef s; lastToastTimeRef
     := lastToastTimeRef s; timers := timers s; next_handle := next_handle s; requests :=
     requests s; spoken := spoken s; tasks := tasks s |}.
Definition set_isProcessingRef (v : bool) (s : Screen) : Screen :=
  {| cameraRef := cameraRef s; locationPermission := locationPermission s; isProcessing :=
     isProcessing s; toasts := toasts s; started := started s; cameraActive := cameraActive
     s; faceDetected := faceDetected s; stoppedState := stoppedState s; geolocation :=
     geolocation s; geoError := geoError s; isProcessingRef := v; faceDetectedRef :=
     faceDetectedRef s; lastCaptureTimeRef := lastCaptureTimeRef s; nextAllowedCaptureAtRef
     := nextAllowedCaptureAtRef s; captureTimeoutRef := captureTimeoutRef s; lastToastTimeRef
     := lastToastTimeRef s; timers := timers s; next_handle := next_handle s; requests :=
     requests s; spoken := spoken s; tasks := tasks s |}.
Definition set_faceDetectedRef (v : bool) (s : Screen) : Screen :=
  {| cameraRef := cameraRef s; locationPermission := locationPermission s; isProcessing :=
     isProcessing s; toasts := toasts s; started := started s; cameraActive := cameraActive
     s; faceDetected := faceDetected s; stoppedState := stoppedState s; geolocation :=
     geolocation s; geoError := geoError s; isProcessingRef := isProcessingRef s;
     faceDetectedRef := v; lastCaptureTimeRef := lastCaptureTimeRef s;
     nextAllowedCaptureAtRef := nextAllowedCaptureAtRef s; captureTimeoutRef :=
     captureTimeoutRef s; lastToastTimeRef := lastToastTimeRef s; timers := timers s;
     next_handle := next_handle s; requests := requests s; spoken := spoken s; tasks := tasks
     s |}.
Definition set_lastCaptureTimeRef (v : Z) (s : Screen) : Screen :=
  {| cameraRef := cameraRef s; locationPermission := locationPermission s; isProcessing :=
     isProcessing s; toasts := toasts s; started := started s; cameraActive := cameraActive
     s; faceDetected := faceDetected s; stoppedState := stoppedState s; geolocation :=
     geolocation s; geoError := geoError s; isProcessingRef := isProcessingRef s;
     faceDetectedRef := faceDetectedRef s; lastCaptureTimeRef := v; nextAllowedCaptureAtRef
     := nextAllowedCaptureAtRef s; captureTimeoutRef := captureTimeoutRef s; lastToastTimeRef
     := lastToastTimeRef s; timers := timers s; next_handle := next_handle s; requests :=
     requests s; spoken := spoken s; tasks := tasks s |}.
Definition set_nextAllowedCaptureAtRef (v : Z) (s : Screen) : Screen :=
  {| cameraRef := cameraRef s; locationPermission := locationPermission s; isProcessing :=
     isProcessing s; toasts := toasts s; started := started s; cameraActive := cameraActive
     s; faceDetected := faceDetected s; stoppedState := stoppedState s; geolocation :=
     geolocation s; geoError := geoError s; isProcessingRef := isProcessingRef s;
     faceDetectedRef := faceDetectedRef s; lastCaptureTimeRef := lastCaptureTimeRef s;
     nextAllowedCaptureAtRef := v; captureTimeoutRef := captureTimeoutRef s; lastToastTimeRef
     := lastToastTimeRef s; timers := timers s; next_handle := next_handle s; requests :=
     requests s; spoken := spoken s; tasks := tasks s |}.
Definition set_captureTimeoutRef (v : option nat) (s : Screen) : Screen :=
  {| cameraRef := cameraRef s; locationPermission := locationPermission s; isProcessing :=
     isProcessing s; toasts := toasts s; started := started s; cameraActive := cameraActive
     s; faceDetected := faceDetected s; stoppedState := stoppedState s; geolocation :=
     geolocation s; geoError := geoError s; isProcessingRef := isProcessingRef s;
     faceDetectedRef := faceDetectedRef s; lastCaptureTimeRef := lastCaptureTimeRef s;
     nextAllowedCaptureAtRef := nextAllowedCaptureAtRef s; captureTimeoutRef := v;
     lastToastTimeRef := lastToastTimeRef s; timers := timers s; next_handle := next_handle
     s; requests := requests s; spoken := spoken s; tasks := tasks s |}.
Definition set_lastToastTimeRef (v : gmap string Z) (s : Screen) : Screen :=
  {| cameraRef := cameraRef s; locationPermission := locationPermission s; isProcessing :=
     isProcessing s; toasts := toasts s; started := started s; cameraActive := cameraActive
     s; faceDetected := faceDetected s; stoppedState := stoppedState s; geolocation :=
     geolocation s; geoError := geoError s; isProcessingRef := isProcessingRef s;
     faceDetectedRef := faceDetectedRef s; lastCaptureTimeRef := lastCaptureTimeRef s;
     nextAllowedCaptureAtRef := nextAllowedCaptureAtRef s; captureTimeoutRef :=
     captureTimeoutRef s; lastToastTimeRef := v; timers := timers s; next_handle :=
     next_handle s; requests := requests s; spoken := spoken s; tasks := tasks s |}.
Definition set_timers (v : list Timer) (s : Screen) : Screen :=
  {| cameraRef := cameraRef s; locationPermission := locationPermission s; isProcessing :=
     isProcessing s; toasts := toasts s; started := started s; cameraActive := cameraActive
     s; faceDetected := faceDetected s; stoppedState := stoppedState s; geolocation :=
     geolocation s; geoError := geoError s; isProcessingRef := isProcessingRef s;
     faceDetectedRef := faceDetectedRef s; lastCaptureTimeRef := lastCaptureTimeRef s;
     nextAllowedCaptureAtRef := nextAllowedCaptureAtRef s; captureTimeoutRef :=
     captureTimeoutRef s; lastToastTimeRef := lastToastTimeRef s; timers := v; next_handle :=
     next_handle s; requests := requests s; spoken := spoken s; tasks := tasks s |}.
Definition set_next_handle (v : nat) (s : Screen) : Screen :=
  {| cameraRef := cameraRef s; locationPermission := locationPermission s; isProcessing :=
     isProcessing s; toasts := toasts s; started := started s; cameraActive := cameraActive
     s; faceDetected := faceDetected s; stoppedState := stoppedState s; geolocation :=
     geolocation s; geoError := geoError s; isProcessingRef := isProcessingRef s;
     faceDetectedRef := faceDetectedRef s; lastCaptureTimeRef := lastCaptureTimeRef s;
     nextAllowedCaptureAtRef := nextAllowedCaptureAtRef s; captureTimeoutRef :=
     captureTimeoutRef s; lastToastTimeRef := lastToastTimeRef s; timers := timers s;
     next_handle := v; requests := requests s; spoken := spoken s; tasks := tasks s |}.
Definition set_requests (v : list Request) (s : Screen) : Screen :=
  {| cameraRef := cameraRef s; locationPermission := locationPermission s; isProcessing :=
     isProcessing s; toasts := toasts s; started := started s; cameraActive := cameraActive
     s; faceDetected := faceDetected s; stoppedState := stoppedState s; geolocation :=
     geolocation s; geoError := geoError s; isProcessingRef := isProcessingRef s;
     faceDetectedRef := faceDetectedRef s; lastCaptureTimeRef := lastCaptureTimeRef s;
     nextAllowedCaptureAtRef := nextAllowedCaptureAtRef s; captureTimeoutRef :=
     captureTimeoutRef s; lastToastTimeRef := lastToastTimeRef s; timers := timers s;
     next_handle := next_handle s; requests := v; spoken := spoken s; tasks := tasks s |}.
Definition set_spoken (v : list json) (s : Screen) : Screen :=
  {| cameraRef := cameraRef s; locationPermission := locationPermission s; isProcessing :=
     isProcessing s; toasts := toasts s; started := started s; cameraActive := cameraActive
     s; faceDetected := faceDetected s; stoppedState := stoppedState s; geolocation :=
     geolocation s; geoError := geoError s; isProcessingRef := isProcessingRef s;
     faceDetectedRef := faceDetectedRef s; lastCaptureTimeRef := lastCaptureTimeRef s;
     nextAllowedCaptureAtRef := nextAllowedCaptureAtRef s; captureTimeoutRef :=
     captureTimeoutRef s; lastToastTimeRef := lastToastTimeRef s; timers := timers s;
     next_handle := next_handle s; requests := requests s; spoken := v; tasks := tasks s |}.
Definition set_tasks (v : list Task) (s : Screen) : Screen :=
  {| cameraRef := cameraRef s; locationPermission := locationPermission s; isProcessing :=
     isProcessing s; toasts := toasts s; started := started s; cameraActive := cameraActive
     s; faceDetected := faceDetected s; stoppedState := stoppedState s; geolocation :=
     geolocation s; geoError := geoError s; isProcessingRef := isProcessingRef s;
     faceDetectedRef := faceDetectedRef s; lastCaptureTimeRef := lastCaptureTimeRef s;
     nextAllowedCaptureAtRef := nextAllowedCaptureAtRef s; captureTimeoutRef :=
     captureTimeoutRef s; lastToastTimeRef := lastToastTimeRef s; timers := timers s;
     next_handle := next_handle s; requests := requests s; spoken := spoken s; tasks := v |}.

(** [setTimeout(cb, delay)] *)
Definition setTimeout (a : TimerAction) (d : Z) (now : Z) (s : Screen) : nat * Screen :=
  let h := next_handle s in
  (h, set_next_handle (S h)
        (set_timers (timers s ++ [{| handle := h; delay := d; set_at := now; action := a |}]) s)).

(** [clearTimeout(h)] *)
Definition clearTimeout (h : nat) (s : Screen) : Screen :=
  set_timers (filter (fun t => handle t ≠ h) (timers s)) s.

Definition dismissAllToasts (s : Screen) : Screen := set_toasts [] s.

Definition removeToast (toast_id : string) (s : Screen) : Screen :=
  set_toasts (filter (fun t => id t ≠ toast_id) (toasts s)) s.

Definition mkToast (toast_id : string) (msg : json) (ty : ToastType) (o : ToastOpts)
  : ToastMessage :=
  {| id := toast_id; message := msg; type := ty;
     employee := o_employee o; checkin := o_checkin o; checkout := o_checkout o;
     confidence := o_confidence o; location := o_location o |}.

(** The throttle of [showToast]: [true] when the call returns early. *)
Definition throttled (key : option string) (now_key : Z) (s : Screen) : bool :=
  match key with
  | Some k =>
      if String.eqb k "" then false
      else match lastToastTimeRef s !! k with
           | Some last => negb (last =? 0) && (now_key - last <? 3000)
           | None => false
           end
  | None => false
  end.

(** [now_key] and [now_id] are the two [Date.now()] reads. *)
Definition showToast (now_key now_id : Z) (msg : json) (ty : ToastType)
    (opts : ToastOpts) (key : option string) (s : Screen) : Screen :=
  if throttled key now_key s then s
  else
    let s1 := match key with
              | Some k => if String.eqb k "" then s
                          else set_lastToastTimeRef (<[k := now_key]> (lastToastTimeRef s)) s
              | None => s
              end in
    let toast_id := pretty now_id in
    let s2 := set_toasts (toasts s1 ++ [mkToast toast_id msg ty opts]) s1 in
    snd (setTimeout (RemoveToast toast_id) 5000 now_id s2).

Definition speakText (text : json) (s : Screen) : Screen :=
  set_spoken (spoken s ++ [text]) s.

Definition stopCamera (s : Screen) : Screen :=
  set_faceDetected false (set_faceDetectedRef false (set_cameraActive false s)).

Definition stopCameraWith (reason : StoppedState) (s : Screen) : Screen :=
  let s1 := set_faceDetected false (set_faceDetectedRef false (set_cameraActive false s)) in
  match reason with
  | stopped_error => set_stoppedState idle (set_started false s1)
  | _ => set_stoppedState reason s1
  end.

(** *** fetchGeolocation *)

Inductive PermissionStatus : Type := granted | denied | undetermined.

Record Coords : Type := {
  c_latitude : Q;
  c_longitude : Q;
  c_accuracy : option Q;      (* [null] on some devices *)
}.

(** What the location service answers, call by call. *)
Record GeoEnv : Type := {
  requestForegroundPermissions : completion PermissionStatus;
  getCurrentPosition : completion Coords;
  getForegroundPermissions : completion PermissionStatus;
}.

Definition is_granted (p : PermissionStatus) : bool :=
  match p with granted => true | _ => false end.

Definition fetchGeolocation_catch (g : GeoEnv) (e : JsError) (s : Screen)
  : completion (option GeoLocation) * Screen :=
  let s1 := set_geoError
              (Some (match Js.message e with
                     | Some m => if String.eqb m "" then "Failed to get location" else m
                     | None => "Failed to get location"
                     end)) s in
  match getForegroundPermissions g with
  | Return st => (Return None, set_locationPermission (Some (is_granted st)) s1)
  | Throw e' => (Throw e', s1)
  end.

Definition fetchGeolocation (g : GeoEnv) (s : Screen)
  : completion (option GeoLocation) * Screen :=
  match requestForegroundPermissions g with
  | Throw e => fetchGeolocation_catch g e s
  | Return st =>
      if negb (is_granted st) then
        (Return None,
         set_locationPermission (Some false)
           (set_geoError (Some "Location permission denied") s))
      else
        let s1 := set_locationPermission (Some true) s in
        match getCurrentPosition g with
        | Throw e => fetchGeolocation_catch g e s1
        | Return c =>
            let geoData :=
              {| latitude := c_latitude c; longitude := c_longitude c;
                 accuracy := match c_accuracy c with
                             | Some a => if Num.is_zero a then 0%Q else a
                             | None => 0%Q
                             end |} in
            (Return (Some geoData), set_geoError None (set_geolocation (Some geoData) s1))
        end
  end.

(** *** captureAndSend, block by block *)

Record Photo : Type := { uri : string }.

(** Lines 264-273, up to the first [await].  [None]: the guard returned. *)
Definition captureAndSend_enter (now : Z) (s : Screen) : option Screen :=
  if negb (cameraRef s) || isProcessingRef s then None
  else
    let s1 := set_lastCaptureTimeRef now s in
    let s2 := set_nextAllowedCaptureAtRef
                (Z.max (nextAllowedCaptureAtRef s1) (lastCaptureTimeRef s1)) s1 in
    Some (set_isProcessing true (set_isProcessingRef true s2)).

Definition clear_processing (s : Screen) : Screen :=
  set_isProcessing false (set_isProcessingRef false s).

(** Lines 282-296: no geolocation. *)
Definition captureAndSend_no_location (now_key now_id now : Z) (s : Screen) : Screen :=
  let s1 := showToast now_key now_id
              (JStr "Enable location on your device to mark attendance. If already allowed, check app permissions.")
              error no_opts (Some "attendance-location-missing") s in
  let s2 := set_nextAllowedCaptureAtRef (now + 10000) s1 in
  snd (setTimeout ClearProcessing 1000 now s2).

(** Lines 304-309: the camera gave no photo. *)
Definition captureAndSend_no_photo (now_id : Z) (s : Screen) : Screen :=
  clear_processing
    (showToast now_id now_id (JStr "Failed to capture photo") error no_opts None s).

(** Lines 312-322. *)
Definition attendance_form (photo : Photo) (geoData : GeoLocation) : FormData :=
  append "accuracy" (FText (pretty (Num.round (accuracy geoData))))
    (append "longitude" (FText (Num.toFixed 6 (longitude geoData)))
       (append "latitude" (FText (Num.toFixed 6 (latitude geoData)))
          (append "image" (FFile (uri photo) "image/jpeg" "face.jpg") []))).

(** Line 325: the call goes out. *)
Definition captureAndSend_submit (photo : Photo) (geoData : GeoLocation) (s : Screen)
  : Screen :=
  set_requests (requests s ++ [markAttendance (attendance_form photo geoData)]) s.

Definition is_str (text : string) (v : option json) : bool :=
  match v with
  | Some (JStr t) => String.eqb t text
  | _ => false
  end.

(** Lines 326-374: the server answered. *)
Definition captureAndSend_response (geoData : GeoLocation) (resp : Response)
    (now_key now_id now : Z) (s : Screen) : Screen :=
  let data := match Js.data resp with
              | Some d => if truthy d then d else JObj []
              | None => JObj []
              end in
  if truthy_opt (prop "status" data) && truthy_opt (prop "message" data) then
    let toastType := if is_str "Already marked" (prop "status" data) then info else success in
    let toastMsg := match prop "message" data with Some m => m | None => JNull end in
    let s1 := showToast now_id now_id toastMsg toastType
                {| o_employee := or_else (prop "employee" data) (prop "employee_name" data);
                   o_confidence := prop "confidence" data;
                   o_location := Some geoData;
                   o_checkin := or_else (prop "checkin_time" data) (prop "checkin" data);
                   o_checkout := or_else (prop "checkout_time" data) (prop "checkout" data) |}
                None s in
    let speakMsg := if is_str "Already marked" (prop "status" data)
                    then JStr "Your attendance for today is already recorded. Have a good day."
                    else toastMsg in
    let s2 := speakText speakMsg s1 in
    let postSuccessCooldownMs := 8000 in
    clear_processing (set_nextAllowedCaptureAtRef (now + postSuccessCooldownMs) s2)
  else
    let s1 := showToast now_key now_id (JStr "Received unexpected response from server.")
                error no_opts (Some "attendance-unknown") s in
    clear_processing (set_nextAllowedCaptureAtRef (now + 6000) s1).

(** Lines 376-401: title and text of the error toast. *)
Definition error_title_msg (e : JsError) : string * option json :=
  let data := match response e with Some r => Js.data r | None => None end in
  let err := opt_prop "error" data in
  if truthy_opt err then
    if is_str "No face detected" err then
      ("No Face Found", Some (JStr "Please ensure your face is clearly visible in the frame"))
    else if is_str "Face not recognized" err then
      ("Unregistered Face",
       Some (JStr "Your face is not registered in the system. Please contact administrator."))
    else ("Error", err)
  else
    match data with
    | Some errorData =>
        if truthy errorData then
          match first_own_value errorData with
          | Some firstError => ("Connection Error", first_if_array (Some firstError))
          | None => ("Connection Error", Some (JStr "Server connection failed"))
          end
        else ("Connection Error", Some (JStr "Server connection failed"))
    | None => ("Connection Error", Some (JStr "Server connection failed"))
    end.

(** [`${errTitle}: ${errMsg}`] *)
Definition error_toast_text (e : JsError) : string :=
  fst (error_title_msg e) +:+ ": " +:+ to_string_opt (snd (error_title_msg e)).

(** Lines 375-409: the [catch] block. *)
Definition captureAndSend_catch (e : JsError) (now_key now_id now : Z) (s : Screen)
  : Screen :=
  let s1 := showToast now_key now_id (JStr (error_toast_text e)) error no_opts
              (Some "attendance-error") s in
  let s2 := stopCameraWith stopped_error s1 in
  clear_processing (set_nextAllowedCaptureAtRef (now + 10000) s2).

(** What one run of [captureAndSend] meets: the clock at entry, the
    answers of the location service, the camera and the server, and the
    clock in the block that ends the run ([now_key], [now_id]: the two
    reads inside [showToast]; [now_done]: the read of the cooldown). *)
Record CaptureEnv : Type := {
  now_enter : Z;
  geo : GeoEnv;
  picture : completion (option Photo);
  answer : completion Response;
  now_key : Z;
  now_id : Z;
  now_done : Z;
}.

(** Everything after the entry block.  [known] is the [geolocation] the
    callback closed over. *)
Definition captureAndSend_rest (known : option GeoLocation) (env : CaptureEnv)
    (s : Screen) : Screen :=
  let '(geoData, s1) :=
    match known with
    | Some g => (Return (Some g), s)
    | None => fetchGeolocation (geo env) s
    end in
  match geoData with
  | Throw e => captureAndSend_catch e (now_key env) (now_id env) (now_done env) s1
  | Return None => captureAndSend_no_location (now_key env) (now_id env) (now_done env) s1
  | Return (Some geoData) =>
      match picture env with
      | Throw e => captureAndSend_catch e (now_key env) (now_id env) (now_done env) s1
      | Return None => captureAndSend_no_photo (now_id env) s1
      | Return (Some photo) =>
          let s2 := captureAndSend_submit photo geoData s1 in
          match answer env with
          | Throw e => captureAndSend_catch e (now_key env) (now_id env) (now_done env) s2
          | Return resp =>
              captureAndSend_response geoData resp (now_key env) (now_id env) (now_done env) s2
          end
      end
  end.

(** One uninterrupted run. *)
Definition captureAndSend (env : CaptureEnv) (s : Screen) : Screen :=
  match captureAndSend_enter (now_enter env) s with
  | None => s
  | Some s1 => captureAndSend_rest (geolocation s) env s1
  end.

End Attendance.

(* ================================================================== *)
(** ** pages/AttendanceScreen.tsx: the detection effect and the handlers *)
(* ================================================================== *)

Module Loop.
Import Attendance.

(** What [checkForFace] learns once the frame is analysed. *)
Inductive Detection : Type :=
| NoPhoto                 (* takePictureAsync gave nothing *)
| DetectFailed            (* the camera or the detector threw *)
| Faces (n : nat).        (* the detector found [n] faces *)

(** Line 416: [true] when [checkForFace] returns [false] at once. *)
Definition checkForFace_blocked (s : Screen) : bool :=
  negb (cameraRef s) || isProcessingRef s || negb (started s) || negb (cameraActive s).

(** Lines 427-449. *)
Definition checkForFace_finish (d : Detection) (s : Screen) : bool * Screen :=
  match d with
  | NoPhoto | DetectFailed => (false, s)
  | Faces n =>
      let detected := negb (Nat.eqb n 0) in
      (detected,
       if Bool.eqb (faceDetectedRef s) detected then s
       else set_faceDetected detected (set_faceDetectedRef detected s))
  end.

Definition cooldownMs : Z := 10000.

(** Line 481. *)
Definition allowedByTime (now : Z) (s : Screen) : bool :=
  (cooldownMs <? now - lastCaptureTimeRef s) && (nextAllowedCaptureAtRef s <=? now).

(** The conditions of lines 477 and 484 together. *)
Definition gate_open (detected : bool) (now : Z) (s : Screen) : bool :=
  detected && negb (isProcessingRef s) && negb (bool_decide (is_Some (captureTimeoutRef s)))
  && allowedByTime now s.

Definition clear_capture_timeout (s : Screen) : Screen :=
  match captureTimeoutRef s with
  | Some h => set_captureTimeoutRef None (clearTimeout h s)
  | None => s
  end.

Definition face_lost (s : Screen) : Screen :=
  set_faceDetected false (set_faceDetectedRef false s).

(** Lines 476-525: the interval callback after [await checkForFace()]. *)
Definition tick_resume (detected : bool) (now : Z) (s : Screen) : Screen :=
  if detected && negb (isProcessingRef s) && negb (bool_decide (is_Some (captureTimeoutRef s)))
  then
    if allowedByTime now s then
      let s0 := clear_capture_timeout s in
      let '(h, s1) := setTimeout AutoCapture 2000 now s0 in
      set_captureTimeoutRef (Some h) s1
    else s
  else if negb detected then
    let s1 := clear_capture_timeout s in
    if faceDetectedRef s1 then face_lost s1 else s1
  else s.

(** Lines 492-511: the capture timeout after [await checkForFace()].
    [inl]: [captureAndSend] was entered and is awaited; [inr]: the
    callback ran to its end.  [captureAndSend] handles every error of its
    own run, so the [catch] of lines 500-506 is never entered. *)
Definition timeout_resume (stillDetected : bool) (now : Z) (s : Screen)
  : Screen + Screen :=
  if stillDetected && negb (isProcessingRef s) && cameraRef s then
    match captureAndSend_enter now s with
    | Some s1 => inl s1
    | None => inr (set_captureTimeoutRef None s)
    end
  else inr (set_captureTimeoutRef None (face_lost s)).

(** Line 512, after [captureAndSend] settled. *)
Definition timeout_done (s : Screen) : Screen := set_captureTimeoutRef None s.

(** Lines 617-625. *)
Definition handleRetry (s : Screen) : Screen :=
  set_cameraActive true
    (set_stoppedState idle
       (set_nextAllowedCaptureAtRef 0
          (set_lastCaptureTimeRef 0
             (clear_processing (dismissAllToasts s))))).

(** Lines 628-630. *)
Definition handleCancel (s : Screen) : Screen := stopCameraWith cancelled s.

Record StartEnv : Type := {
  first_check : completion PermissionStatus;    (* line 544 *)
  start_geo : GeoEnv;
  second_check : completion PermissionStatus;   (* line 555 *)
  start_now_key : Z;
  start_now_id : Z;
}.

(** Lines 574-582. *)
Definition start_camera (was_started : bool) (s : Screen) : Screen :=
  let s1 := if negb was_started
            then set_nextAllowedCaptureAtRef 0 (set_lastCaptureTimeRef 0 s)
            else s in
  set_stoppedState idle (set_cameraActive true (set_started true s1)).

(** Lines 538-583.  The location fetch in the background is run at once;
    a rejection of the awaited fetch ends the handler. *)
Definition handleStart (env : StartEnv) (s : Screen) : Screen :=
  let was_started := started s in
  let s0 := dismissAllToasts s in
  let permissionStatus := match first_check env with
                          | Return st => st
                          | Throw _ => undetermined
                          end in
  if negb (is_granted permissionStatus) then
    match fetchGeolocation (start_geo env) s0 with
    | (Throw _, s1) => s1
    | (Return _, s1) =>
        match second_check env with
        | Throw _ => s1
        | Return newStatus =>
            if negb (is_granted newStatus) then
              showToast (start_now_key env) (start_now_id env)
                (JStr "Location permission is required to mark attendance")
                error no_opts (Some "location-required") s1
            else start_camera was_started (set_locationPermission (Some true) s1)
        end
    end
  else
    let s1 := set_locationPermission (Some true) s0 in
    let s2 := snd (fetchGeolocation (start_geo env) s1) in
    start_camera was_started s2.

(** Lines 586-614: the mount effect, once the permission check said
    [granted]. *)
Definition auto_start (g : GeoEnv) (s : Screen) : Screen :=
  if started s then s
  else
    let s1 := set_cameraActive true (set_started true (set_locationPermission (Some true) s)) in
    snd (fetchGeolocation g s1).

(** Lines 454-464 and 528-534: what the detection effect does when it is
    torn down or finds the camera off. *)
Definition detection_effect (s : Screen) : Screen :=
  if negb (started s) || negb (cameraActive s) then
    clear_capture_timeout (if faceDetectedRef s then face_lost s else s)
  else s.

Definition detection_cleanup (s : Screen) : Screen := clear_capture_timeout s.

(** React commits after every block: the camera view is mounted exactly
    on the camera screen, and the detection effect follows the flags. *)
Definition commit (s : Screen) : Screen :=
  detection_effect (set_cameraRef (started s && cameraActive s) s).

(** *** The event loop *)

Inductive Event : Type :=
| Tick (now : Z)                                  (* the 1 s interval fires *)
| FaceResult (d : Detection) (now : Z)            (* its checkForFace resolves *)
| Fire (h : nat) (now : Z)                        (* a timeout callback runs *)
| StillResult (h : nat) (d : Detection) (now : Z) (* checkForFace of timeout [h] resolves *)
| Settle (h : nat) (env : CaptureEnv)             (* captureAndSend of timeout [h] settles *)
| Cancel
| Retry
| Start (env : StartEnv)
| AutoStart (g : GeoEnv)
| Cleanup.                                        (* a dependency of the effect changed *)

(** What a run lets an observer see. *)
Inductive Obs : Type :=
| Scheduled (h : nat) (now : Z)    (* the cooldown gate passed at [now]; timeout [h] set *)
| Captured (h : nat) (now : Z)     (* timeout [h] entered captureAndSend at [now] *)
| Reset.                           (* a handler put both timestamps back to 0 *)

Fixpoint remove_task (t : Task) (ts : list Task) : option (list Task) :=
  match ts with
  | [] => None
  | t' :: rest =>
      if bool_decide (t' = t) then Some rest
      else option_map (cons t') (remove_task t rest)
  end.

Definition find_timer (h : nat) (s : Screen) : option Timer :=
  head (filter (fun t => handle t = h) (timers s)).

Definition add_task (t : Task) (s : Screen) : Screen := set_tasks (tasks s ++ [t]) s.

(** The state of the loop: the screen and the time of the last block. *)
Record Machine : Type := {
  screen : Screen;
  clock : Z;
}.

Definition at_time (now : Z) (r : Screen * list Obs) : option (Machine * list Obs) :=
  Some ({| screen := commit (fst r); clock := now |}, snd r).

Definition step (ev : Event) (m : Machine) : option (Machine * list Obs) :=
  let s := screen m in
  match ev with
  | Tick now =>
      if (clock m <=? now) && started s && cameraActive s then
        if isProcessingRef s then at_time now (s, [])
        else if checkForFace_blocked s then at_time now (tick_resume false now s, [])
        else at_time now (add_task TickDetect s, [])
      else None
  | FaceResult d now =>
      if clock m <=? now then
        match remove_task TickDetect (tasks s) with
        | Some ts =>
            let '(detected, s1) := checkForFace_finish d (set_tasks ts s) in
            let s2 := tick_resume detected now s1 in
            at_time now
              (s2, if gate_open detected now s1 then [Scheduled (next_handle s1) now]
                   else [])
        | None => None
        end
      else None
  | Fire h now =>
      match find_timer h s with
      | Some t =>
          if (clock m <=? now) && (set_at t + delay t <=? now) then
            let s1 := clearTimeout h s in
            match action t with
            | RemoveToast toast_id => at_time now (removeToast toast_id s1, [])
            | ClearProcessing => at_time now (clear_processing s1, [])
            | AutoCapture =>
                if checkForFace_blocked s1 then
                  match timeout_resume false now s1 with
                  | inl s2 => at_time now (add_task (Capture h) s2, [Captured h now])
                  | inr s2 => at_time now (s2, [])
                  end
                else at_time now (add_task (TimeoutDetect h) s1, [])
            end
          else None
      | None => None
      end
  | StillResult h d now =>
      if clock m <=? now then
        match remove_task (TimeoutDetect h) (tasks s) with
        | Some ts =>
            let '(stillDetected, s1) := checkForFace_finish d (set_tasks ts s) in
            match timeout_resume stillDetected now s1 with
            | inl s2 => at_time now (add_task (Capture h) s2, [Captured h now])
            | inr s2 => at_time now (s2, [])
            end
        | None => None
        end
      else None
  | Settle h env =>
      if (clock m <=? now_key env) && (now_key env <=? now_id env)
         && (now_id env <=? now_done env) then
        match remove_task (Capture h) (tasks s) with
        | Some ts =>
            at_time (now_done env)
              (timeout_done (captureAndSend_rest (geolocation s) env (set_tasks ts s)), [])
        | None => None
        end
      else None
  | Cancel =>
      if started s && cameraActive s && negb (isProcessing s)
      then at_time (clock m) (handleCancel s, [])
      else None
  | Retry =>
      if started s && negb (cameraActive s)
      then at_time (clock m) (handleRetry s, [Reset])
      else None
  | Start env =>
      if negb (started s) && (clock m <=? start_now_key env)
         && (start_now_key env <=? start_now_id env)
      then at_time (start_now_id env) (handleStart env s, [Reset])
      else None
  | AutoStart g =>
      if negb (started s) then at_time (clock m) (auto_start g s, []) else None
  | Cleanup => at_time (clock m) (detection_cleanup s, [])
  end.

Fixpoint run (evs : list Event) (m : Machine) : option (Machine * list Obs) :=
  match evs with
  | [] => Some (m, [])
  | ev :: rest =>
      match step ev m with
      | Some (m1, o1) =>
          match run rest m1 with
          | Some (m2, o2) => Some (m2, o1 ++ o2)
          | None => None
          end
      | None => None
      end
  end.

(** The screen as the component mounts it (lines 42-60), camera
    permission granted. *)
Definition initial : Screen :=
  {| cameraRef := false; locationPermission := None; isProcessing := false;
     toasts := []; started := false; cameraActive := false; faceDetected := false;
     stoppedState := idle; geolocation := None; geoError := None;
     isProcessingRef := false; faceDetectedRef := false;
     lastCaptureTimeRef := 0; nextAllowedCaptureAtRef := 0;
     captureTimeoutRef := None; lastToastTimeRef := ∅;
     timers := []; next_handle := 1%nat; requests := []; spoken := []; tasks := [] |}.

Definition boot (t0 : Z) : Machine := {| screen := initial; clock := t0 |}.

End Loop.

(* ================================================================== *)
(** ** The tap-to-capture attendance screen (unnamed/part_000) *)
(* ================================================================== *)

Module Manual.
Import Attendance.

Inductive Call : Type :=
| PostAttendance (r : Request)      (* markAttendance *)
| GetSummary.                       (* getTodayAttendanceSummary *)

Record Toast : Type := {
  t_id : string;
  t_message : json;
  t_type : ToastType;
  t_photo : option string;
  t_employee : option json;
  t_checkin : option string;
  t_checkout : option string;
}.

Record Screen : Type := {
  cameraRef : bool;
  isProcessing : bool;
  toasts : list Toast;
  removals : list (string * Z);     (* setTimeout(() => removeToast(id), delay) *)
  calls : list Call;                (* network calls, oldest first *)
  summaryData : option json;
  loadingSummary : bool;
}.

Definition set_isProcessing (v : bool) (s : Screen) : Screen :=
  {| cameraRef := cameraRef s; isProcessing := v; toasts := toasts s;
     removals := removals s; calls := calls s; summaryData := summaryData s;
     loadingSummary := loadingSummary s |}.

Definition set_loadingSummary (v : bool) (s : Screen) : Screen :=
  {| cameraRef := cameraRef s; isProcessing := isProcessing s; toasts := toasts s;
     removals := removals s; calls := calls s; summaryData := summaryData s;
     loadingSummary := v |}.

Definition set_summaryData (v : option json) (s : Screen) : Screen :=
  {| cameraRef := cameraRef s; isProcessing := isProcessing s; toasts := toasts s;
     removals := removals s; calls := calls s; summaryData := v;
     loadingSummary := loadingSummary s |}.

Definition add_call (c : Call) (s : Screen) : Screen :=
  {| cameraRef := cameraRef s; isProcessing := isProcessing s; toasts := toasts s;
     removals := removals s; calls := calls s ++ [c]; summaryData := summaryData s;
     loadingSummary := loadingSummary s |}.

(** Lines 114-122. *)
Definition showToast (now : Z) (msg : json) (ty : ToastType)
    (photo : option string) (employee : option json) (checkin checkout : option string)
    (s : Screen) : Screen :=
  let toast_id := pretty now in
  {| cameraRef := cameraRef s; isProcessing := isProcessing s;
     toasts := toasts s ++ [{| t_id := toast_id; t_message := msg; t_type := ty;
                               t_photo := photo; t_employee := employee;
                               t_checkin := checkin; t_checkout := checkout |}];
     removals := removals s ++ [(toast_id, 4000)];
     calls := calls s; summaryData := summaryData s;
     loadingSummary := loadingSummary s |}.

Definition or3 (a b c : option json) : option json := or_else (or_else a b) c.

(** What one tap meets.  [locale_time] is [toLocaleTimeString] applied to
    today at the hour and minute read from the text. *)
Record Env : Type := {
  picture : completion (option Photo);
  answer : completion Response;           (* markAttendance *)
  details : completion Response;          (* the GET inside fetchAttendanceDetails *)
  summary : completion Response;          (* the GET inside loadAttendanceSummary *)
  locale_time : string -> string;
  now_toast : Z;
  now_summary_toast : Z;
}.

Definition err_data (e : JsError) : option json :=
  match response e with Some r => Js.data r | None => None end.

(** Lines 95-112. *)
Definition loadAttendanceSummary (env : Env) (s : Screen) : Screen :=
  let s1 := add_call GetSummary (set_loadingSummary true s) in
  let s2 :=
    match summary env with
    | Return resp => set_summaryData (Js.data resp) s1
    | Throw e =>
        let msg :=
          or_else (or3 (opt_prop "detail" (err_data e)) (opt_prop "message" (err_data e))
                       (opt_prop "error" (err_data e)))
                  (or_else (option_map JStr (Js.message e))
                           (Some (JStr "Failed to load attendance summary"))) in
        showToast (now_summary_toast env) (match msg with Some m => m | None => JNull end)
          error None None None None s1
    end in
  set_loadingSummary false s2.

Definition contains (needle hay : string) : bool :=
  bool_decide (is_Some (String.index 0 needle hay)).

Definition lower_char (c : ascii) : ascii :=
  let n := nat_of_ascii c in
  if (Nat.leb 65 n) && (Nat.leb n 90) then ascii_of_nat (n + 32) else c.

Fixpoint toLowerCase (t : string) : string :=
  match t with
  | EmptyString => EmptyString
  | String c rest => String (lower_char c) (toLowerCase rest)
  end.

(** Lines 176-193.  A truthy value without [indexOf] makes the call throw. *)
Definition formatTime (env : Env) (t : option json) : completion (option string) :=
  match t with
  | None => Return None
  | Some v =>
      if negb (truthy v) then Return None
      else match v with
           | JStr text =>
               if contains ":" text then Return (Some (locale_time env text))
               else Return (Some text)
           | JArr _ => Return (Some (to_string v))
           | _ => Throw (Build_JsError (Some "t.indexOf is not a function") None)
           end
  end.

(** The callback of [list.find] at lines 166-169; [None]: it threw. *)
Definition row_matches (empName : json) (row : json) : option bool :=
  match row with
  | JNull => None
  | _ =>
      let names := map to_string
                     (omap (fun v => if truthy_opt v then v else None)
                           [prop "employee_name" row; prop "employee" row; prop "name" row]) in
      Some (existsb (String.eqb (to_string empName)) names)
  end.

Fixpoint find_row (empName : json) (rows : list json) : option (option json) :=
  match rows with
  | [] => Some None
  | row :: rest =>
      match row_matches empName row with
      | None => None
      | Some true => Some (Some row)
      | Some false => find_row empName rest
      end
  end.

(** Lines 161-174, after the caller checked that [empName] is truthy. *)
Definition fetchAttendanceDetails (env : Env) (empName : json) (s : Screen)
  : option json * Screen :=
  let s1 := add_call GetSummary s in
  match details env with
  | Throw _ => (None, s1)
  | Return r =>
      let list := match Js.data r with Some (JArr rows) => rows | _ => [] end in
      match find_row empName list with
      | Some (Some found) => (if truthy found then Some found else None, s1)
      | _ => (None, s1)
      end
  end.

Definition already (payload : json) : bool :=
  match prop "status" payload with
  | Some (JStr st) => negb (String.eqb st "") && contains "already" (toLowerCase st)
  | _ => false
  end.

(** Lines 152-216: after the server answered. *)
Definition handleCapture_answered (env : Env) (photo : Photo) (res : Response)
    (s : Screen) : completion unit * Screen :=
  let payload := match Js.data res with
                 | Some d => if truthy d then d else JObj []
                 | None => JObj []
                 end in
  let attendance := match or_else (prop "attendance" payload) (Some payload) with
                    | Some a => a
                    | None => payload
                    end in
  let checkin := or_else (or3 (opt_prop "checkin_time" (Some attendance))
                              (opt_prop "checkin" (Some attendance))
                              (prop "checkin" payload))
                         (prop "checkin_time" payload) in
  let checkout := or_else (or3 (opt_prop "checkout_time" (Some attendance))
                               (opt_prop "checkout" (Some attendance))
                               (prop "checkout" payload))
                          (prop "checkout_time" payload) in
  let employee := or_else (or3 (opt_prop "employee_name" (Some attendance))
                               (opt_prop "employee" (Some attendance))
                               (prop "employee_name" payload))
                          (prop "employee" payload) in
  let '(checkin, checkout, s1) :=
    if negb (truthy_opt checkin) && negb (truthy_opt checkout) && truthy_opt employee then
      match fetchAttendanceDetails env (match employee with Some e => e | None => JNull end) s with
      | (Some d, s1) =>
          (or3 (prop "checkin" d) (prop "checkin_time" d) checkin,
           or3 (prop "checkout" d) (prop "checkout_time" d) checkout, s1)
      | (None, s1) => (checkin, checkout, s1)
      end
    else (checkin, checkout, s) in
  match formatTime env checkin with
  | Throw e => (Throw e, s1)
  | Return formattedCheckin =>
      match formatTime env checkout with
      | Throw e => (Throw e, s1)
      | Return formattedCheckout =>
          let s2 := showToast (now_toast env)
                      (if already payload then JStr "Attendance already recorded"
                       else JStr "Attendance marked successfully!")
                      (if already payload then info else success)
                      (Some (uri photo)) employee formattedCheckin formattedCheckout s1 in
          (Return tt, loadAttendanceSummary env s2)
      end
  end.

(** Lines 217-222. *)
Definition handleCapture_catch (env : Env) (e : JsError) (s : Screen) : Screen :=
  let msg := or3 (opt_prop "detail" (err_data e)) (opt_prop "error" (err_data e))
                 (Some (JStr "Failed to mark attendance")) in
  showToast (now_toast env) (match msg with Some m => m | None => JNull end)
    error None None None None s.

(** Lines 144-149. *)
Definition capture_form (photo : Photo) : FormData :=
  append "image" (FFile (uri photo) "image/jpeg" "attendance.jpg") [].

(** Lines 128-226. *)
Definition handleCapture (env : Env) (s : Screen) : Screen :=
  if isProcessing s || negb (cameraRef s) then s
  else
    let s1 := set_isProcessing true s in
    let s2 :=
      match picture env with
      | Throw e => handleCapture_catch env e s1
      | Return None =>
          set_isProcessing false
            (showToast (now_toast env) (JStr "Failed to capture photo") error
               None None None None s1)
      | Return (Some photo) =>
          let s2 := add_call (PostAttendance (markAttendance (capture_form photo))) s1 in
          match answer env with
          | Throw e => handleCapture_catch env e s2
          | Return res =>
              match handleCapture_answered env photo res s2 with
              | (Return _, s3) => s3
              | (Throw e, s3) => handleCapture_catch env e s3
              end
          end
      end in
    set_isProcessing false s2.

Definition posts (s : Screen) : list Request :=
  omap (fun c => match c with PostAttendance r => Some r | GetSummary => None end) (calls s).

End Manual.

(* ================================================================== *)
(** ** config/apiConfig (unnamed/part_000, lines 13-23) *)
(* ================================================================== *)

Module ApiConfig.

Definition DEFAULT_PROD_URL : string := "https://apigatekeeper.cloudgentechnologies.com/api".

(** [s.replace(/\/$/, '')]: a slash at the very end is dropped, once. *)
Fixpoint strip_trailing_slash (s : string) : string :=
  match s with
  | EmptyString => EmptyString
  | String c EmptyString => if Ascii.eqb c "/"%char then EmptyString else s
  | String c rest => String c (strip_trailing_slash rest)
  end.

(** [env] is [process.env.EXPO_PUBLIC_API_BASE], when it is defined. *)
Definition API_BASE_URL (env : option string) : string :=
  strip_trailing_slash
    (match env with
     | Some base => if String.eqb base "" then DEFAULT_PROD_URL else base
     | None => DEFAULT_PROD_URL
     end).

End ApiConfig.

(* ================================================================== *)
(** ** The employee API (api/locationApi.ts, lines 20-95): registerEmployee *)
(* ================================================================== *)

Module EmployeeApi.
Import Session.

(** What [fetch] is called with. *)
Record FetchCall : Type := {
  fetch_url : string;
  fetch_method : string;
  fetch_headers : option (gmap string string);
  fetch_body : FormData;
}.

(** What [fetch] resolves with: [res.ok], [res.status], and how
    [res.json()] and [res.text()] settle. *)
Record FetchResponse : Type := {
  res_ok : bool;
  res_status : Z;
  res_json : completion json;
  res_text : completion string;
}.

(** Lines 57-67. *)
Definition read_body (res : FetchResponse) : json :=
  match res_json res with
  | Return d => d
  | Throw _ =>
      match res_text res with
      | Return text => JObj [("_rawText", JStr text)]
      | Throw _ => JNull
      end
  end.

(** Lines 50-54: the call, given the stored record. *)
Definition register_call (base : string) (auth : json) (formData : FormData) : FetchCall :=
  let token := opt_prop "token" (Some auth) in
  {| fetch_url := base +:+ "/register/";
     fetch_method := "POST";
     fetch_headers := if truthy_opt token
                      then Some {[ "Authorization" := "Token " +:+ to_string_opt token ]}
                      else None;
     fetch_body := formData |}.

(** Lines 78-83: the outer [catch]. *)
Definition register_rethrow (e : JsError) : JsError :=
  match response e with
  | Some _ => e
  | None =>
      {| Js.message := Some (match Js.message e with
                             | Some m => if String.eqb m "" then "Network Error" else m
                             | None => "Network Error"
                             end);
         response := None |}
  end.

(** Lines 32-84.  [fetch] answers the call it is given; a resolved call
    is [{data, status}]. *)
Definition registerEmployee (J : JsonCodec) (base : string) (formData : FormData)
    (fetch : FetchCall -> completion FetchResponse) : Async Response :=
  auth ← getAuthData J;
  match fetch (register_call base auth formData) with
  | Return res =>
      let result := {| status := res_status res; data := Some (read_body res) |} in
      if res_ok res then ret result
      else throw (register_rethrow
                    {| Js.message := Some "Request failed"; response := Some result |})
  | Throw e => throw (register_rethrow e)
  end.

End EmployeeApi.

(* ================================================================== *)
(** ** contexts/AuthContext.tsx: the provider *)
(* ================================================================== *)

Module AuthContext.
Import Session.

(** The state of the provider, with [httpClient.defaults.headers] beside
    it.  [auth] is [null] at mount. *)
Record Provider : Type := {
  auth : json;
  loading : bool;
  defaults_headers : option (gmap string string);
}.

Definition set_auth (v : json) (p : Provider) : Provider :=
  {| auth := v; loading := loading p; defaults_headers := defaults_headers p |}.

Definition set_loading (v : bool) (p : Provider) : Provider :=
  {| auth := auth p; loading := v; defaults_headers := defaults_headers p |}.

Definition set_defaults (h : option (gmap string string)) (p : Provider) : Provider :=
  {| auth := auth p; loading := loading p; defaults_headers := h |}.

(** Lines 57-60 and 76-79. *)
Definition set_token_headers (token : option json) (p : Provider) : Provider :=
  let tokenValue := "Token " +:+ to_string_opt token in
  let h := match defaults_headers p with Some h => h | None => ∅ end in
  set_defaults (Some (<["authorization" := tokenValue]> (<["Authorization" := tokenValue]> h))) p.

(** Lines 25-34. *)
Definition initAuth (J : JsonCodec) (p : Provider) : Async Provider :=
  p1 ← try_catch (authData ← getAuthData J; ret (set_auth authData p)) (fun _ => ret p);
  ret (set_loading false p1).

(** Lines 41-48: the write and the read-back, errors swallowed. *)
Definition login_store (J : JsonCodec) (data : json) : Async unit :=
  try_catch
    (setAuthData J data;;
     try_catch (stored ← getAuthData J; ret tt) (fun _ => ret tt))
    (fun _ => ret tt).

(** Lines 39-66. *)
Definition login (J : JsonCodec) (data : json) (p : Provider) : Async Provider :=
  login_store J data;;
  let p1 := set_auth data p in
  let token := opt_prop "token" (Some data) in
  ret (if truthy_opt token then set_token_headers token p1 else p1).

(** Lines 68-71. *)
Definition logout (p : Provider) : Async Provider :=
  clearAuthData;;
  ret (set_auth JNull p).

(** Lines 74-86: the effect that follows [auth]. *)
Definition sync_headers (p : Provider) : Provider :=
  let token := opt_prop "token" (Some (auth p)) in
  if truthy_opt token then set_token_headers token p
  else
    match defaults_headers p with
    | Some h => set_defaults (Some (delete "authorization" (delete "Authorization" h))) p
    | None => p
    end.

(** The function of lines 90-92, as the http client knows it. *)
Definition auth_hook : Callback := 1%nat.

(** What the hook does when it is called: [setAuth(null)]. *)
Definition on_hook (p : Provider) : Provider := set_auth JNull p.

(** The provider as first rendered; the client is created with one
    default header (httpClient.ts, lines 5-10). *)
Definition initial : Provider :=
  {| auth := JNull; loading := true;
     defaults_headers := Some {[ "X-Requested-With" := "XMLHttpRequest" ]} |}.

(** The three mount effects, then the effect of lines 74-86 again once
    [initAuth] has set the state. *)
Definition mount (J : JsonCodec) : Async Provider :=
  HttpClient.registerLogoutCallback auth_hook;;
  p ← initAuth J (sync_headers initial);
  ret (sync_headers p).

(** A step of the http client under the provider: every call of the
    registered hook the step made is applied, then the effect runs. *)
Definition under_provider {A : Type} (m : Async A) (p : Provider) (w : World)
  : completion A * World * Provider :=
  let r := m w in
  let made := drop (length (called w)) (called (snd r)) in
  (r, if existsb (Nat.eqb auth_hook) made then sync_headers (on_hook p) else p).

(** Lines 95-109: the derived values. *)
Definition isAuthenticated (p : Provider) : bool :=
  truthy_opt (opt_prop "token" (Some (auth p))).

(** [auth?.location_id ?? auth?.location] *)
Definition locationId (p : Provider) : option json :=
  match opt_prop "location_id" (Some (auth p)) with
  | Some JNull | None => opt_prop "location" (Some (auth p))
  | Some v => Some v
  end.

End AuthContext.

(* ================================================================== *)
(** * Vocabulary of the statements and sample data *)
(* ================================================================== *)

Section Vocabulary.
Import Attendance Loop.

(** What "the stored record has a non-empty token" says of a record. *)
Definition has_nonempty_token (fields : list (string * json)) : Prop :=
  exists t, assoc "token" fields = Some (JStr t) /\ t <> "".

(** The [token?: string] of [AuthData]: absent, or a string. *)
Definition token_typed (fields : list (string * json)) : Prop :=
  assoc "token" fields = None \/ exists t, assoc "token" fields = Some (JStr t).

Definition empty_world : World :=
  {| storage := ∅; logoutCallback := None; called := [] |}.

Definition sample_auth : list (string * json) :=
  [("token", JStr "t0k"); ("name", JStr "Asha"); ("role", JStr "admin");
   ("location_id", JNum 7)].

Definition unauthorized : JsError :=
  {| Js.message := Some "Request failed with status code 401";
     response := Some {| status := 401; data := None |} |}.

Definition signed_in_world : World :=
  {| storage := {[ "trueface_auth" := MiniJson.stringify (JObj sample_auth) ]};
     logoutCallback := Some 1%nat; called := [] |}.

Definition bare_request : HttpClient.Config :=
  {| HttpClient.headers := Some {[ "Content-Type" := "multipart/form-data" ]};
     HttpClient.method := Some "post"; HttpClient.url := Some "/attendance/" |}.

Definition toast_a : Attendance.ToastMessage :=
  Attendance.mkToast "1700000000100" (JStr "first") Attendance.info Attendance.no_opts.
Definition toast_b : Attendance.ToastMessage :=
  Attendance.mkToast "1700000000200" (JStr "second") Attendance.error Attendance.no_opts.
Definition toast_c : Attendance.ToastMessage :=
  Attendance.mkToast "1700000000300" (JStr "third") Attendance.success Attendance.no_opts.

(** The location a run works with: the one already known, else the one
    fetched. *)
Definition located (env : CaptureEnv) (s : Screen) : completion (option GeoLocation) :=
  match geolocation s with
  | Some g => Return (Some g)
  | None => fst (fetchGeolocation (geo env) s)
  end.

Definition office : Attendance.GeoLocation :=
  {| Attendance.latitude := 12.971599%Q; Attendance.longitude := 77.594566%Q;
     Attendance.accuracy := 14.6%Q |}.

Definition selfie : Attendance.Photo := {| Attendance.uri := "file:///cache/Camera/1.jpg" |}.

Definition camera_screen : Attendance.Screen :=
  Attendance.set_geolocation (Some office)
    (Attendance.set_cameraRef true
       (Attendance.set_cameraActive true (Attendance.set_started true Loop.initial))).

Definition silent_geo : Attendance.GeoEnv :=
  {| Attendance.requestForegroundPermissions := Return Attendance.denied;
     Attendance.getCurrentPosition :=
       Throw {| Js.message := Some "Location unavailable"; response := None |};
     Attendance.getForegroundPermissions := Return Attendance.denied |}.

Definition rejected_with (e : JsError) (t : Z) : Attendance.CaptureEnv :=
  {| Attendance.now_enter := t; Attendance.geo := silent_geo;
     Attendance.picture := Return (Some selfie);
     Attendance.answer := Throw e;
     Attendance.now_key := t + 500; Attendance.now_id := t + 500;
     Attendance.now_done := t + 500 |}.

Definition not_recognized : JsError :=
  {| Js.message := Some "Request failed with status code 400";
     response := Some {| status := 400;
                         data := Some (JObj [("error", JStr "Face not recognized")]) |} |}.

Definition server_error (st : Z) (body : json) : JsError :=
  {| Js.message := Some "Request failed"; response := Some {| status := st; data := Some body |} |}.

(** The requests one run of [captureAndSend] makes once past its guard. *)
Definition sent (env : CaptureEnv) (s : Screen) : list Request :=
  match located env s, picture env with
  | Return (Some g), Return (Some photo) => [markAttendance (attendance_form photo g)]
  | _, _ => []
  end.

(** The requests one tap makes once past its guard. *)
Definition tapped (env : Manual.Env) : list Request :=
  match Manual.picture env with
  | Return (Some photo) => [markAttendance (Manual.capture_form photo)]
  | _ => []
  end.

Definition marked_ok : Response :=
  {| status := 200;
     data := Some (JObj [("status", JStr "Checked in");
                         ("message", JStr "Attendance marked for Asha");
                         ("employee", JStr "Asha"); ("confidence", JNum 97);
                         ("checkin_time", JStr "09:02")]) |}.

Definition tap_env : Manual.Env :=
  {| Manual.picture := Return (Some selfie);
     Manual.answer := Return marked_ok;
     Manual.details := Return {| status := 200; data := Some (JArr []) |};
     Manual.summary := Return {| status := 200; data := Some (JArr []) |};
     Manual.locale_time := fun t => t;
     Manual.now_toast := 1700000000900;
     Manual.now_summary_toast := 1700000001200 |}.

Definition tap_screen : Manual.Screen :=
  {| Manual.cameraRef := true; Manual.isProcessing := false; Manual.toasts := [];
     Manual.removals := []; Manual.calls := []; Manual.summaryData := None;
     Manual.loadingSummary := false |}.

Definition answered_with (resp : Response) (t : Z) : Attendance.CaptureEnv :=
  {| Attendance.now_enter := t; Attendance.geo := silent_geo;
     Attendance.picture := Return (Some selfie);
     Attendance.answer := Return resp;
     Attendance.now_key := t + 500; Attendance.now_id := t + 500;
     Attendance.now_done := t + 500 |}.

(** From [s] to [s']: no new suspended timeout check, handles only grow,
    and every timer of [s'] was there in [s], or is one of [extra], or is a
    fresh one that is not a capture timeout. *)
Definition evolves (extra : list Timer) (s s' : Screen) : Prop :=
  (forall h, TimeoutDetect h ∈ tasks s' -> TimeoutDetect h ∈ tasks s)
  /\ (next_handle s <= next_handle s')%nat
  /\ (forall t, t ∈ timers s' ->
        t ∈ timers s \/ t ∈ extra
        \/ ((next_handle s <= handle t)%nat /\ (handle t < next_handle s')%nat
            /\ action t <> AutoCapture)).









Definition steady_geo : Attendance.GeoEnv :=
  {| Attendance.requestForegroundPermissions := Return Attendance.granted;
     Attendance.getCurrentPosition :=
       Return {| Attendance.c_latitude := 12.971599%Q;
                 Attendance.c_longitude := 77.594566%Q;
                 Attendance.c_accuracy := Some 14.6%Q |};
     Attendance.getForegroundPermissions := Return Attendance.granted |}.


Definition is_capture (t : Task) : bool :=
  match t with Capture _ => true | _ => false end.

Definition is_clear (t : Timer) : bool :=
  match action t with ClearProcessing => true | _ => false end.

(** The runs of [captureAndSend] that have not settled. *)
Definition captures (s : Screen) : list Task :=
  filter (fun t => is_capture t = true) (tasks s).

(** The pending timeouts that will clear the processing flags. *)
Definition clearers (s : Screen) : list Timer :=
  filter (fun t => is_clear t = true) (timers s).

Definition pending (s : Screen) : nat := (length (captures s) + length (clearers s))%nat.

Record Inv5 (s : Screen) : Prop := {
  f_flags : isProcessing s = isProcessingRef s;
  f_camera : cameraRef s = started s && cameraActive s;
  f_one : (pending s <= 1)%nat;
  f_busy : pending s = 1%nat ->
           isProcessingRef s = true /\ started s = true /\ cameraActive s = true;
}.

(** A block that leaves the flags and the unsettled captures alone and adds
    no clearing timeout. *)
Definition still (s s' : Screen) : Prop :=
  isProcessing s' = isProcessing s /\ isProcessingRef s' = isProcessingRef s
  /\ started s' = started s /\ cameraActive s' = cameraActive s
  /\ captures s' = captures s
  /\ (length (clearers s') <= length (clearers s))%nat.

(** How a run of [captureAndSend] leaves the flags once it has settled:
    cleared, or still set with one more clearing timeout pending. *)
Definition outcome (s s' : Screen) : Prop :=
  captures s' = captures s
  /\ ((isProcessingRef s' = false /\ isProcessing s' = false
       /\ (length (clearers s') <= length (clearers s))%nat)
      \/ (isProcessingRef s' = isProcessingRef s /\ isProcessing s' = isProcessing s
          /\ started s' = started s /\ cameraActive s' = cameraActive s
          /\ (length (clearers s') <= S (length (clearers s)))%nat)).

(** [Inv5] before the commit: the camera ref is not yet in step. *)
Record Pre5 (s : Screen) : Prop := {
  p_flags : isProcessing s = isProcessingRef s;
  p_one : (pending s <= 1)%nat;
  p_busy : pending s = 1%nat ->
           isProcessingRef s = true /\ started s = true /\ cameraActive s = true;
}.

(** Like [still], but the camera flags may move. *)
Definition mild (s s' : Screen) : Prop :=
  isProcessing s' = isProcessing s /\ isProcessingRef s' = isProcessingRef s
  /\ captures s' = captures s
  /\ (length (clearers s') <= length (clearers s))%nat.


(** Two timeouts alive at once: the second was scheduled before the capture
    of the first began, so the gate never saw that capture. *)
Definition overlapping_trace : list Loop.Event :=
  [Loop.AutoStart steady_geo;
   Loop.Tick 1700000001000; Loop.FaceResult (Loop.Faces 1) 1700000001300;
   Loop.Fire 1 1700000003300;
   Loop.Tick 1700000004000; Loop.FaceResult (Loop.Faces 0) 1700000004200;
   Loop.Tick 1700000005000; Loop.FaceResult (Loop.Faces 1) 1700000005200;
   Loop.StillResult 1 (Loop.Faces 1) 1700000005400;
   Loop.Settle 1 (answered_with marked_ok 1700000005400);
   Loop.Fire 2 1700000007200; Loop.StillResult 2 (Loop.Faces 1) 1700000007500].

End Vocabulary.

(** ** Further vocabulary and sample data *)


Definition signed_in_provider : AuthContext.Provider :=
  AuthContext.set_token_headers (Some (JStr "t0k"))
    (AuthContext.set_loading false
       (AuthContext.set_auth (JObj sample_auth) AuthContext.initial)).

(** A run that stops while a capture is being submitted. *)
Definition submitting_trace : list Loop.Event :=
  [Loop.AutoStart steady_geo;
   Loop.Tick 1700000001000; Loop.FaceResult (Loop.Faces 1) 1700000001300;
   Loop.Fire 1 1700000003300; Loop.StillResult 1 (Loop.Faces 1) 1700000003600].





(** The removals the toasts of a tap are scheduled for. *)
Definition expiries (shown : list Manual.Toast) : list (string * Z) :=
  map (fun t => (Manual.t_id t, 4000)) shown.

(** Every toast on the screen has a pending timeout that removes its id,
    set with 5000 ms no later than [c]; handles are fresh and name one
    action; the capture-timeout ref names a capture timeout. *)
Record Expiry (c : Z) (s : Attendance.Screen) : Prop := {
  x_toast : forall t, t ∈ Attendance.toasts s ->
            exists tm, tm ∈ Attendance.timers s
                       /\ Attendance.action tm = Attendance.RemoveToast (Attendance.id t)
                       /\ Attendance.delay tm = 5000 /\ Attendance.set_at tm <= c;
  x_fresh : forall tm, tm ∈ Attendance.timers s ->
            (Attendance.handle tm < Attendance.next_handle s)%nat;
  x_unique : forall a b, a ∈ Attendance.timers s -> b ∈ Attendance.timers s ->
             Attendance.handle a = Attendance.handle b ->
             Attendance.action a = Attendance.action b;
  x_ref : forall h, Attendance.captureTimeoutRef s = Some h ->
          (h < Attendance.next_handle s)%nat
          /\ forall tm, tm ∈ Attendance.timers s -> Attendance.handle tm = h ->
                        Attendance.action tm = Attendance.AutoCapture;
}.


(** A run that stops right after a capture was answered. *)
Definition answered_trace : list Loop.Event :=
  [Loop.AutoStart steady_geo;
   Loop.Tick 1700000001000; Loop.FaceResult (Loop.Faces 1) 1700000001300;
   Loop.Fire 1 1700000003300; Loop.StillResult 1 (Loop.Faces 1) 1700000003600;
   Loop.Settle 1 (answered_with marked_ok 1700000003600)].

(* ================================================================== *)
(** * Properties *)
(* ================================================================== *)

(** ** The auth blob *)

(** Unfold one layer of the storage monad. *)
Ltac async_unfold :=
  cbv beta iota zeta delta
    [Session.getAuthData Session.legacy_scan Session.LEGACY_AUTH_KEYS
     Session.AUTH_STORAGE_KEY mbind async_bind bind try_catch getItem ret throw
     truthy_str negb JSON_parse_or_throw].

Ltac store_unfold :=
  cbv beta iota zeta delta
    [Session.setAuthData Session.clearAuthData Session.LEGACY_AUTH_KEYS
     Session.AUTH_STORAGE_KEY for_each removeItem setItem mbind async_bind bind ret
     truthy negb snd with_storage storage].

Section SessionFacts.
Import Session.
Variable J : JsonCodec.

Lemma nonempty_eqb (text : string) : text <> "" -> String.eqb text "" = false.
Proof. intros H. apply String.eqb_neq. exact H. Qed.

(** The four ways a read of the store can go, by what the key holds. *)
Lemma getAuthData_absent (w : World) :
  storage w !! AUTH_STORAGE_KEY = None ->
  getAuthData J w = (Return JNull, w).
Proof.
  intros H. unfold AUTH_STORAGE_KEY in H.
  repeat (async_unfold; rewrite ?H). reflexivity.
Qed.

Lemma getAuthData_empty (w : World) :
  storage w !! AUTH_STORAGE_KEY = Some "" ->
  getAuthData J w = (Return JNull, w).
Proof.
  intros H. unfold AUTH_STORAGE_KEY in H.
  repeat (async_unfold; rewrite ?H; cbn [String.eqb]). reflexivity.
Qed.

Lemma getAuthData_parsed (w : World) (text : string) (v : json) :
  storage w !! AUTH_STORAGE_KEY = Some text -> text <> "" ->
  JSON_parse J text = Some v ->
  getAuthData J w = (Return v, w).
Proof.
  intros H Hne Hp. unfold AUTH_STORAGE_KEY in H. apply nonempty_eqb in Hne.
  repeat (async_unfold; rewrite ?H, ?Hne, ?Hp). reflexivity.
Qed.

Lemma getAuthData_corrupt (w : World) (text : string) :
  storage w !! AUTH_STORAGE_KEY = Some text -> text <> "" ->
  JSON_parse J text = None ->
  getAuthData J w = (Return JNull, with_storage (delete AUTH_STORAGE_KEY) w).
Proof.
  intros H Hne Hp. unfold AUTH_STORAGE_KEY in H. apply nonempty_eqb in Hne.
  repeat (async_unfold; rewrite ?H, ?Hne, ?Hp). reflexivity.
Qed.

(** Reading never throws, whatever the key holds. *)
Lemma getAuthData_cases (w : World) :
  (exists v, getAuthData J w = (Return v, w))
  \/ getAuthData J w = (Return JNull, with_storage (delete AUTH_STORAGE_KEY) w).
Proof.
  destruct (storage w !! AUTH_STORAGE_KEY) as [text|] eqn:H.
  - destruct (decide (text = "")) as [->|Hne].
    + left. exists JNull. apply getAuthData_empty. exact H.
    + destruct (JSON_parse J text) as [v|] eqn:Hp.
      * left. exists v. eapply getAuthData_parsed; eauto.
      * right. eapply getAuthData_corrupt; eauto.
  - left. exists JNull. apply getAuthData_absent. exact H.
Qed.

Lemma setAuthData_object_storage (fields : list (string * json)) (w : World) :
  storage (snd (setAuthData J (JObj fields) w))
  = <[AUTH_STORAGE_KEY := JSON_stringify J (JObj fields)]> (storage w).
Proof. reflexivity. Qed.

Lemma setAuthData_null_storage (w : World) :
  storage (snd (setAuthData J JNull w)) !! AUTH_STORAGE_KEY = None.
Proof. store_unfold. rewrite !lookup_delete_eq. reflexivity. Qed.

Lemma clearAuthData_storage (w : World) :
  storage (snd (clearAuthData w)) !! AUTH_STORAGE_KEY = None.
Proof. store_unfold. rewrite !lookup_delete_eq. reflexivity. Qed.

Lemma clearAuthData_world (w : World) :
  clearAuthData w
  = (Return tt, with_storage (delete AUTH_STORAGE_KEY)
                  (with_storage (delete AUTH_STORAGE_KEY) w)).
Proof. reflexivity. Qed.

End SessionFacts.

Lemma isAuthenticated_parsed (J : JsonCodec) (w : World) (text : string)
    (fields : list (string * json)) :
  storage w !! Session.AUTH_STORAGE_KEY = Some text -> text <> "" ->
  JSON_parse J text = Some (JObj fields) ->
  token_typed fields ->
  exists b, fst (Session.isAuthenticated J w) = Return b
            /\ (b = true <-> has_nonempty_token fields).
Proof.
  intros H Hne Hp Hty.
  unfold Session.isAuthenticated, mbind, async_bind, bind.
  rewrite (getAuthData_parsed J w text (JObj fields) H Hne Hp).
  cbn [fst ret opt_prop prop]. eexists; split; [reflexivity|].
  unfold has_nonempty_token. destruct Hty as [Hn | [t Ht]].
  - rewrite Hn. cbn. split; [discriminate|]. intros [t [? _]]. discriminate.
  - rewrite Ht. cbn. split.
    + intros Hb. exists t. split; [reflexivity|]. intros ->. discriminate.
    + intros [t' [Heq Hnz]]. inversion Heq; subst t'.
      rewrite (nonempty_eqb _ Hnz). reflexivity.
Qed.


(** C8.  For every codec and every auth record [a] (a JSON object) that
    [JSON.parse] reads back from its [JSON.stringify] text: [getAuthData]
    right after [setAuthData(a)] returns [a]; after [setAuthData(null)] and
    after [clearAuthData] it returns [null]; and on a store whose key holds a
    record with a typed token, [isAuthenticated] answers [true] exactly when
    that token is a non-empty string, and [false] on an empty store. *)
Theorem auth_blob_round_trip (J : JsonCodec) (w : World) :
  (forall fields,
      JSON_parse J (JSON_stringify J (JObj fields)) = Some (JObj fields) ->
      JSON_stringify J (JObj fields) <> "" ->
      fst (Session.getAuthData J (snd (Session.setAuthData J (JObj fields) w)))
      = Return (JObj fields))
  /\ fst (Session.getAuthData J (snd (Session.setAuthData J JNull w))) = Return JNull
  /\ fst (Session.getAuthData J (snd (Session.clearAuthData w))) = Return JNull
  /\ (forall text fields,
        storage w !! Session.AUTH_STORAGE_KEY = Some text -> text <> "" ->
        JSON_parse J text = Some (JObj fields) -> token_typed fields ->
        exists b, fst (Session.isAuthenticated J w) = Return b
                  /\ (b = true <-> has_nonempty_token fields))
  /\ (storage w !! Session.AUTH_STORAGE_KEY = None ->
      fst (Session.isAuthenticated J w) = Return false).
Proof.
  split; [|split; [|split; [|split]]].
  - intros fields Hrt Hne.
    erewrite getAuthData_parsed; [reflexivity| |exact Hne|exact Hrt].
    rewrite setAuthData_object_storage. apply lookup_insert_eq.
  - rewrite getAuthData_absent; [reflexivity|]. apply setAuthData_null_storage.
  - rewrite getAuthData_absent; [reflexivity|]. apply clearAuthData_storage.
  - intros text fields. apply isAuthenticated_parsed.
  - intros H. unfold Session.isAuthenticated, mbind, async_bind, bind.
    rewrite (getAuthData_absent J w H). reflexivity.
Qed.

Lemma auth_blob_round_trip_witness :
  fst (Session.getAuthData MiniJson.codec
         (snd (Session.setAuthData MiniJson.codec (JObj sample_auth) empty_world)))
  = Return (JObj sample_auth).
Proof.
  apply (proj1 (auth_blob_round_trip MiniJson.codec empty_world) sample_auth).
  - vm_compute. reflexivity.
  - vm_compute. discriminate.
Defined.

(** ** The interceptors *)

Lemma delete_twice (k : string) (m : gmap string string) :
  delete k (delete k m) = delete k m.
Proof. apply delete_id. apply lookup_delete_eq. Qed.

Lemma response_rejected_auth (e : JsError) (r : Response) (w : World) :
  response e = Some r -> status r = 401 \/ status r = 403 ->
  HttpClient.response_rejected e w
  = (Throw e,
     {| storage := delete Session.AUTH_STORAGE_KEY (storage w);
        logoutCallback := logoutCallback w;
        called := called w ++ match logoutCallback w with
                              | Some cb => [cb]
                              | None => []
                              end |}).
Proof.
  intros Hr Hs. unfold HttpClient.response_rejected. rewrite Hr.
  assert (Hb : (status r =? 401) || (status r =? 403) = true).
  { destruct Hs as [-> | ->]; reflexivity. }
  rewrite Hb. unfold mbind, async_bind, bind. rewrite clearAuthData_world.
  unfold HttpClient.call_logoutCallback, with_storage. cbn.
  rewrite delete_twice.
  destruct (logoutCallback w); cbn; [reflexivity|].
  rewrite app_nil_r. reflexivity.
Qed.

Lemma response_rejected_other (e : JsError) (w : World) :
  (forall r, response e = Some r -> status r <> 401 /\ status r <> 403) ->
  HttpClient.response_rejected e w = (Throw e, w).
Proof.
  intros H. unfold HttpClient.response_rejected.
  destruct (response e) as [r|]; [|reflexivity].
  destruct (H r eq_refl) as [H1 H3].
  apply Z.eqb_neq in H1, H3. rewrite H1, H3. reflexivity.
Qed.

(** C2.  The rejection handler of the response interceptor always rejects
    with the error it was given.  When the error carries a response with
    status 401 or 403, the world in which the promise is rejected has the
    auth key removed from storage and, when a logout callback is registered,
    one more call of it recorded (none otherwise); for every other status,
    and for an error without a response, the world is unchanged. *)
Theorem response_interceptor_auth_failure (e : JsError) (w : World) :
  fst (HttpClient.response_rejected e w) = Throw e
  /\ (forall r, response e = Some r -> status r = 401 \/ status r = 403 ->
        let w' := snd (HttpClient.response_rejected e w) in
        storage w' !! Session.AUTH_STORAGE_KEY = None
        /\ storage w' = delete Session.AUTH_STORAGE_KEY (storage w)
        /\ called w' = called w ++ match logoutCallback w with
                                   | Some cb => [cb]
                                   | None => []
                                   end)
  /\ ((forall r, response e = Some r -> status r <> 401 /\ status r <> 403) ->
        snd (HttpClient.response_rejected e w) = w).
Proof.
  split; [|split].
  - unfold HttpClient.response_rejected, mbind, async_bind, bind.
    destruct (response e) as [r|]; [|reflexivity].
    destruct ((status r =? 401) || (status r =? 403)); [|reflexivity].
    rewrite clearAuthData_world. unfold HttpClient.call_logoutCallback.
    cbn. destruct (logoutCallback w); reflexivity.
  - intros r Hr Hs. rewrite (response_rejected_auth e r w Hr Hs). cbn.
    split; [apply lookup_delete_eq|]. split; reflexivity.
  - intros H. rewrite (response_rejected_other e w H). reflexivity.
Qed.

Lemma response_interceptor_auth_failure_witness :
  storage (snd (HttpClient.response_rejected unauthorized signed_in_world))
    !! Session.AUTH_STORAGE_KEY = None
  /\ called (snd (HttpClient.response_rejected unauthorized signed_in_world)) = [1%nat].
Proof.
  destruct (proj1 (proj2 (response_interceptor_auth_failure unauthorized signed_in_world))
              {| status := 401; data := None |} eq_refl (or_introl eq_refl))
    as [H1 [_ H2]].
  split; [exact H1 | exact H2].
Defined.

Lemma request_interceptor_no_token (J : JsonCodec) (config : HttpClient.Config)
    (w w' : World) (auth : json) :
  Session.getAuthData J w = (Return auth, w') ->
  truthy_opt (opt_prop "token" (Some auth)) = false ->
  HttpClient.request_interceptor J config w = (Return config, w').
Proof.
  intros Hg Ht. unfold HttpClient.request_interceptor, mbind, async_bind, bind.
  rewrite Hg, Ht. reflexivity.
Qed.




(** ** Toasts *)

Section ToastFacts.
Import Attendance.

Lemma filter_keeps_all (i : string) (l : list ToastMessage) :
  Forall (fun u => id u <> i) l -> filter (fun t => id t <> i) l = l.
Proof.
  induction 1 as [|u l Hu Hl IH]; [reflexivity|].
  rewrite filter_cons. destruct (decide (id u <> i)); [|contradiction].
  rewrite IH. reflexivity.
Qed.

Lemma removeToast_split (i : string) (s : Screen) (l1 l2 : list ToastMessage)
    (t : ToastMessage) :
  toasts s = l1 ++ t :: l2 -> id t = i ->
  Forall (fun u => id u <> i) (l1 ++ l2) ->
  toasts (removeToast i s) = l1 ++ l2.
Proof.
  intros Hs Ht Hall. apply Forall_app in Hall as [H1 H2].
  unfold removeToast. cbn. rewrite Hs, filter_app, filter_cons.
  destruct (decide (id t <> i)) as [Hne|_]; [contradiction|].
  rewrite (filter_keeps_all i l1 H1), (filter_keeps_all i l2 H2). reflexivity.
Qed.

Lemma showToast_shown (now_key now_id : Z) (msg : json) (ty : ToastType)
    (opts : ToastOpts) (key : option string) (s : Screen) :
  throttled key now_key s = false ->
  toasts (showToast now_key now_id msg ty opts key s)
  = toasts s ++ [mkToast (pretty now_id) msg ty opts]
  /\ timers (showToast now_key now_id msg ty opts key s)
     = timers s ++ [{| handle := next_handle s; delay := 5000; set_at := now_id;
                       action := RemoveToast (pretty now_id) |}].
Proof.
  intros H. unfold showToast. rewrite H.
  destruct key as [k|]; [destruct (String.eqb k "")|]; split; reflexivity.
Qed.

Lemma showToast_throttled (now_key now_id : Z) (msg : json) (ty : ToastType)
    (opts : ToastOpts) (key : option string) (s : Screen) :
  throttled key now_key s = true ->
  showToast now_key now_id msg ty opts key s = s.
Proof. intros H. unfold showToast. rewrite H. reflexivity. Qed.

End ToastFacts.

(** C9.  A call of [showToast] either is throttled and leaves the screen
    as it was, or appends one toast and registers one timeout for it, with
    delay 5000 ms and the removal of that toast's id as its callback.
    [removeToast(id)] keeps exactly the toasts with another id, in their
    order; when one toast carries the id, the list after is the list before
    without that toast; and nothing but the toast list changes. *)
Theorem toast_expiry_and_removal (s : Attendance.Screen) :
  (forall now_key now_id msg ty opts key,
      let s' := Attendance.showToast now_key now_id msg ty opts key s in
      (Attendance.throttled key now_key s = true /\ s' = s)
      \/ (Attendance.throttled key now_key s = false
          /\ exists t,
               Attendance.toasts s' = Attendance.toasts s ++ [t]
               /\ Attendance.timers s'
                  = Attendance.timers s
                    ++ [{| Attendance.handle := Attendance.next_handle s;
                           Attendance.delay := 5000;
                           Attendance.set_at := now_id;
                           Attendance.action :=
                             Attendance.RemoveToast (Attendance.id t) |}]))
  /\ (forall i t,
        t ∈ Attendance.toasts (Attendance.removeToast i s)
        <-> t ∈ Attendance.toasts s /\ Attendance.id t <> i)
  /\ (forall i,
        Attendance.toasts (Attendance.removeToast i s) `sublist_of` Attendance.toasts s)
  /\ (forall i l1 t l2,
        Attendance.toasts s = l1 ++ t :: l2 -> Attendance.id t = i ->
        Forall (fun u => Attendance.id u <> i) (l1 ++ l2) ->
        Attendance.toasts (Attendance.removeToast i s) = l1 ++ l2)
  /\ (forall i,
        Attendance.set_toasts (Attendance.toasts s) (Attendance.removeToast i s) = s).
Proof.
  split; [|split; [|split; [|split]]].
  - intros now_key now_id msg ty opts key s'.
    destruct (Attendance.throttled key now_key s) eqn:Hth.
    + left. split; [reflexivity|]. apply showToast_throttled. exact Hth.
    + right. split; [reflexivity|].
      exists (Attendance.mkToast (pretty now_id) msg ty opts).
      apply (showToast_shown now_key now_id msg ty opts key s Hth).
  - intros i t. unfold Attendance.removeToast. cbn.
    rewrite list_elem_of_filter. tauto.
  - intros i. unfold Attendance.removeToast. cbn. apply sublist_filter.
  - intros i l1 t l2. apply removeToast_split.
  - intros i. destruct s. reflexivity.
Qed.

Lemma toast_expiry_and_removal_witness :
  Attendance.toasts
    (Attendance.removeToast "1700000000200"
       (Attendance.set_toasts [toast_a; toast_b; toast_c] Loop.initial))
  = [toast_a; toast_c].
Proof.
  apply (proj1 (proj2 (proj2 (proj2
           (toast_expiry_and_removal
              (Attendance.set_toasts [toast_a; toast_b; toast_c] Loop.initial)))))
           "1700000000200" [toast_a] toast_b [toast_c]).
  - reflexivity.
  - reflexivity.
  - repeat constructor; discriminate.
Defined.

(** ** One capture: what goes out and how it ends *)

Section CaptureFacts.
Import Attendance.

(** [showToast] touches the toast list, its timers and its throttle map,
    and nothing else. *)
Lemma showToast_frame (now_key now_id : Z) (msg : json) (ty : ToastType)
    (opts : ToastOpts) (key : option string) (s : Screen) :
  let s' := showToast now_key now_id msg ty opts key s in
  cameraRef s' = cameraRef s /\ isProcessing s' = isProcessing s
  /\ started s' = started s /\ cameraActive s' = cameraActive s
  /\ isProcessingRef s' = isProcessingRef s
  /\ lastCaptureTimeRef s' = lastCaptureTimeRef s
  /\ nextAllowedCaptureAtRef s' = nextAllowedCaptureAtRef s
  /\ captureTimeoutRef s' = captureTimeoutRef s
  /\ requests s' = requests s /\ tasks s' = tasks s
  /\ geolocation s' = geolocation s.
Proof.
  unfold showToast. destruct (throttled key now_key s); [repeat split|].
  destruct key as [k|]; [destruct (String.eqb k "")|]; repeat split.
Qed.

(** What [fetchGeolocation] returns does not depend on the screen, and it
    only writes the three location fields. *)
Lemma fetchGeolocation_result (g : GeoEnv) (s s' : Screen) :
  fst (fetchGeolocation g s) = fst (fetchGeolocation g s').
Proof.
  unfold fetchGeolocation, fetchGeolocation_catch.
  destruct (requestForegroundPermissions g) as [st|e].
  - destruct (is_granted st); cbn; [|reflexivity].
    destruct (getCurrentPosition g); [reflexivity|].
    destruct (getForegroundPermissions g); reflexivity.
  - destruct (getForegroundPermissions g); reflexivity.
Qed.

Lemma fetchGeolocation_frame (g : GeoEnv) (s : Screen) :
  let s' := snd (fetchGeolocation g s) in
  cameraRef s' = cameraRef s /\ isProcessing s' = isProcessing s
  /\ started s' = started s /\ cameraActive s' = cameraActive s
  /\ isProcessingRef s' = isProcessingRef s
  /\ lastCaptureTimeRef s' = lastCaptureTimeRef s
  /\ nextAllowedCaptureAtRef s' = nextAllowedCaptureAtRef s
  /\ captureTimeoutRef s' = captureTimeoutRef s
  /\ requests s' = requests s /\ tasks s' = tasks s
  /\ timers s' = timers s /\ next_handle s' = next_handle s
  /\ toasts s' = toasts s /\ lastToastTimeRef s' = lastToastTimeRef s.
Proof.
  unfold fetchGeolocation, fetchGeolocation_catch.
  destruct (requestForegroundPermissions g) as [st|e].
  - destruct (is_granted st); cbn; [|repeat split].
    destruct (getCurrentPosition g); [repeat split|].
    destruct (getForegroundPermissions g); repeat split.
  - destruct (getForegroundPermissions g); repeat split.
Qed.

Lemma captureAndSend_enter_Some (now : Z) (s : Screen) :
  cameraRef s = true -> isProcessingRef s = false ->
  captureAndSend_enter now s
  = Some (set_isProcessing true
            (set_isProcessingRef true
               (set_nextAllowedCaptureAtRef (Z.max (nextAllowedCaptureAtRef s) now)
                  (set_lastCaptureTimeRef now s)))).
Proof.
  intros Hc Hp. unfold captureAndSend_enter. rewrite Hc, Hp. reflexivity.
Qed.


End CaptureFacts.

Section CaptureEnds.
Import Attendance.

Lemma catch_fields (e : JsError) (now_key now_id now : Z) (s : Screen) :
  let s' := captureAndSend_catch e now_key now_id now s in
  cameraActive s' = false /\ started s' = false
  /\ nextAllowedCaptureAtRef s' = now + 10000
  /\ isProcessingRef s' = false /\ isProcessing s' = false
  /\ requests s' = requests s /\ tasks s' = tasks s
  /\ lastCaptureTimeRef s' = lastCaptureTimeRef s
  /\ captureTimeoutRef s' = captureTimeoutRef s.
Proof.
  unfold captureAndSend_catch.
  pose proof (showToast_frame now_key now_id (JStr (error_toast_text e)) error no_opts
                (Some "attendance-error") s) as F.
  cbv zeta in F. destruct F as (_ & _ & _ & _ & _ & F1 & _ & F2 & F3 & F4 & _).
  cbn. repeat split; assumption.
Qed.

Lemma no_location_fields (now_key now_id now : Z) (s : Screen) :
  let s' := captureAndSend_no_location now_key now_id now s in
  cameraActive s' = cameraActive s /\ started s' = started s
  /\ nextAllowedCaptureAtRef s' = now + 10000
  /\ isProcessingRef s' = isProcessingRef s /\ isProcessing s' = isProcessing s
  /\ requests s' = requests s /\ tasks s' = tasks s
  /\ lastCaptureTimeRef s' = lastCaptureTimeRef s
  /\ captureTimeoutRef s' = captureTimeoutRef s
  /\ exists h, last (timers s')
               = Some {| handle := h; delay := 1000; set_at := now;
                         action := ClearProcessing |}.
Proof.
  unfold captureAndSend_no_location.
  set (t := showToast _ _ _ _ _ _ s).
  pose proof (showToast_frame now_key now_id
                (JStr "Enable location on your device to mark attendance. If already allowed, check app permissions.")
                error no_opts (Some "attendance-location-missing") s) as F.
  cbv zeta in F. fold t in F.
  destruct F as (_ & F0 & F1 & F2 & F3 & F4 & _ & F5 & F6 & F7 & _).
  cbn. repeat split; try assumption.
  exists (next_handle t). apply last_snoc.
Qed.

(** A run that passed the guard, by the location it works with. *)
Lemma captureAndSend_run (env : CaptureEnv) (s : Screen) :
  cameraRef s = true -> isProcessingRef s = false ->
  exists s1,
    cameraActive s1 = cameraActive s /\ started s1 = started s
    /\ requests s1 = requests s /\ isProcessingRef s1 = true
    /\ isProcessing s1 = true /\ lastCaptureTimeRef s1 = now_enter env
    /\ captureAndSend env s
       = match located env s with
         | Throw e => captureAndSend_catch e (now_key env) (now_id env) (now_done env) s1
         | Return None =>
             captureAndSend_no_location (now_key env) (now_id env) (now_done env) s1
         | Return (Some geoData) =>
             match picture env with
             | Throw e =>
                 captureAndSend_catch e (now_key env) (now_id env) (now_done env) s1
             | Return None => captureAndSend_no_photo (now_id env) s1
             | Return (Some photo) =>
                 let s2 := captureAndSend_submit photo geoData s1 in
                 match answer env with
                 | Throw e =>
                     captureAndSend_catch e (now_key env) (now_id env) (now_done env) s2
                 | Return resp =>
                     captureAndSend_response geoData resp
                       (now_key env) (now_id env) (now_done env) s2
                 end
             end
         end.
Proof.
  intros Hc Hp. unfold captureAndSend.
  rewrite (captureAndSend_enter_Some _ _ Hc Hp).
  set (s0 := set_isProcessing true _).
  unfold captureAndSend_rest, located.
  destruct (geolocation s) as [g|] eqn:Hg.
  - exists s0. repeat split; reflexivity.
  - pose proof (fetchGeolocation_frame (geo env) s0) as F. cbv zeta in F.
    pose proof (fetchGeolocation_result (geo env) s0 s) as R.
    destruct (fetchGeolocation (geo env) s0) as [r s1]. cbn [fst snd] in F, R.
    destruct F as (_ & F1 & F2 & F3 & F4 & F5 & _ & _ & F6 & _).
    exists s1. rewrite <- R.
    repeat split; try (etransitivity; [eassumption|reflexivity]).
Qed.

End CaptureEnds.

(** C6.  For every run of [captureAndSend] that passes its guard: when the
    photo was taken and the submission was rejected (a network error or an
    error response alike), the run ends with the camera stopped, the
    next-allowed-capture timestamp at the clock plus 10000 ms, and both
    processing flags cleared; when no location is to be had, no request is
    made, the next-allowed-capture timestamp is the clock plus 10000 ms, the
    camera is left as it was, and a 1000 ms timeout that clears the
    processing flags is the last one registered. *)
Theorem capture_failure_resets (env : Attendance.CaptureEnv) (s : Attendance.Screen)
    (Hcam : Attendance.cameraRef s = true)
    (Hidle : Attendance.isProcessingRef s = false) :
  let s' := Attendance.captureAndSend env s in
  (forall g photo e,
      located env s = Return (Some g) ->
      Attendance.picture env = Return (Some photo) ->
      Attendance.answer env = Throw e ->
      Attendance.cameraActive s' = false
      /\ Attendance.nextAllowedCaptureAtRef s' = Attendance.now_done env + 10000
      /\ Attendance.isProcessingRef s' = false
      /\ Attendance.isProcessing s' = false)
  /\ (located env s = Return None ->
      Attendance.requests s' = Attendance.requests s
      /\ Attendance.nextAllowedCaptureAtRef s' = Attendance.now_done env + 10000
      /\ Attendance.cameraActive s' = Attendance.cameraActive s
      /\ Attendance.started s' = Attendance.started s
      /\ exists h, last (Attendance.timers s')
                   = Some {| Attendance.handle := h; Attendance.delay := 1000;
                             Attendance.set_at := Attendance.now_done env;
                             Attendance.action := Attendance.ClearProcessing |}).
Proof.
  intros s'. subst s'.
  destruct (captureAndSend_run env s Hcam Hidle)
    as (s1 & A1 & A2 & A3 & A4 & A5 & A6 & Hrun).
  rewrite Hrun. split.
  - intros g photo e Hl Hp Ha. rewrite Hl, Hp, Ha. cbv zeta.
    destruct (catch_fields e (Attendance.now_key env) (Attendance.now_id env)
                (Attendance.now_done env) (Attendance.captureAndSend_submit photo g s1))
      as (C1 & _ & C2 & C3 & C4 & _).
    repeat split; assumption.
  - intros Hl. rewrite Hl.
    destruct (no_location_fields (Attendance.now_key env) (Attendance.now_id env)
                (Attendance.now_done env) s1)
      as (N1 & N2 & N3 & _ & _ & N4 & _ & _ & _ & N5).
    split; [congruence|]. split; [exact N3|]. split; [congruence|].
    split; [congruence|]. exact N5.
Qed.

Lemma capture_failure_resets_witness :
  Attendance.cameraActive
    (Attendance.captureAndSend (rejected_with not_recognized 1700000002100) camera_screen)
  = false
  /\ Attendance.nextAllowedCaptureAtRef
       (Attendance.captureAndSend (rejected_with not_recognized 1700000002100) camera_screen)
     = 1700000012600.
Proof.
  destruct (proj1 (capture_failure_resets (rejected_with not_recognized 1700000002100)
                     camera_screen eq_refl eq_refl)
              office selfie not_recognized eq_refl eq_refl eq_refl)
    as (H1 & H2 & _).
  split; [exact H1 | exact H2].
Defined.

(** ** The text of the error toast *)

Lemma error_title_msg_known (st : Z) (body : list (string * json)) (s : string) :
  assoc "error" body = Some (JStr s) -> s <> "" ->
  Attendance.error_title_msg (server_error st (JObj body))
  = if String.eqb s "No face detected" then
      ("No Face Found", Some (JStr "Please ensure your face is clearly visible in the frame"))
    else if String.eqb s "Face not recognized" then
      ("Unregistered Face",
       Some (JStr "Your face is not registered in the system. Please contact administrator."))
    else ("Error", Some (JStr s)).
Proof.
  intros He Hne. unfold Attendance.error_title_msg, server_error. cbn.
  rewrite He. cbn. rewrite (nonempty_eqb _ Hne). cbn. reflexivity.
Qed.

Lemma error_title_msg_no_error (st : Z) (body : list (string * json)) :
  truthy_opt (assoc "error" body) = false ->
  Attendance.error_title_msg (server_error st (JObj body))
  = ("Connection Error",
     match body with
     | (_, firstError) :: _ => first_if_array (Some firstError)
     | [] => Some (JStr "Server connection failed")
     end).
Proof.
  intros He. unfold Attendance.error_title_msg, server_error. cbn.
  rewrite He. destruct body as [|[k v] rest]; reflexivity.
Qed.

(** C3 as the specification words it fails: a body whose [error] field is
    the empty string is an error string other than the two known ones, and
    the toast is not ["Error: "] followed by it. *)
Lemma error_toast_empty_error_string :
  ~ (forall st body s,
        assoc "error" body = Some (JStr s) ->
        s <> "No face detected" -> s <> "Face not recognized" ->
        Attendance.error_toast_text (server_error st (JObj body)) = "Error: " +:+ s).
Proof.
  intros H.
  specialize (H 400 [("error", JStr "")] "" eq_refl).
  assert (Hc : Attendance.error_toast_text (server_error 400 (JObj [("error", JStr "")]))
               = "Connection Error: ") by reflexivity.
  rewrite Hc in H. discriminate H; discriminate.
Qed.

(** C3, amended.  For an error whose response body is an object: an
    [error] field equal to ['No face detected'] or ['Face not recognized']
    gives the two fixed texts; any other non-empty error string [s] gives
    ["Error: " ++ s]; a body whose [error] field is absent or falsy gives
    ["Connection Error: "] followed by the first field of the body (its
    first element when that is an array), or by ['Server connection failed']
    when the body has no field; an error without response gives
    ['Connection Error: Server connection failed'].  The [catch] block hands
    this text to [showToast] as an error toast, which appends it unless the
    key ['attendance-error'] is throttled. *)
Theorem error_toast_mapping (st : Z) (body : list (string * json)) :
  let e := server_error st (JObj body) in
  (assoc "error" body = Some (JStr "No face detected") ->
   Attendance.error_toast_text e
   = "No Face Found: Please ensure your face is clearly visible in the frame")
  /\ (assoc "error" body = Some (JStr "Face not recognized") ->
      Attendance.error_toast_text e
      = "Unregistered Face: Your face is not registered in the system. Please contact administrator.")
  /\ (forall s, assoc "error" body = Some (JStr s) -> s <> "" ->
                s <> "No face detected" -> s <> "Face not recognized" ->
                Attendance.error_toast_text e = "Error: " +:+ s)
  /\ (truthy_opt (assoc "error" body) = false ->
      Attendance.error_toast_text e
      = "Connection Error: "
        +:+ match body with
            | (_, firstError) :: _ => to_string_opt (first_if_array (Some firstError))
            | [] => "Server connection failed"
            end)
  /\ (forall msg,
        Attendance.error_toast_text {| Js.message := msg; response := None |}
        = "Connection Error: Server connection failed")
  /\ (forall err now_key now_id now s,
        Attendance.throttled (Some "attendance-error") now_key s = false ->
        Attendance.toasts (Attendance.captureAndSend_catch err now_key now_id now s)
        = Attendance.toasts s
          ++ [Attendance.mkToast (pretty now_id) (JStr (Attendance.error_toast_text err))
                Attendance.error Attendance.no_opts]).
Proof.
  intros e. subst e. unfold Attendance.error_toast_text.
  split; [|split; [|split; [|split; [|split]]]].
  - intros He. rewrite (error_title_msg_known st body _ He) by discriminate. reflexivity.
  - intros He. rewrite (error_title_msg_known st body _ He) by discriminate. reflexivity.
  - intros s He Hne H1 H2. rewrite (error_title_msg_known st body s He Hne).
    apply String.eqb_neq in H1, H2. rewrite H1, H2. reflexivity.
  - intros He. rewrite (error_title_msg_no_error st body He).
    destruct body as [|[k v] rest]; reflexivity.
  - intros msg. reflexivity.
  - intros err now_key now_id now s Hth. unfold Attendance.captureAndSend_catch.
    cbn. apply (showToast_shown now_key now_id _ Attendance.error Attendance.no_opts
                  (Some "attendance-error") s Hth).
Qed.

Lemma error_toast_mapping_witness :
  Attendance.error_toast_text
    (server_error 400 (JObj [("error", JStr "Image too dark"); ("code", JNum 12)]))
  = "Error: Image too dark".
Proof.
  apply (proj1 (proj2 (proj2
           (error_toast_mapping 400 [("error", JStr "Image too dark"); ("code", JNum 12)])))
           "Image too dark"); [reflexivity | discriminate | discriminate | discriminate].
Defined.

(** ** What a capture sends *)

Section Requests.
Import Attendance.

Lemma response_fields (g : GeoLocation) (resp : Response) (now_key now_id now : Z)
    (s : Screen) :
  let s' := captureAndSend_response g resp now_key now_id now s in
  cameraActive s' = cameraActive s /\ started s' = started s
  /\ isProcessingRef s' = false /\ isProcessing s' = false
  /\ requests s' = requests s /\ tasks s' = tasks s
  /\ lastCaptureTimeRef s' = lastCaptureTimeRef s
  /\ captureTimeoutRef s' = captureTimeoutRef s
  /\ (nextAllowedCaptureAtRef s' = now + 8000 \/ nextAllowedCaptureAtRef s' = now + 6000).
Proof.
  unfold captureAndSend_response.
  destruct (truthy_opt _ && truthy_opt _).
  - match goal with |- context [speakText _ (showToast ?a ?b ?c ?d ?e ?f s)] =>
      pose proof (showToast_frame a b c d e f s) as F end.
    cbv zeta in F. destruct F as (_ & _ & F1 & F2 & _ & F3 & _ & F4 & F5 & F6 & _).
    cbn. repeat split; try assumption. left. reflexivity.
  - match goal with |- context [showToast ?a ?b ?c ?d ?e ?f s] =>
      pose proof (showToast_frame a b c d e f s) as F end.
    cbv zeta in F. destruct F as (_ & _ & F1 & F2 & _ & F3 & _ & F4 & F5 & F6 & _).
    cbn. repeat split; try assumption. right. reflexivity.
Qed.

Lemma no_photo_fields (now_id : Z) (s : Screen) :
  let s' := captureAndSend_no_photo now_id s in
  cameraActive s' = cameraActive s /\ started s' = started s
  /\ isProcessingRef s' = false /\ isProcessing s' = false
  /\ requests s' = requests s /\ tasks s' = tasks s
  /\ lastCaptureTimeRef s' = lastCaptureTimeRef s
  /\ captureTimeoutRef s' = captureTimeoutRef s
  /\ nextAllowedCaptureAtRef s' = nextAllowedCaptureAtRef s.
Proof.
  unfold captureAndSend_no_photo.
  pose proof (showToast_frame now_id now_id (JStr "Failed to capture photo") error
                no_opts None s) as F.
  cbv zeta in F. destruct F as (_ & _ & F1 & F2 & _ & F3 & F7 & F4 & F5 & F6 & _).
  cbn. repeat split; assumption.
Qed.

Lemma captureAndSend_requests (env : CaptureEnv) (s : Screen) :
  cameraRef s = true -> isProcessingRef s = false ->
  requests (captureAndSend env s) = requests s ++ sent env s.
Proof.
  intros Hc Hp.
  destruct (captureAndSend_run env s Hc Hp) as (s1 & _ & _ & A3 & _ & _ & _ & Hrun).
  rewrite Hrun. unfold sent.
  destruct (located env s) as [[g|]|e].
  - destruct (picture env) as [[photo|]|e].
    + cbv zeta.
      assert (Hs : requests (captureAndSend_submit photo g s1)
                   = requests s ++ [markAttendance (attendance_form photo g)]).
      { cbn. rewrite A3. reflexivity. }
      destruct (answer env) as [resp|e].
      * destruct (response_fields g resp (now_key env) (now_id env) (now_done env)
                    (captureAndSend_submit photo g s1)) as (_ & _ & _ & _ & R & _).
        congruence.
      * destruct (catch_fields e (now_key env) (now_id env) (now_done env)
                    (captureAndSend_submit photo g s1)) as (_ & _ & _ & _ & _ & R & _).
        congruence.
    + destruct (no_photo_fields (now_id env) s1) as (_ & _ & _ & _ & R & _).
      rewrite R, A3, app_nil_r. reflexivity.
    + destruct (catch_fields e (now_key env) (now_id env) (now_done env) s1)
        as (_ & _ & _ & _ & _ & R & _).
      rewrite R, A3, app_nil_r. reflexivity.
  - destruct (no_location_fields (now_key env) (now_id env) (now_done env) s1)
      as (_ & _ & _ & _ & _ & R & _).
    rewrite R, A3, app_nil_r. reflexivity.
  - destruct (catch_fields e (now_key env) (now_id env) (now_done env) s1)
      as (_ & _ & _ & _ & _ & R & _).
    rewrite R, A3, app_nil_r. reflexivity.
Qed.


(** Every form [captureAndSend] sends carries the image and the three
    location fields. *)
Lemma attendance_form_fields (photo : Photo) (g : GeoLocation) :
  map fst (attendance_form photo g) = ["image"; "latitude"; "longitude"; "accuracy"].
Proof. reflexivity. Qed.

End Requests.

Section ManualRequests.
Import Manual.

Lemma posts_showToast (now : Z) (msg : json) (ty : Attendance.ToastType)
    (photo : option string) (employee : option json) (checkin checkout : option string)
    (s : Screen) :
  posts (showToast now msg ty photo employee checkin checkout s) = posts s
  /\ cameraRef (showToast now msg ty photo employee checkin checkout s) = cameraRef s.
Proof. split; reflexivity. Qed.

Lemma posts_add_summary (s : Screen) : posts (add_call GetSummary s) = posts s.
Proof. unfold posts, add_call. cbn. rewrite omap_app. cbn. apply app_nil_r. Qed.

Lemma posts_add_post (r : Request) (s : Screen) :
  posts (add_call (PostAttendance r) s) = posts s ++ [r].
Proof. unfold posts, add_call. cbn. rewrite omap_app. reflexivity. Qed.

Lemma posts_loadAttendanceSummary (env : Env) (s : Screen) :
  posts (loadAttendanceSummary env s) = posts s.
Proof.
  unfold loadAttendanceSummary, posts.
  destruct (summary env) as [resp|e]; cbn; rewrite omap_app; cbn; apply app_nil_r.
Qed.

Lemma posts_fetchAttendanceDetails (env : Env) (empName : json) (s : Screen) :
  posts (snd (fetchAttendanceDetails env empName s)) = posts s.
Proof.
  unfold fetchAttendanceDetails. destruct (details env) as [r|e]; cbn [snd].
  - destruct (find_row empName _) as [[found|]|]; cbn [snd]; apply posts_add_summary.
  - apply posts_add_summary.
Qed.

Lemma posts_handleCapture_answered (env : Env) (photo : Attendance.Photo)
    (res : Response) (s : Screen) :
  posts (snd (handleCapture_answered env photo res s)) = posts s.
Proof.
  unfold handleCapture_answered.
  set (payload := match Js.data res with Some d => _ | None => _ end).
  set (attendance := match or_else _ _ with Some a => a | None => payload end).
  set (ci := or_else (or3 _ _ _) (prop "checkin_time" payload)).
  set (co := or_else (or3 _ _ _) (prop "checkout_time" payload)).
  set (emp := or_else (or3 _ _ _) (prop "employee" payload)).
  destruct (negb (truthy_opt ci) && negb (truthy_opt co) && truthy_opt emp).
  - pose proof (posts_fetchAttendanceDetails env
                  (match emp with Some e => e | None => JNull end) s) as F.
    destruct (fetchAttendanceDetails env _ s) as [[d|] s1]; cbn [snd] in F.
    + destruct (formatTime env _) as [f1|e]; [|exact F].
      destruct (formatTime env _) as [f2|e]; [|exact F].
      cbn [snd]. rewrite posts_loadAttendanceSummary. exact F.
    + destruct (formatTime env ci) as [f1|e]; [|exact F].
      destruct (formatTime env co) as [f2|e]; [|exact F].
      cbn [snd]. rewrite posts_loadAttendanceSummary. exact F.
  - destruct (formatTime env ci) as [f1|e]; [|reflexivity].
    destruct (formatTime env co) as [f2|e]; [|reflexivity].
    cbn [snd]. rewrite posts_loadAttendanceSummary. reflexivity.
Qed.

Lemma handleCapture_posts (env : Env) (s : Screen) :
  cameraRef s = true -> isProcessing s = false ->
  posts (handleCapture env s) = posts s ++ tapped env.
Proof.
  intros Hc Hp. unfold handleCapture, tapped. rewrite Hc, Hp. cbn [orb negb].
  destruct (picture env) as [[photo|]|e].
  - destruct (answer env) as [res|e].
    + pose proof (posts_handleCapture_answered env photo res
                    (add_call (PostAttendance (markAttendance (capture_form photo)))
                       (set_isProcessing true s))) as F.
      destruct (handleCapture_answered env photo res _) as [[u|e] s3];
        cbn [snd] in F.
      * change (posts s3 = posts s ++ [markAttendance (capture_form photo)]).
        rewrite F, posts_add_post. reflexivity.
      * change (posts s3 = posts s ++ [markAttendance (capture_form photo)]).
        rewrite F, posts_add_post. reflexivity.
    + change (posts (add_call (PostAttendance (markAttendance (capture_form photo)))
                       (set_isProcessing true s))
              = posts s ++ [markAttendance (capture_form photo)]).
      rewrite posts_add_post. reflexivity.
  - change (posts s = posts s ++ []). rewrite app_nil_r. reflexivity.
  - change (posts s = posts s ++ []). rewrite app_nil_r. reflexivity.
Qed.


End ManualRequests.

(** C4.  There is a run of the capture-and-send operation of the
    tap-to-capture screen ([handleCapture]) whose one request goes to the
    attendance endpoint as a multipart form with the image and none of
    [latitude], [longitude], [accuracy]; and there is a run of
    [captureAndSend] whose one request carries the image and all three. *)
Theorem image_submitted_without_geolocation :
  (exists env s r,
      Manual.posts (Manual.handleCapture env s) = Manual.posts s ++ [r]
      /\ req_method r = "post" /\ req_url r = "/attendance/"
      /\ req_content_type r = "multipart/form-data"
      /\ has_field "image" (req_body r) = true
      /\ has_field "latitude" (req_body r) = false
      /\ has_field "longitude" (req_body r) = false
      /\ has_field "accuracy" (req_body r) = false)
  /\ (exists env s r,
        Attendance.requests (Attendance.captureAndSend env s)
        = Attendance.requests s ++ [r]
        /\ req_method r = "post" /\ req_url r = "/attendance/"
        /\ req_content_type r = "multipart/form-data"
        /\ has_field "image" (req_body r) = true
        /\ has_field "latitude" (req_body r) = true
        /\ has_field "longitude" (req_body r) = true
        /\ has_field "accuracy" (req_body r) = true).
Proof.
  split.
  - exists tap_env, tap_screen, (markAttendance (Manual.capture_form selfie)).
    split; [|repeat split].
    apply (handleCapture_posts tap_env tap_screen); reflexivity.
  - exists (answered_with marked_ok 1700000002100), camera_screen,
      (markAttendance (Attendance.attendance_form selfie office)).
    split; [|repeat split].
    apply (captureAndSend_requests (answered_with marked_ok 1700000002100) camera_screen);
      reflexivity.
Qed.

Example sample_form :
  Attendance.attendance_form selfie office
  = [("image", FFile "file:///cache/Camera/1.jpg" "image/jpeg" "face.jpg");
     ("latitude", FText "12.971599"); ("longitude", FText "77.594566");
     ("accuracy", FText "15")].
Proof. vm_compute. reflexivity. Qed.

(** ** The detection loop: how the blocks move timers, tasks and stamps *)

Section Evolution.
Import Attendance Loop.

Lemma evolves_frame (s s' : Screen) :
  tasks s' = tasks s -> next_handle s' = next_handle s -> timers s' = timers s ->
  evolves [] s s'.
Proof.
  intros Ht Hn Hm. unfold evolves. rewrite Ht, Hn, Hm.
  split; [auto|]. split; [lia|]. auto.
Qed.







Lemma setTimeout_timers (a : TimerAction) (d now : Z) (s : Screen) :
  timers (snd (setTimeout a d now s))
  = timers s ++ [{| handle := next_handle s; delay := d; set_at := now; action := a |}]
  /\ next_handle (snd (setTimeout a d now s)) = S (next_handle s)
  /\ fst (setTimeout a d now s) = next_handle s.
Proof. repeat split. Qed.





End Evolution.

Section CalmBlocks.
Import Attendance Loop.





















End CalmBlocks.

Section GateBlocks.
Import Attendance Loop.




Lemma timeout_resume_false (now : Z) (s : Screen) :
  timeout_resume false now s = inr (set_captureTimeoutRef None (face_lost s)).
Proof. reflexivity. Qed.

Lemma timeout_resume_inl (b : bool) (now : Z) (s s1 : Screen) :
  timeout_resume b now s = inl s1 ->
  captureAndSend_enter now s = Some s1
  /\ cameraRef s = true /\ isProcessingRef s = false
  /\ lastCaptureTimeRef s1 = now /\ evolves [] s s1.
Proof.
  unfold timeout_resume. intros H.
  destruct (b && negb (isProcessingRef s) && cameraRef s) eqn:Hc; [|discriminate].
  apply andb_prop in Hc as [Hc Hcam]. apply andb_prop in Hc as [_ Hp].
  apply negb_true_iff in Hp.
  rewrite (captureAndSend_enter_Some now s Hcam Hp) in *.
  inversion H; subst s1.
  split; [reflexivity|]. split; [exact Hcam|]. split; [exact Hp|].
  split; [reflexivity|]. apply evolves_frame; reflexivity.
Qed.






Lemma find_timer_elem (h : nat) (s : Screen) (t : Timer) :
  find_timer h s = Some t -> t ∈ timers s /\ handle t = h.
Proof.
  unfold find_timer. intros H.
  assert (Hin : t ∈ filter (fun t => handle t = h) (timers s)).
  { destruct (filter _ (timers s)) as [|x l]; [discriminate|].
    cbn in H. inversion H; subst x. left. }
  apply list_elem_of_filter in Hin as [Hh Hin]. split; assumption.
Qed.

End GateBlocks.

(** ** The detection loop: what every run keeps true *)

Section LoopInvariant.
Import Attendance Loop.










End LoopInvariant.

Section LoopSteps.
Import Attendance Loop.









End LoopSteps.

Section LoopRuns.
Import Attendance Loop.




End LoopRuns.





(** ** The detection loop: one capture at a time *)

Section InFlight.
Import Attendance Loop.

Lemma still_frame (s s' : Screen) :
  isProcessing s' = isProcessing s -> isProcessingRef s' = isProcessingRef s ->
  started s' = started s -> cameraActive s' = cameraActive s ->
  tasks s' = tasks s -> timers s' = timers s -> still s s'.
Proof.
  intros H1 H2 H3 H4 H5 H6. unfold still, clearers, captures. rewrite H5, H6.
  repeat split; auto.
Qed.

Lemma still_refl (s : Screen) : still s s.
Proof. apply still_frame; reflexivity. Qed.

Lemma still_trans (s s1 s2 : Screen) : still s s1 -> still s1 s2 -> still s s2.
Proof.
  intros (A1 & A2 & A3 & A4 & A5 & A6) (B1 & B2 & B3 & B4 & B5 & B6).
  repeat split; try congruence. lia.
Qed.

Lemma clearers_app (s : Screen) (l : list Timer) (s' : Screen) :
  timers s' = timers s ++ l ->
  clearers s' = clearers s ++ filter (fun t => is_clear t = true) l.
Proof. intros H. unfold clearers. rewrite H. apply filter_app. Qed.

Lemma setTimeout_still (a : TimerAction) (d now : Z) (s : Screen) :
  a <> ClearProcessing -> still s (snd (setTimeout a d now s)).
Proof.
  intros Ha. repeat split.
  rewrite (clearers_app s [{| handle := next_handle s; delay := d; set_at := now;
                              action := a |}] (snd (setTimeout a d now s)) eq_refl).
  rewrite filter_cons, filter_nil. unfold is_clear at 1. cbn [action].
  destruct a; try contradiction; cbn; rewrite app_nil_r; lia.
Qed.

Lemma clearTimeout_still (h : nat) (s : Screen) : still s (clearTimeout h s).
Proof.
  repeat split. unfold clearers, clearTimeout. cbn.
  rewrite list_filter_filter.
  match goal with |- (length (filter ?P ?l) <= length (filter ?Q ?l))%nat =>
    replace (filter P l) with (filter (fun t => handle t ≠ h) (filter Q l)) end.
  - apply length_filter.
  - rewrite list_filter_filter. apply list_filter_iff. intros t. tauto.
Qed.

Lemma showToast_still (now_key now_id : Z) (msg : json) (ty : ToastType)
    (opts : ToastOpts) (key : option string) (s : Screen) :
  still s (showToast now_key now_id msg ty opts key s).
Proof.
  unfold showToast. destruct (throttled key now_key s); [apply still_refl|].
  match goal with |- still s (snd (setTimeout ?a ?d ?n ?x)) =>
    apply (still_trans s x); [|apply setTimeout_still; discriminate] end.
  destruct key as [k|]; [destruct (String.eqb k "")|]; apply still_frame; reflexivity.
Qed.

Lemma fetchGeolocation_still (g : GeoEnv) (s : Screen) :
  still s (snd (fetchGeolocation g s)).
Proof.
  destruct (fetchGeolocation_frame g s)
    as (_ & F1 & F2 & F3 & F4 & _ & _ & _ & _ & F5 & F6 & _).
  apply still_frame; assumption.
Qed.

Lemma clear_capture_timeout_still (s : Screen) : still s (clear_capture_timeout s).
Proof.
  unfold clear_capture_timeout. destruct (captureTimeoutRef s) as [h|]; [|apply still_refl].
  apply (still_trans s (clearTimeout h s)); [apply clearTimeout_still|].
  apply still_frame; reflexivity.
Qed.

Lemma detection_effect_still (s : Screen) : still s (detection_effect s).
Proof.
  unfold detection_effect.
  destruct (negb (started s) || negb (cameraActive s)); [|apply still_refl].
  destruct (faceDetectedRef s).
  - apply (still_trans s (face_lost s)); [apply still_frame; reflexivity|].
    apply clear_capture_timeout_still.
  - apply clear_capture_timeout_still.
Qed.

Lemma commit_still (s : Screen) :
  still s (commit s) /\ cameraRef (commit s) = started s && cameraActive s.
Proof.
  unfold commit. set (x := set_cameraRef _ s). split.
  - apply (still_trans s x); [apply still_frame; reflexivity|].
    apply detection_effect_still.
  - unfold detection_effect.
    destruct (negb (started x) || negb (cameraActive x)); [|reflexivity].
    unfold clear_capture_timeout.
    destruct (faceDetectedRef x);
      match goal with |- context [match ?c with Some _ => _ | None => _ end] =>
        destruct c end; reflexivity.
Qed.

Lemma checkForFace_finish_still (d : Detection) (s : Screen) :
  still s (snd (checkForFace_finish d s)).
Proof.
  destruct d as [| |n]; cbn; try apply still_refl.
  destruct (Bool.eqb _ _); [apply still_refl | apply still_frame; reflexivity].
Qed.

Lemma tick_resume_still (detected : bool) (now : Z) (s : Screen) :
  still s (tick_resume detected now s).
Proof.
  unfold tick_resume.
  destruct (detected && negb (isProcessingRef s)
            && negb (bool_decide (is_Some (captureTimeoutRef s)))).
  - destruct (allowedByTime now s); [|apply still_refl].
    pose proof (clear_capture_timeout_still s) as C.
    pose proof (setTimeout_still AutoCapture 2000 now (clear_capture_timeout s)) as T.
    destruct (setTimeout AutoCapture 2000 now (clear_capture_timeout s)) as [h s1].
    cbn [snd] in T. apply (still_trans s _ _ C).
    apply (still_trans _ s1); [apply T; discriminate | apply still_frame; reflexivity].
  - destruct (negb detected); [|apply still_refl].
    pose proof (clear_capture_timeout_still s) as C.
    destruct (faceDetectedRef (clear_capture_timeout s)); [|exact C].
    apply (still_trans s _ _ C). apply still_frame; reflexivity.
Qed.

End InFlight.

Section Endings.
Import Attendance Loop.

Lemma outcome_cleared (s x s' : Screen) :
  still s x -> timers s' = timers x -> tasks s' = tasks x ->
  isProcessingRef s' = false -> isProcessing s' = false -> outcome s s'.
Proof.
  intros (_ & _ & _ & _ & T & C) Ht Hk H1 H2. split.
  - unfold captures in *. rewrite Hk. exact T.
  - left. repeat split; try assumption. unfold clearers in *. rewrite Ht. exact C.
Qed.

Lemma catch_outcome (s x : Screen) (e : JsError) (now_key now_id now : Z) :
  still s x -> outcome s (captureAndSend_catch e now_key now_id now x).
Proof.
  intros Hx. unfold captureAndSend_catch.
  match goal with |- context [showToast ?a ?b ?c ?d ?e ?f x] =>
    apply (outcome_cleared s (showToast a b c d e f x));
      [apply (still_trans s x _ Hx); apply showToast_still | | | |] end;
    reflexivity.
Qed.

Lemma no_photo_outcome (s x : Screen) (now_id : Z) :
  still s x -> outcome s (captureAndSend_no_photo now_id x).
Proof.
  intros Hx. unfold captureAndSend_no_photo.
  match goal with |- context [showToast ?a ?b ?c ?d ?e ?f x] =>
    apply (outcome_cleared s (showToast a b c d e f x));
      [apply (still_trans s x _ Hx); apply showToast_still | | | |] end;
    reflexivity.
Qed.

Lemma response_outcome (s x : Screen) (g : GeoLocation) (resp : Response)
    (now_key now_id now : Z) :
  still s x -> outcome s (captureAndSend_response g resp now_key now_id now x).
Proof.
  intros Hx. unfold captureAndSend_response. destruct (truthy_opt _ && truthy_opt _).
  - match goal with |- context [speakText _ (showToast ?a ?b ?c ?d ?e ?f x)] =>
      apply (outcome_cleared s (showToast a b c d e f x));
        [apply (still_trans s x _ Hx); apply showToast_still | | | |] end;
      reflexivity.
  - match goal with |- context [showToast ?a ?b ?c ?d ?e ?f x] =>
      apply (outcome_cleared s (showToast a b c d e f x));
        [apply (still_trans s x _ Hx); apply showToast_still | | | |] end;
      reflexivity.
Qed.

Lemma no_location_outcome (s x : Screen) (now_key now_id now : Z) :
  still s x -> outcome s (captureAndSend_no_location now_key now_id now x).
Proof.
  intros Hx. unfold captureAndSend_no_location.
  match goal with |- context [showToast ?a ?b ?c ?d ?e ?f x] =>
    pose proof (still_trans s x _ Hx (showToast_still a b c d e f x)) as Hy;
    set (y := showToast a b c d e f x) in * end.
  destruct Hy as (A1 & A2 & A3 & A4 & A5 & A6).
  split; [exact A5|]. right. repeat split; try assumption.
  rewrite (clearers_app (set_nextAllowedCaptureAtRef (now + 10000) y)
             [{| handle := next_handle y; delay := 1000; set_at := now;
                 action := ClearProcessing |}]
             (snd (setTimeout ClearProcessing 1000 now
                     (set_nextAllowedCaptureAtRef (now + 10000) y))) eq_refl).
  rewrite length_app.
  change (clearers (set_nextAllowedCaptureAtRef (now + 10000) y)) with (clearers y).
  rewrite filter_cons, filter_nil.
  destruct (decide (is_clear _ = true)); cbn [length]; lia.
Qed.

Lemma rest_outcome (known : option GeoLocation) (env : CaptureEnv) (s : Screen) :
  outcome s (captureAndSend_rest known env s).
Proof.
  unfold captureAndSend_rest.
  assert (H : forall r s1, still s s1 ->
            outcome s
              match r with
              | Throw e => captureAndSend_catch e (now_key env) (now_id env) (now_done env) s1
              | Return None =>
                  captureAndSend_no_location (now_key env) (now_id env) (now_done env) s1
              | Return (Some geoData) =>
                  match picture env with
                  | Throw e =>
                      captureAndSend_catch e (now_key env) (now_id env) (now_done env) s1
                  | Return None => captureAndSend_no_photo (now_id env) s1
                  | Return (Some photo) =>
                      let s2 := captureAndSend_submit photo geoData s1 in
                      match answer env with
                      | Throw e =>
                          captureAndSend_catch e (now_key env) (now_id env) (now_done env) s2
                      | Return resp =>
                          captureAndSend_response geoData resp
                            (now_key env) (now_id env) (now_done env) s2
                      end
                  end
              end).
  { intros r s1 Hs1. destruct r as [[g|]|e].
    - destruct (picture env) as [[photo|]|e].
      + cbv zeta.
        assert (Hs2 : still s (captureAndSend_submit photo g s1)).
        { apply (still_trans s s1 _ Hs1). apply still_frame; reflexivity. }
        destruct (answer env) as [resp|e].
        * apply response_outcome. exact Hs2.
        * apply catch_outcome. exact Hs2.
      + apply no_photo_outcome. exact Hs1.
      + apply catch_outcome. exact Hs1.
    - apply no_location_outcome. exact Hs1.
    - apply catch_outcome. exact Hs1. }
  destruct known as [g|].
  - apply (H (Return (Some g)) s). apply still_refl.
  - pose proof (fetchGeolocation_still (geo env) s) as F.
    destruct (fetchGeolocation (geo env) s) as [r s1]. apply H. exact F.
Qed.

Lemma captures_remove_other (t : Task) (ts ts' : list Task) :
  remove_task t ts = Some ts' -> is_capture t = false ->
  filter (fun t => is_capture t = true) ts' = filter (fun t => is_capture t = true) ts.
Proof.
  revert ts'. induction ts as [|x ts IH]; intros ts' H Ht; [discriminate|].
  cbn in H. destruct (bool_decide (x = t)) eqn:Hx.
  - apply bool_decide_eq_true in Hx. subst x. inversion H; subst ts'.
    rewrite filter_cons. destruct (decide (is_capture t = true)); [congruence|reflexivity].
  - destruct (remove_task t ts) as [r|]; [|discriminate].
    inversion H; subst ts'. rewrite !filter_cons, (IH r eq_refl Ht). reflexivity.
Qed.

Lemma captures_remove_capture (h : nat) (ts ts' : list Task) :
  remove_task (Capture h) ts = Some ts' ->
  length (filter (fun t => is_capture t = true) ts)
  = S (length (filter (fun t => is_capture t = true) ts')).
Proof.
  revert ts'. induction ts as [|x ts IH]; intros ts' H; [discriminate|].
  cbn in H. destruct (bool_decide (x = Capture h)) eqn:Hx.
  - apply bool_decide_eq_true in Hx. subst x. inversion H; subst ts'.
    rewrite filter_cons. cbn. reflexivity.
  - destruct (remove_task (Capture h) ts) as [r|]; [|discriminate].
    inversion H; subst ts'. rewrite !filter_cons.
    destruct (decide (is_capture x = true)); cbn; rewrite (IH r eq_refl); reflexivity.
Qed.

End Endings.

Section InFlightSteps.
Import Attendance Loop.

Lemma inv5_pre (s : Screen) : Inv5 s -> Pre5 s.
Proof. intros [A B C D]. constructor; assumption. Qed.

Lemma pre5_still (s s' : Screen) : Pre5 s -> still s s' -> Pre5 s'.
Proof.
  intros [A B C] (S1 & S2 & S3 & S4 & S5 & S6).
  assert (Hp : (pending s' <= pending s)%nat).
  { unfold pending. rewrite S5. lia. }
  constructor.
  - congruence.
  - lia.
  - intros H. rewrite S2, S3, S4. apply C. lia.
Qed.

Lemma inv5_commit (s : Screen) : Pre5 s -> Inv5 (commit s).
Proof.
  intros H. destruct (commit_still s) as [St Hc].
  destruct (pre5_still s (commit s) H St) as [A B C].
  destruct St as (_ & _ & S3 & S4 & _).
  constructor; try assumption. rewrite S3, S4. exact Hc.
Qed.

Lemma pre5_quiet (s : Screen) :
  pending s = 0%nat -> isProcessing s = isProcessingRef s -> Pre5 s.
Proof. intros Hp Hf. constructor; [exact Hf | lia | lia]. Qed.

Lemma idle_pending (s : Screen) :
  Pre5 s ->
  isProcessingRef s = false \/ started s = false \/ cameraActive s = false ->
  pending s = 0%nat.
Proof.
  intros [A B C] H. destruct (pending s) as [|[|n]] eqn:Hp; [reflexivity | | lia].
  destruct (C eq_refl) as (C1 & C2 & C3). destruct H as [H | [H | H]]; congruence.
Qed.

Lemma still_mild (s s' : Screen) : still s s' -> mild s s'.
Proof. intros (A & B & _ & _ & C & D). repeat split; assumption. Qed.

Lemma mild_trans (s s1 s2 : Screen) : mild s s1 -> mild s1 s2 -> mild s s2.
Proof.
  intros (A1 & A2 & A3 & A4) (B1 & B2 & B3 & B4). repeat split; try congruence. lia.
Qed.

Lemma mild_frame (s s' : Screen) :
  isProcessing s' = isProcessing s -> isProcessingRef s' = isProcessingRef s ->
  tasks s' = tasks s -> timers s' = timers s -> mild s s'.
Proof.
  intros H1 H2 H3 H4. unfold mild, captures, clearers. rewrite H3, H4. repeat split; auto.
Qed.

Lemma pre5_mild_idle (s s' : Screen) :
  Pre5 s -> pending s = 0%nat -> mild s s' -> Pre5 s'.
Proof.
  intros [A B C] Hp (M1 & M2 & M3 & M4). apply pre5_quiet; [|congruence].
  unfold pending in *. rewrite M3. lia.
Qed.

Lemma handleStart_mild (env : StartEnv) (s : Screen) : mild s (handleStart env s).
Proof.
  unfold handleStart.
  assert (H0 : mild s (dismissAllToasts s)) by (apply mild_frame; reflexivity).
  assert (Hsc : forall b x, mild x (start_camera b x)).
  { intros b x. destruct b; apply mild_frame; reflexivity. }
  destruct (negb (is_granted _)).
  - pose proof (fetchGeolocation_still (start_geo env) (dismissAllToasts s)) as F.
    apply still_mild in F.
    destruct (fetchGeolocation (start_geo env) (dismissAllToasts s)) as [[r|e] s1];
      cbn [snd] in F; pose proof (mild_trans s _ _ H0 F) as H1; [|exact H1].
    destruct (second_check env) as [st|e]; [|exact H1].
    destruct (negb (is_granted st)).
    + apply (mild_trans s s1 _ H1). apply still_mild. apply showToast_still.
    + apply (mild_trans s s1 _ H1).
      match goal with |- mild s1 (start_camera ?b ?x) =>
        apply (mild_trans s1 x); [apply mild_frame; reflexivity | apply Hsc] end.
  - match goal with |- mild s (start_camera ?b (snd (fetchGeolocation ?g ?x))) =>
      apply (mild_trans s (snd (fetchGeolocation g x))); [|apply Hsc];
      apply (mild_trans s x);
        [|apply still_mild; apply fetchGeolocation_still];
      apply (mild_trans s _ _ H0); apply mild_frame; reflexivity end.
Qed.

Lemma auto_start_mild (g : GeoEnv) (s : Screen) : mild s (auto_start g s).
Proof.
  unfold auto_start. destruct (started s); [apply mild_frame; reflexivity|].
  match goal with |- mild s (snd (fetchGeolocation g ?x)) =>
    apply (mild_trans s x);
      [apply mild_frame; reflexivity | apply still_mild; apply fetchGeolocation_still]
  end.
Qed.

Lemma handleCancel_mild (s : Screen) : mild s (handleCancel s).
Proof. apply mild_frame; reflexivity. Qed.

Lemma singleton_elem {A : Type} (l : list A) (x : A) :
  length l = 1%nat -> x ∈ l -> l = [x].
Proof.
  intros Hl Hx. destruct l as [|y [|z l]]; try discriminate.
  apply list_elem_of_singleton in Hx. subst. reflexivity.
Qed.

Lemma set_tasks_still (t : Task) (ts : list Task) (s : Screen) :
  remove_task t (tasks s) = Some ts -> is_capture t = false -> still s (set_tasks ts s).
Proof.
  intros H Ht. unfold still. do 4 (split; [reflexivity|]). split.
  - unfold captures. cbn. apply (captures_remove_other t _ _ H Ht).
  - apply le_n.
Qed.

Lemma add_task_still (t : Task) (s : Screen) :
  is_capture t = false -> still s (add_task t s).
Proof.
  intros Ht. unfold still. do 4 (split; [reflexivity|]). split.
  - unfold captures, add_task. cbn.
    rewrite filter_app, filter_cons, filter_nil.
    destruct (decide (is_capture t = true)); [congruence|]. apply app_nil_r.
  - apply le_n.
Qed.

Lemma step_inv5 (ev : Event) (m m' : Machine) (o : list Obs) :
  Inv5 (screen m) -> step ev m = Some (m', o) -> Inv5 (screen m').
Proof.
  intros HI Hstep. destruct m as [s c]. cbn [screen] in HI.
  pose proof (inv5_pre s HI) as HP.
  destruct ev; cbn [step screen clock] in Hstep.
  - (* Tick *)
    destruct ((c <=? now) && started s && cameraActive s); [|discriminate].
    destruct (isProcessingRef s).
    + inversion Hstep; subst. cbn [screen]. apply inv5_commit. exact HP.
    + destruct (checkForFace_blocked s); inversion Hstep; subst; cbn [screen]; apply inv5_commit.
      * apply (pre5_still s _ HP). apply tick_resume_still.
      * apply (pre5_still s _ HP). apply add_task_still. reflexivity.
  - (* FaceResult *)
    destruct (c <=? now); [|discriminate].
    destruct (remove_task TickDetect (tasks s)) as [ts|] eqn:Hr; [|discriminate].
    pose proof (set_tasks_still _ _ s Hr eq_refl) as S0.
    pose proof (checkForFace_finish_still d (set_tasks ts s)) as S1.
    destruct (checkForFace_finish d (set_tasks ts s)) as [detected s1]. cbn [snd] in S1.
    inversion Hstep; subst. cbn [screen]. apply inv5_commit.
    apply (pre5_still s _ HP). apply (still_trans s _ _ S0).
    apply (still_trans _ _ _ S1). apply tick_resume_still.
  - (* Fire *)
    destruct (find_timer h s) as [t|] eqn:Hf; [|discriminate].
    destruct (find_timer_elem h s t Hf) as [Hin Hh].
    destruct ((c <=? now) && (set_at t + delay t <=? now)); [|discriminate].
    pose proof (clearTimeout_still h s) as S0.
    destruct (action t) eqn:Ha.
    + inversion Hstep; subst. cbn [screen]. apply inv5_commit.
      apply (pre5_still s _ HP). apply (still_trans s _ _ S0).
      apply still_frame; reflexivity.
    + inversion Hstep; subst. cbn [screen]. apply inv5_commit.
      assert (Hc : t ∈ clearers s).
      { unfold clearers. apply list_elem_of_filter. split; [|exact Hin].
        unfold is_clear. rewrite Ha. reflexivity. }
      destruct HP as [A B C].
      assert (Hl : length (clearers s) = 1%nat /\ length (captures s) = 0%nat).
      { unfold pending in B. destruct (clearers s); [inversion Hc|]. cbn in *. lia. }
      destruct Hl as [Hl1 Hl2].
      pose proof (singleton_elem _ _ Hl1 Hc) as Hs.
      apply pre5_quiet; [|reflexivity].
      unfold pending.
      change (captures (clear_processing (clearTimeout (handle t) s))) with (captures s).
      change (clearers (clear_processing (clearTimeout (handle t) s)))
        with (filter (fun u => is_clear u = true)
                (filter (fun u => handle u ≠ handle t) (timers s))).
      rewrite Hl2.
      replace (filter (fun u => is_clear u = true)
                 (filter (fun u => handle u ≠ handle t) (timers s)))
        with (filter (fun u => handle u ≠ handle t) (clearers s)).
      * rewrite Hs, filter_cons, filter_nil.
        destruct (decide (handle t ≠ handle t)); [contradiction | reflexivity].
      * unfold clearers. rewrite !list_filter_filter.
        apply list_filter_iff. intros u. tauto.
    + destruct (checkForFace_blocked (clearTimeout h s)).
      * rewrite timeout_resume_false in Hstep. inversion Hstep; subst. cbn [screen].
        apply inv5_commit. apply (pre5_still s _ HP). apply (still_trans s _ _ S0).
        apply still_frame; reflexivity.
      * inversion Hstep; subst. cbn [screen]. apply inv5_commit.
        apply (pre5_still s _ HP). apply (still_trans s _ _ S0).
        apply add_task_still. reflexivity.
  - (* StillResult *)
    destruct (c <=? now); [|discriminate].
    destruct (remove_task (TimeoutDetect h) (tasks s)) as [ts|] eqn:Hr; [|discriminate].
    pose proof (set_tasks_still _ _ s Hr eq_refl) as S0.
    pose proof (checkForFace_finish_still d (set_tasks ts s)) as S1.
    assert (Hcam : cameraRef (snd (checkForFace_finish d (set_tasks ts s))) = cameraRef s).
    { destruct d as [| |n]; cbn; try reflexivity. destruct (Bool.eqb _ _); reflexivity. }
    destruct (checkForFace_finish d (set_tasks ts s)) as [still1 s1]. cbn [snd] in S1, Hcam.
    pose proof (still_trans s _ _ S0 S1) as S01.
    pose proof (pre5_still s s1 HP S01) as P1.
    destruct (timeout_resume still1 now s1) as [s2|s2] eqn:Ht; inversion Hstep; subst; cbn [screen].
    + apply inv5_commit.
      destruct (timeout_resume_inl still1 now s1 s2 Ht) as (He & Hc1 & Hp1 & _ & _).
      rewrite (captureAndSend_enter_Some now s1 Hc1 Hp1) in He. inversion He; subst s2.
      pose proof (idle_pending s1 P1 (or_introl Hp1)) as Hz.
      destruct S01 as (_ & _ & S3 & S4 & _).
      rewrite Hcam, (f_camera s HI), <- S3, <- S4 in Hc1.
      apply andb_prop in Hc1 as [Hst Hca].
      unfold pending in Hz.
      assert (Hpend : pending (add_task (Capture h)
                         (set_isProcessing true
                            (set_isProcessingRef true
                               (set_nextAllowedCaptureAtRef
                                  (Z.max (nextAllowedCaptureAtRef s1) now)
                                  (set_lastCaptureTimeRef now s1))))) = 1%nat).
      { unfold pending, captures, clearers, add_task. cbn.
        rewrite filter_app, filter_cons, filter_nil, length_app.
        unfold captures, clearers in Hz. cbn.
        destruct (decide (true = true)); [|contradiction]. cbn [length]. lia. }
      constructor; [reflexivity | lia |].
      intros _. cbn. auto.
    + apply inv5_commit. apply (pre5_still s1 _ P1).
      unfold timeout_resume in Ht.
      destruct (still1 && negb (isProcessingRef s1) && cameraRef s1).
      * destruct (captureAndSend_enter now s1); [discriminate|].
        inversion Ht; subst s2. apply still_frame; reflexivity.
      * inversion Ht; subst s2. apply still_frame; reflexivity.
  - (* Settle *)
    destruct ((c <=? now_key env) && (now_key env <=? now_id env)
              && (now_id env <=? now_done env)); [|discriminate].
    destruct (remove_task (Capture h) (tasks s)) as [ts|] eqn:Hr; [|discriminate].
    inversion Hstep; subst. cbn [screen]. apply inv5_commit.
    pose proof (captures_remove_capture h _ _ Hr) as Hlen.
    destruct HP as [A B C].
    assert (Hone : pending s = 1%nat) by (unfold pending, captures in *; lia).
    destruct (C Hone) as (C1 & C2 & C3).
    assert (Hz : length (captures (set_tasks ts s)) = 0%nat
                 /\ length (clearers (set_tasks ts s)) = 0%nat).
    { unfold pending, captures, clearers in *. cbn. lia. }
    destruct Hz as [Hz1 Hz2].
    destruct (rest_outcome (geolocation s) env (set_tasks ts s))
      as [Hcap [(O1 & O2 & O3) | (O1 & O2 & O3 & O4 & O5)]].
    + apply pre5_quiet.
      * unfold pending.
        change (captures (timeout_done ?x)) with (captures x).
        change (clearers (timeout_done ?x)) with (clearers x).
        rewrite Hcap. lia.
      * cbn. congruence.
    + constructor.
      * cbn. rewrite O1, O2. exact A.
      * unfold pending.
        change (captures (timeout_done ?x)) with (captures x).
        change (clearers (timeout_done ?x)) with (clearers x).
        rewrite Hcap. lia.
      * intros _. cbn. rewrite O1, O3, O4. cbn. auto.
  - (* Cancel *)
    destruct (started s && cameraActive s && negb (isProcessing s)) eqn:Hc; [|discriminate].
    apply andb_prop in Hc as [_ Hp]. apply negb_true_iff in Hp.
    inversion Hstep; subst. cbn [screen]. apply inv5_commit.
    apply (pre5_mild_idle s _ HP); [|apply handleCancel_mild].
    apply (idle_pending s HP). left. rewrite <- (p_flags s HP). exact Hp.
  - (* Retry *)
    destruct (started s && negb (cameraActive s)) eqn:Hc; [|discriminate].
    apply andb_prop in Hc as [_ Hp]. apply negb_true_iff in Hp.
    inversion Hstep; subst. cbn [screen]. apply inv5_commit.
    pose proof (idle_pending s HP (or_intror (or_intror Hp))) as Hz.
    apply pre5_quiet; [exact Hz | reflexivity].
  - (* Start *)
    destruct (negb (started s) && (c <=? start_now_key env)
              && (start_now_key env <=? start_now_id env)) eqn:Hc; [|discriminate].
    apply andb_prop in Hc as [Hc _]. apply andb_prop in Hc as [Hp _].
    apply negb_true_iff in Hp.
    inversion Hstep; subst. cbn [screen]. apply inv5_commit.
    apply (pre5_mild_idle s _ HP); [|apply handleStart_mild].
    apply (idle_pending s HP). right. left. exact Hp.
  - (* AutoStart *)
    destruct (negb (started s)) eqn:Hp; [|discriminate]. apply negb_true_iff in Hp.
    inversion Hstep; subst. cbn [screen]. apply inv5_commit.
    apply (pre5_mild_idle s _ HP); [|apply auto_start_mild].
    apply (idle_pending s HP). right. left. exact Hp.
  - (* Cleanup *)
    inversion Hstep; subst. cbn [screen]. apply inv5_commit.
    apply (pre5_still s _ HP). apply clear_capture_timeout_still.
Qed.

Lemma inv5_boot (t0 : Z) : Inv5 (screen (boot t0)).
Proof. constructor; cbn; [reflexivity | reflexivity | lia | discriminate]. Qed.

Lemma run_inv5 (evs : list Event) (m m' : Machine) (o : list Obs) :
  Inv5 (screen m) -> run evs m = Some (m', o) -> Inv5 (screen m').
Proof.
  revert m o. induction evs as [|ev evs IH]; intros m o HI Hrun.
  - cbn in Hrun. inversion Hrun; subst. exact HI.
  - cbn in Hrun. destruct (step ev m) as [[m1 o1]|] eqn:Hs; [|discriminate].
    destruct (run evs m1) as [[m2 o2]|] eqn:Hr; [|discriminate].
    inversion Hrun; subst. apply (IH m1 o2); [|exact Hr].
    apply (step_inv5 ev m m1 o1 HI Hs).
Qed.

End InFlightSteps.




Example overlapping_timeouts_capture_twice :
  exists m,
    Loop.run overlapping_trace (Loop.boot 1700000000000)
    = Some (m, [Loop.Scheduled 1 1700000001300; Loop.Scheduled 2 1700000005200;
                Loop.Captured 1 1700000005400; Loop.Captured 2 1700000007500]).
Proof. vm_compute. eexists. reflexivity. Qed.

(* ================================================================== *)
(** * Further properties of the code *)
(* ================================================================== *)

(** ** The auth store, call after call *)

Section StoreFacts.
Import Session.
Variable J : JsonCodec.

Lemma setAuthData_cases (a : json) (w : World) :
  setAuthData J a w
  = if truthy a
    then (Return tt, with_storage (insert AUTH_STORAGE_KEY (JSON_stringify J a)) w)
    else clearAuthData w.
Proof. unfold setAuthData. destruct (truthy a); reflexivity. Qed.

Lemma getAuthData_world (w : World) :
  snd (getAuthData J w) = w
  \/ snd (getAuthData J w) = with_storage (delete AUTH_STORAGE_KEY) w.
Proof.
  destruct (getAuthData_cases J w) as [[v H] | H]; rewrite H; [left | right]; reflexivity.
Qed.

Lemma getAuthData_returns (w : World) : exists v, fst (getAuthData J w) = Return v.
Proof.
  destruct (getAuthData_cases J w) as [[v H] | H]; rewrite H; eexists; reflexivity.
Qed.

Lemma getAuthData_after_delete (w : World) :
  getAuthData J (with_storage (delete AUTH_STORAGE_KEY) w)
  = (Return JNull, with_storage (delete AUTH_STORAGE_KEY) w).
Proof. apply getAuthData_absent. cbn. apply lookup_delete_eq. Qed.

End StoreFacts.

(** X1.  The store functions touch one key only: whatever the store holds
    and whatever is written, every other key of the device storage reads
    the same after [getAuthData], [setAuthData], [clearAuthData] and
    [isAuthenticated] as before, and none of them registers or calls a
    logout callback. *)
Theorem session_touches_only_auth_key (J : JsonCodec) (w : World) (k : string) :
  k <> Session.AUTH_STORAGE_KEY ->
  (storage (snd (Session.getAuthData J w)) !! k = storage w !! k
   /\ called (snd (Session.getAuthData J w)) = called w
   /\ logoutCallback (snd (Session.getAuthData J w)) = logoutCallback w)
  /\ (forall a,
        storage (snd (Session.setAuthData J a w)) !! k = storage w !! k
        /\ called (snd (Session.setAuthData J a w)) = called w
        /\ logoutCallback (snd (Session.setAuthData J a w)) = logoutCallback w)
  /\ (storage (snd (Session.clearAuthData w)) !! k = storage w !! k
      /\ called (snd (Session.clearAuthData w)) = called w
      /\ logoutCallback (snd (Session.clearAuthData w)) = logoutCallback w)
  /\ (storage (snd (Session.isAuthenticated J w)) !! k = storage w !! k
      /\ called (snd (Session.isAuthenticated J w)) = called w
      /\ logoutCallback (snd (Session.isAuthenticated J w)) = logoutCallback w).
Proof.
  intros Hk.
  assert (Hclear : storage (snd (Session.clearAuthData w)) !! k = storage w !! k
                   /\ called (snd (Session.clearAuthData w)) = called w
                   /\ logoutCallback (snd (Session.clearAuthData w)) = logoutCallback w).
  { rewrite clearAuthData_world. cbn.
    rewrite !lookup_delete_ne by congruence. auto. }
  assert (Hget : storage (snd (Session.getAuthData J w)) !! k = storage w !! k
                 /\ called (snd (Session.getAuthData J w)) = called w
                 /\ logoutCallback (snd (Session.getAuthData J w)) = logoutCallback w).
  { destruct (getAuthData_world J w) as [-> | ->]; [auto|].
    cbn. rewrite lookup_delete_ne by congruence. auto. }
  split; [exact Hget|]. split; [|split; [exact Hclear|]].
  - intros a. rewrite setAuthData_cases. destruct (truthy a); [|exact Hclear].
    cbn. rewrite lookup_insert_ne by congruence. auto.
  - unfold Session.isAuthenticated, mbind, async_bind, bind.
    destruct (getAuthData_returns J w) as [v Hv].
    destruct (Session.getAuthData J w) as [r w'] eqn:E. cbn in Hv, Hget. subst r.
    cbn. exact Hget.
Qed.

Lemma session_touches_only_auth_key_witness :
  storage (snd (Session.setAuthData MiniJson.codec (JObj sample_auth)
                  {| storage := {[ "theme" := "dark" ]}; logoutCallback := None;
                     called := [] |})) !! "theme" = Some "dark".
Proof.
  rewrite (proj1 (proj1 (proj2 (session_touches_only_auth_key MiniJson.codec
     {| storage := {[ "theme" := "dark" ]}; logoutCallback := None; called := [] |}
     "theme" ltac:(discriminate))) (JObj sample_auth))).
  reflexivity.
Defined.

(** X2.  Reading is stable: whatever the store holds, a second
    [getAuthData] right after the first returns the same value and leaves
    the world as the first one left it.  The only change a read ever makes
    is the removal of the auth key. *)
Theorem getAuthData_read_twice (J : JsonCodec) (w : World) :
  Session.getAuthData J (snd (Session.getAuthData J w))
  = (fst (Session.getAuthData J w), snd (Session.getAuthData J w))
  /\ (snd (Session.getAuthData J w) = w
      \/ snd (Session.getAuthData J w)
         = with_storage (delete Session.AUTH_STORAGE_KEY) w).
Proof.
  split; [|apply getAuthData_world].
  destruct (getAuthData_cases J w) as [[v H] | H]; rewrite H; cbn [fst snd].
  - exact H.
  - apply getAuthData_after_delete.
Qed.

(** X3.  Writes compose as on a single cell: for every pair of values the
    storage after [setAuthData(a)] then [setAuthData(b)] is the storage
    after [setAuthData(b)] alone; [clearAuthData] after any write leaves
    what [clearAuthData] alone leaves, and a second [clearAuthData] changes
    nothing; every falsy value ([null], [false], [0], the empty string) is
    written as a removal. *)
Theorem auth_store_last_write_wins (J : JsonCodec) (a b : json) (w : World) :
  snd (Session.setAuthData J b (snd (Session.setAuthData J a w)))
  = snd (Session.setAuthData J b w)
  /\ snd (Session.clearAuthData (snd (Session.setAuthData J a w)))
     = snd (Session.clearAuthData w)
  /\ snd (Session.clearAuthData (snd (Session.clearAuthData w)))
     = snd (Session.clearAuthData w)
  /\ Session.setAuthData J a w
     = (if truthy a
        then (Return tt,
              with_storage (insert Session.AUTH_STORAGE_KEY (JSON_stringify J a)) w)
        else Session.clearAuthData w).
Proof.
  assert (Hcc : forall w0, snd (Session.clearAuthData (snd (Session.clearAuthData w0)))
                           = snd (Session.clearAuthData w0)).
  { intros w0. rewrite !clearAuthData_world. cbn [snd]. unfold with_storage. cbn.
    rewrite !delete_twice. reflexivity. }
  assert (Hcs : forall w0, snd (Session.clearAuthData (snd (Session.setAuthData J a w0)))
                           = snd (Session.clearAuthData w0)).
  { intros w0. rewrite setAuthData_cases. destruct (truthy a); [|apply Hcc].
    rewrite !clearAuthData_world. cbn [snd]. unfold with_storage. cbn.
    rewrite !delete_twice, delete_insert_eq. reflexivity. }
  split; [|split; [apply Hcs|split; [apply Hcc|apply setAuthData_cases]]].
  rewrite (setAuthData_cases J b). destruct (truthy b) eqn:Hb.
  - rewrite (setAuthData_cases J b w), Hb, (setAuthData_cases J a w). cbn [snd].
    destruct (truthy a).
    + unfold with_storage. cbn. rewrite insert_insert_eq. reflexivity.
    + rewrite clearAuthData_world. unfold with_storage. cbn.
      rewrite delete_twice, insert_delete_eq. reflexivity.
  - rewrite (setAuthData_cases J b w), Hb. apply Hcs.
Qed.

(** ** The request interceptor on headers that are already there *)

Section InterceptorFacts.
Import Session HttpClient.
Variable J : JsonCodec.

Lemma getAuthData_again (w : World) :
  getAuthData J (snd (getAuthData J w)) = (fst (getAuthData J w), snd (getAuthData J w)).
Proof.
  destruct (getAuthData_cases J w) as [[v H] | H]; rewrite H; cbn [fst snd].
  - exact H.
  - apply getAuthData_after_delete.
Qed.

Lemma header_set_insert_eq (k v : string) (h : gmap string string) :
  v <> "" -> header_set k (<[k := v]> h) = true.
Proof.
  intros Hv. unfold header_set. rewrite lookup_insert_eq. cbn.
  rewrite (nonempty_eqb _ Hv). reflexivity.
Qed.

Lemma header_set_insert_ne (k k' v : string) (h : gmap string string) :
  k <> k' -> header_set k (<[k' := v]> h) = header_set k h.
Proof. intros Hk. unfold header_set. rewrite lookup_insert_ne by congruence. reflexivity. Qed.

Lemma header_set_value (k : string) (h : gmap string string) :
  header_set k h = true -> exists v, h !! k = Some v /\ v <> "".
Proof.
  unfold header_set. destruct (h !! k) as [v|]; cbn; [|discriminate].
  intros Hv. exists v. split; [reflexivity|]. intros ->. discriminate.
Qed.

Lemma token_value_nonempty (t : string) : "Token " +:+ t <> "".
Proof. discriminate. Qed.

(** The headers the interceptor leaves, as a function of the record read
    and the headers given. *)
Lemma request_interceptor_headers (config : Config) (w w' : World) (auth : json) :
  getAuthData J w = (Return auth, w') ->
  truthy_opt (opt_prop "token" (Some auth)) = true ->
  let h := match headers config with Some h => h | None => ∅ end in
  exists h',
    request_interceptor J config w = (Return (set_headers h' config), w')
    /\ header_set "Authorization" h' = true
    /\ header_set "authorization" h' = true
    /\ (forall k v, h !! k = Some v -> v <> "" -> h' !! k = Some v)
    /\ (forall k, k <> "Authorization" -> k <> "authorization" -> h' !! k = h !! k)
    /\ (header_set "Authorization" h = true -> header_set "authorization" h = true ->
        h' = h)
    /\ (header_set "Authorization" h = true -> header_set "authorization" h = false ->
        h' = <["authorization" := default "" (h !! "Authorization")]> h)
    /\ (header_set "Authorization" h = false -> header_set "authorization" h = true ->
        h' = <["Authorization" := default "" (h !! "authorization")]> h)
    /\ (header_set "Authorization" h = false -> header_set "authorization" h = false ->
        h' = <["authorization" := "Token " +:+ to_string_opt (opt_prop "token" (Some auth))]>
               (<["Authorization" := "Token " +:+ to_string_opt (opt_prop "token" (Some auth))]> h)).
Proof.
  intros Hg Ht h. unfold request_interceptor, mbind, async_bind, bind.
  rewrite Hg, Ht. fold h.
  destruct (header_set "Authorization" h) eqn:HA, (header_set "authorization" h) eqn:Ha;
    cbn [negb andb].
  - exists h. rewrite HA, Ha. cbn [negb andb].
    split; [reflexivity|]. repeat (split; [solve [auto | discriminate]|]). discriminate.
  - destruct (header_set_value _ _ HA) as [v [Hv Hne]].
    rewrite ?HA, ?Ha, ?Hv; cbn [negb andb default].
    exists (<["authorization" := v]> h).
    split; [reflexivity|]. split; [rewrite header_set_insert_ne by discriminate; exact HA|].
    split; [apply header_set_insert_eq; exact Hne|].
    split.
    { intros k x Hk Hx. destruct (decide (k = "authorization")) as [->|Hn].
      - unfold header_set in Ha. rewrite Hk in Ha. cbn in Ha.
        rewrite (nonempty_eqb _ Hx) in Ha. discriminate.
      - rewrite lookup_insert_ne by congruence. exact Hk. }
    split; [intros k _ Hk; rewrite lookup_insert_ne by congruence; reflexivity|].
    repeat (split; [solve [auto | discriminate]|]). discriminate.
  - destruct (header_set_value _ _ Ha) as [v [Hv Hne]]. rewrite Hv.
    rewrite header_set_insert_ne by discriminate. rewrite Ha. cbn [negb andb default].
    exists (<["Authorization" := v]> h).
    split; [reflexivity|]. split; [apply header_set_insert_eq; exact Hne|].
    split; [rewrite header_set_insert_ne by discriminate; exact Ha|].
    split.
    { intros k x Hk Hx. destruct (decide (k = "Authorization")) as [->|Hn].
      - unfold header_set in HA. rewrite Hk in HA. cbn in HA.
        rewrite (nonempty_eqb _ Hx) in HA. discriminate.
      - rewrite lookup_insert_ne by congruence. exact Hk. }
    split; [intros k Hk _; rewrite lookup_insert_ne by congruence; reflexivity|].
    repeat (split; [solve [auto | discriminate]|]). discriminate.
  - eexists. split; [reflexivity|].
    split; [rewrite header_set_insert_ne by discriminate;
            apply header_set_insert_eq, token_value_nonempty|].
    split; [apply header_set_insert_eq, token_value_nonempty|].
    split.
    { intros k x Hk Hx.
      assert (k <> "Authorization").
      { intros ->. unfold header_set in HA. rewrite Hk in HA. cbn in HA.
        rewrite (nonempty_eqb _ Hx) in HA. discriminate. }
      assert (k <> "authorization").
      { intros ->. unfold header_set in Ha. rewrite Hk in Ha. cbn in Ha.
        rewrite (nonempty_eqb _ Hx) in Ha. discriminate. }
      rewrite !lookup_insert_ne by congruence. exact Hk. }
    split; [intros k ? ?; rewrite !lookup_insert_ne by congruence; reflexivity|].
    repeat (split; [solve [auto | discriminate]|]). reflexivity.
Qed.

(** A config whose two headers are set passes through as it is. *)
Lemma request_interceptor_settled (config : Config) (h : gmap string string) (w : World) :
  headers config = Some h ->
  header_set "Authorization" h = true -> header_set "authorization" h = true ->
  fst (request_interceptor J config w) = Return config.
Proof.
  intros Hh HA Ha. destruct (getAuthData J w) as [r w'] eqn:Hg.
  destruct (getAuthData_returns J w) as [v Hv]. rewrite Hg in Hv. cbn in Hv. subst r.
  destruct (truthy_opt (opt_prop "token" (Some v))) eqn:Ht.
  - destruct (request_interceptor_headers config w w' v Hg Ht)
      as [h' [Hr [_ [_ [_ [_ [Hsame _]]]]]]].
    rewrite Hh in Hsame. rewrite Hr, (Hsame HA Ha). cbn [fst].
    destruct config as [h0 m0 u0]. cbn in Hh. subst h0. reflexivity.
  - rewrite (request_interceptor_no_token J config w w' v Hg Ht). reflexivity.
Qed.

Lemma request_interceptor_world (config : Config) (w : World) :
  snd (request_interceptor J config w) = snd (getAuthData J w).
Proof.
  destruct (getAuthData J w) as [r w'] eqn:Hg.
  destruct (getAuthData_returns J w) as [v Hv]. rewrite Hg in Hv. cbn in Hv. subst r.
  destruct (truthy_opt (opt_prop "token" (Some v))) eqn:Ht.
  - destruct (request_interceptor_headers config w w' v Hg Ht) as [h' [Hr _]].
    rewrite Hr. reflexivity.
  - rewrite (request_interceptor_no_token J config w w' v Hg Ht). reflexivity.
Qed.

End InterceptorFacts.




(** X6.  The request interceptor is idempotent: for every store and every
    config, running it again on its own result, in the world it left,
    returns that result unchanged and leaves that world unchanged. *)
Theorem request_interceptor_idempotent (J : JsonCodec) (config : HttpClient.Config)
    (w : World) :
  exists config',
    fst (HttpClient.request_interceptor J config w) = Return config'
    /\ HttpClient.request_interceptor J config'
         (snd (HttpClient.request_interceptor J config w))
       = (Return config', snd (HttpClient.request_interceptor J config w)).
Proof.
  pose proof (getAuthData_again J w) as Hagain.
  pose proof (request_interceptor_world J config w) as Hw.
  destruct (Session.getAuthData J w) as [r w'] eqn:Hg.
  destruct (getAuthData_returns J w) as [v Hv]. rewrite Hg in Hv. cbn in Hv. subst r.
  cbn [fst snd] in Hagain, Hw. rewrite Hw.
  destruct (truthy_opt (opt_prop "token" (Some v))) eqn:Ht.
  - destruct (request_interceptor_headers J config w w' v Hg Ht)
      as [h' [Hr [HA [Ha _]]]].
    exists (HttpClient.set_headers h' config). rewrite Hr. split; [reflexivity|].
    pose proof (request_interceptor_settled J (HttpClient.set_headers h' config) h' w'
                  eq_refl HA Ha) as H1.
    pose proof (request_interceptor_world J (HttpClient.set_headers h' config) w') as H2.
    rewrite Hagain in H2. cbn [snd] in H2.
    destruct (HttpClient.request_interceptor J (HttpClient.set_headers h' config) w').
    cbn in H1, H2. congruence.
  - exists config. rewrite (request_interceptor_no_token J config w w' v Hg Ht).
    split; [reflexivity|].
    apply (request_interceptor_no_token J config w' w' v Hagain Ht).
Qed.

(** X7.  After an authentication failure no token goes out: once the
    response interceptor has handled a 401 or 403, the request interceptor
    returns every config unchanged and [isAuthenticated] answers [false],
    whatever the store held before. *)
Theorem no_token_after_auth_failure (J : JsonCodec) (e : JsError) (r : Response)
    (w : World) (config : HttpClient.Config) :
  response e = Some r -> status r = 401 \/ status r = 403 ->
  let w' := snd (HttpClient.response_rejected e w) in
  fst (HttpClient.request_interceptor J config w') = Return config
  /\ fst (Session.isAuthenticated J w') = Return false
  /\ snd (HttpClient.request_interceptor J config w') = w'.
Proof.
  intros Hr Hs w'.
  assert (Habs : storage w' !! Session.AUTH_STORAGE_KEY = None).
  { unfold w'. rewrite (response_rejected_auth e r w Hr Hs). cbn. apply lookup_delete_eq. }
  pose proof (getAuthData_absent J w' Habs) as Hg.
  rewrite (request_interceptor_no_token J config w' w' JNull Hg eq_refl).
  split; [reflexivity|]. split; [|reflexivity].
  unfold Session.isAuthenticated, mbind, async_bind, bind. rewrite Hg. reflexivity.
Qed.

Lemma no_token_after_auth_failure_witness :
  fst (HttpClient.request_interceptor MiniJson.codec bare_request
         (snd (HttpClient.response_rejected unauthorized signed_in_world)))
  = Return bare_request.
Proof.
  apply (no_token_after_auth_failure MiniJson.codec unauthorized
           {| status := 401; data := None |} signed_in_world bare_request eq_refl
           (or_introl eq_refl)).
Defined.

(** X8.  The logout callback is a single slot: after two registrations an
    authentication failure calls the second callback once and the first
    one not at all; registering touches neither the storage nor the record
    of calls. *)
Theorem logout_callback_last_registration_wins (a b : Callback) (e : JsError)
    (r : Response) (w : World) :
  response e = Some r -> status r = 401 \/ status r = 403 ->
  let w2 := snd (HttpClient.registerLogoutCallback b
                   (snd (HttpClient.registerLogoutCallback a w))) in
  storage w2 = storage w /\ called w2 = called w
  /\ called (snd (HttpClient.response_rejected e w2)) = called w ++ [b].
Proof.
  intros Hr Hs w2. split; [reflexivity|]. split; [reflexivity|].
  rewrite (response_rejected_auth e r w2 Hr Hs). reflexivity.
Qed.

Lemma logout_callback_last_registration_wins_witness :
  called (snd (HttpClient.response_rejected unauthorized
                 (snd (HttpClient.registerLogoutCallback 5%nat
                         (snd (HttpClient.registerLogoutCallback 4%nat empty_world))))))
  = [5%nat].
Proof.
  apply (logout_callback_last_registration_wins 4%nat 5%nat unauthorized
           {| status := 401; data := None |} empty_world eq_refl (or_introl eq_refl)).
Defined.

(** ** The base url and the employee upload *)

Section UrlFacts.
Import ApiConfig.

Lemma strip_trailing_slash_snoc (base : string) :
  strip_trailing_slash (base +:+ "/") = base.
Proof.
  induction base as [|c rest IH]; [reflexivity|].
  destruct rest as [|d rest']; [reflexivity|].
  change (strip_trailing_slash (String c (String d rest') +:+ "/"))
    with (String c (strip_trailing_slash (String d rest' +:+ "/"))).
  rewrite IH. reflexivity.
Qed.

Lemma strip_trailing_slash_cases (s : string) :
  strip_trailing_slash s = s \/ s = strip_trailing_slash s +:+ "/".
Proof.
  induction s as [|c rest IH]; [left; reflexivity|].
  destruct rest as [|d rest'].
  - cbn. destruct (Ascii.eqb_spec c "/"%char) as [-> | Hc]; [right | left]; reflexivity.
  - change (strip_trailing_slash (String c (String d rest')))
      with (String c (strip_trailing_slash (String d rest'))).
    destruct IH as [IH | IH]; [left | right].
    + rewrite IH. reflexivity.
    + change (String c (strip_trailing_slash (String d rest')) +:+ "/")
        with (String c (strip_trailing_slash (String d rest') +:+ "/")).
      rewrite <- IH. reflexivity.
Qed.

End UrlFacts.

(** X9.  [API_BASE_URL] is the configured base (the production url when
    none is configured, or an empty one) with one trailing slash dropped:
    a base written with a slash at the end gives the same url as without
    it, and any other base is taken as it is.  Only one slash goes: a
    base ending in two keeps one. *)
Theorem api_base_url_trailing_slash (base : string) :
  ApiConfig.API_BASE_URL (Some (base +:+ "/")) = base
  /\ (ApiConfig.API_BASE_URL (Some base) = base
      \/ base = ApiConfig.API_BASE_URL (Some base) +:+ "/"
      \/ base = "")
  /\ ApiConfig.API_BASE_URL (Some (base +:+ "//")) = base +:+ "/"
  /\ ApiConfig.API_BASE_URL None = ApiConfig.DEFAULT_PROD_URL
  /\ ApiConfig.API_BASE_URL (Some "") = ApiConfig.DEFAULT_PROD_URL.
Proof.
  assert (Hne : forall b, String.eqb (b +:+ "/") "" = false).
  { intros b. destruct b; reflexivity. }
  split; [|split; [|split; [|split; reflexivity]]].
  - unfold ApiConfig.API_BASE_URL. rewrite Hne. apply strip_trailing_slash_snoc.
  - unfold ApiConfig.API_BASE_URL. destruct (String.eqb_spec base "") as [-> | Hb].
    + right. right. reflexivity.
    + destruct (strip_trailing_slash_cases base) as [H | H]; [left | right; left]; exact H.
  - replace (base +:+ "//") with ((base +:+ "/") +:+ "/").
    + unfold ApiConfig.API_BASE_URL. rewrite Hne. apply strip_trailing_slash_snoc.
    + induction base as [|c rest IH]; [reflexivity|].
      change (String c ((rest +:+ "/") +:+ "/") = String c (rest +:+ "//")).
      rewrite IH. reflexivity.
Qed.

Section UploadFacts.
Import Session EmployeeApi.
Variable J : JsonCodec.

Lemma registerEmployee_run (base : string) (fd : FormData)
    (fetch : FetchCall -> completion FetchResponse) (w w' : World) (auth : json) :
  getAuthData J w = (Return auth, w') ->
  registerEmployee J base fd fetch w
  = (match fetch (register_call base auth fd) with
     | Return res =>
         if res_ok res
         then Return {| status := res_status res; data := Some (read_body res) |}
         else Throw {| Js.message := Some "Request failed";
                       response := Some {| status := res_status res;
                                           data := Some (read_body res) |} |}
     | Throw e => Throw (register_rethrow e)
     end, w').
Proof.
  intros Hg. unfold registerEmployee, mbind, async_bind, bind. rewrite Hg.
  destruct (fetch (register_call base auth fd)) as [res | e]; [|reflexivity].
  destruct (res_ok res); reflexivity.
Qed.

End UploadFacts.

(** X10.  How [registerEmployee] settles, for every store and every
    answer of [fetch]: it resolves exactly when [fetch] resolved with
    [res.ok], and then with the status and the body read; when the server
    answered otherwise it rejects with an error whose [response] carries
    that status and body; when [fetch] itself rejected with an error that
    has no [response], it rejects with an error without [response] whose
    message is not empty.  The body is the JSON read, else the raw text
    under [_rawText], else [null]. *)
Theorem registerEmployee_settles (J : JsonCodec) (base : string) (fd : FormData)
    (fetch : EmployeeApi.FetchCall -> completion EmployeeApi.FetchResponse) (w : World) :
  exists auth,
    fst (Session.getAuthData J w) = Return auth
    /\ snd (EmployeeApi.registerEmployee J base fd fetch w) = snd (Session.getAuthData J w)
    /\ let out := fst (EmployeeApi.registerEmployee J base fd fetch w) in
       let asked := fetch (EmployeeApi.register_call base auth fd) in
       (forall result, out = Return result <->
          exists res, asked = Return res /\ EmployeeApi.res_ok res = true
                      /\ result = {| status := EmployeeApi.res_status res;
                                     data := Some (EmployeeApi.read_body res) |})
       /\ (forall res, asked = Return res -> EmployeeApi.res_ok res = false ->
             exists e, out = Throw e
                       /\ response e = Some {| status := EmployeeApi.res_status res;
                                               data := Some (EmployeeApi.read_body res) |})
       /\ (forall e, asked = Throw e ->
             exists e', out = Throw e' /\ response e' = response e
                        /\ (response e = None ->
                            exists m, Js.message e' = Some m /\ m <> ""
                                      /\ (forall m0, Js.message e = Some m0 -> m0 <> "" ->
                                                     m = m0))).
Proof.
  destruct (Session.getAuthData J w) as [r w'] eqn:Hg.
  destruct (getAuthData_returns J w) as [auth Hv]. rewrite Hg in Hv. cbn in Hv. subst r.
  exists auth. split; [reflexivity|].
  rewrite (registerEmployee_run J base fd fetch w w' auth Hg). cbn [fst snd].
  split; [reflexivity|].
  destruct (fetch (EmployeeApi.register_call base auth fd)) as [res | e].
  - split; [|split].
    + intros result. destruct (EmployeeApi.res_ok res) eqn:Hok; split.
      * intros H. inversion H. exists res. auto.
      * intros [res' [Hr [_ ->]]]. inversion Hr. reflexivity.
      * discriminate.
      * intros [res' [Hr [Hok' _]]]. inversion Hr; subst res'. congruence.
    + intros res' Hr Hok. inversion Hr; subst res'. rewrite Hok.
      eexists. split; reflexivity.
    + discriminate.
  - split; [|split].
    + intros result. split; [discriminate|]. intros [res [Hr _]]. discriminate.
    + discriminate.
    + intros e0 He. inversion He; subst e0. eexists. split; [reflexivity|].
      unfold EmployeeApi.register_rethrow. destruct (response e) eqn:Hresp.
      * split; [exact Hresp|]. discriminate.
      * split; [reflexivity|]. intros _. cbn [Js.message].
        destruct (Js.message e) as [m|].
        -- destruct (String.eqb_spec m "") as [-> | Hm].
           ++ eexists. split; [reflexivity|]. split; [discriminate|].
              intros m0 H0 Hne. inversion H0. congruence.
           ++ exists m. split; [reflexivity|]. split; [exact Hm|].
              intros m0 H0 _. congruence.
        -- eexists. split; [reflexivity|]. split; [discriminate|]. discriminate.
Qed.

(** X11.  The upload bypasses axios, and attaches the same credential:
    for every store, the [Authorization] header of the [fetch] call of
    [registerEmployee] is the one the request interceptor puts on a request
    without headers ([Token] and the stored token, or none).  The call is a
    POST to [base/register/] with the form as body, and never carries the
    lower-case [authorization] header. *)
Theorem registerEmployee_header_matches_interceptor (J : JsonCodec) (base : string)
    (fd : FormData) (w : World) (m u : option string) :
  exists auth config',
    fst (Session.getAuthData J w) = Return auth
    /\ fst (HttpClient.request_interceptor J
              {| HttpClient.headers := None; HttpClient.method := m; HttpClient.url := u |} w)
       = Return config'
    /\ let call := EmployeeApi.register_call base auth fd in
       default ∅ (EmployeeApi.fetch_headers call) !! "Authorization"
       = default ∅ (HttpClient.headers config') !! "Authorization"
       /\ default ∅ (EmployeeApi.fetch_headers call) !! "authorization" = None
       /\ EmployeeApi.fetch_url call = base +:+ "/register/"
       /\ EmployeeApi.fetch_method call = "POST"
       /\ EmployeeApi.fetch_body call = fd.
Proof.
  destruct (Session.getAuthData J w) as [r w'] eqn:Hg.
  destruct (getAuthData_returns J w) as [auth Hv]. rewrite Hg in Hv. cbn in Hv. subst r.
  exists auth. unfold EmployeeApi.register_call. cbn [EmployeeApi.fetch_headers
    EmployeeApi.fetch_url EmployeeApi.fetch_method EmployeeApi.fetch_body].
  destruct (truthy_opt (opt_prop "token" (Some auth))) eqn:Ht.
  - destruct (request_interceptor_headers J
                {| HttpClient.headers := None; HttpClient.method := m; HttpClient.url := u |}
                w w' auth Hg Ht) as [h' [Hr [_ [_ [_ [_ [_ [_ [_ Hnone]]]]]]]]].
    cbn [HttpClient.headers] in Hnone. specialize (Hnone eq_refl eq_refl).
    eexists. rewrite Hr. split; [reflexivity|]. split; [reflexivity|].
    cbn [HttpClient.set_headers HttpClient.headers default from_option id]. rewrite Hnone.
    split; [|split; [|auto]].
    + rewrite lookup_insert_ne by discriminate. rewrite lookup_insert_eq.
      rewrite lookup_singleton_eq. reflexivity.
    + apply lookup_singleton_ne. discriminate.
  - eexists. rewrite (request_interceptor_no_token J _ w w' auth Hg Ht).
    split; [reflexivity|]. split; [reflexivity|]. cbn. auto.
Qed.

(** ** The auth provider *)

Section ProviderFacts.
Import Session AuthContext.
Variable J : JsonCodec.

Lemma setAuthData_returns (a : json) (w : World) : fst (setAuthData J a w) = Return tt.
Proof. rewrite setAuthData_cases. destruct (truthy a); reflexivity. Qed.

Lemma login_store_run (data : json) (w : World) :
  login_store J data w = (Return tt, snd (getAuthData J (snd (setAuthData J data w)))).
Proof.
  unfold login_store, try_catch, mbind, async_bind, bind.
  pose proof (setAuthData_returns data w) as Hs.
  destruct (setAuthData J data w) as [r1 w1]. cbn in Hs. subst r1. cbn [snd].
  destruct (getAuthData_returns J w1) as [v Hv].
  destruct (getAuthData J w1) as [r2 w2]. cbn in Hv. subst r2. reflexivity.
Qed.

Lemma login_run (data : json) (p : Provider) (w : World) :
  login J data p w
  = (Return (if truthy_opt (opt_prop "token" (Some data))
             then set_token_headers (opt_prop "token" (Some data)) (set_auth data p)
             else set_auth data p),
     snd (getAuthData J (snd (setAuthData J data w)))).
Proof. unfold login, mbind, async_bind, bind. rewrite login_store_run. reflexivity. Qed.

Lemma login_persists_and_store (fields : list (string * json)) (p : Provider) (w : World) :
  JSON_parse J (JSON_stringify J (JObj fields)) = Some (JObj fields) ->
  JSON_stringify J (JObj fields) <> "" ->
  snd (login J (JObj fields) p w) = snd (setAuthData J (JObj fields) w)
  /\ getAuthData J (snd (login J (JObj fields) p w))
     = (Return (JObj fields), snd (login J (JObj fields) p w)).
Proof.
  intros Hrt Hne.
  assert (Hg : getAuthData J (snd (setAuthData J (JObj fields) w))
               = (Return (JObj fields), snd (setAuthData J (JObj fields) w))).
  { eapply getAuthData_parsed; [|exact Hne|exact Hrt].
    rewrite setAuthData_object_storage. apply lookup_insert_eq. }
  rewrite login_run. cbn [snd]. rewrite Hg. cbn [snd]. split; [reflexivity|exact Hg].
Qed.

Lemma set_token_headers_twice (token : option json) (p : Provider) :
  set_token_headers token (set_token_headers token p) = set_token_headers token p.
Proof.
  unfold set_token_headers, set_defaults. cbn [defaults_headers auth loading].
  f_equal. f_equal. apply map_eq. intros k.
  destruct (decide (k = "authorization")) as [-> | Ha];
    [rewrite !lookup_insert_eq; reflexivity|].
  rewrite !(lookup_insert_ne _ "authorization") by congruence.
  destruct (decide (k = "Authorization")) as [-> | HA];
    [rewrite !lookup_insert_eq; reflexivity|].
  rewrite !(lookup_insert_ne _ "Authorization") by congruence.
  rewrite !(lookup_insert_ne _ "authorization") by congruence.
  rewrite !(lookup_insert_ne _ "Authorization") by congruence. reflexivity.
Qed.

Lemma initAuth_run (p : Provider) (w : World) :
  exists v, fst (getAuthData J w) = Return v
            /\ initAuth J p w = (Return (set_loading false (set_auth v p)), snd (getAuthData J w)).
Proof.
  destruct (getAuthData_returns J w) as [v Hv]. exists v. split; [exact Hv|].
  unfold initAuth, try_catch, mbind, async_bind, bind.
  destruct (getAuthData J w) as [r w']. cbn in Hv. subst r. reflexivity.
Qed.

Lemma mount_run (w : World) :
  exists v,
    fst (getAuthData J w) = Return v
    /\ mount J w
       = (Return (sync_headers (set_loading false (set_auth v (sync_headers initial)))),
          {| storage := storage (snd (getAuthData J w));
             logoutCallback := Some auth_hook;
             called := called w |}).
Proof.
  set (w1 := {| storage := storage w; logoutCallback := Some auth_hook; called := called w |}).
  assert (Hsame : exists v, getAuthData J w = (Return v, snd (getAuthData J w))
                            /\ getAuthData J w1
                               = (Return v, {| storage := storage (snd (getAuthData J w));
                                               logoutCallback := Some auth_hook;
                                               called := called w |})).
  { destruct (storage w !! AUTH_STORAGE_KEY) as [text|] eqn:H.
    - destruct (decide (text = "")) as [->|Hne].
      + exists JNull. rewrite (getAuthData_empty J w H), (getAuthData_empty J w1 H). auto.
      + destruct (JSON_parse J text) as [v|] eqn:Hp.
        * exists v. rewrite (getAuthData_parsed J w text v H Hne Hp),
                     (getAuthData_parsed J w1 text v H Hne Hp). auto.
        * exists JNull. rewrite (getAuthData_corrupt J w text H Hne Hp),
                         (getAuthData_corrupt J w1 text H Hne Hp). auto.
    - exists JNull. rewrite (getAuthData_absent J w H), (getAuthData_absent J w1 H). auto. }
  destruct Hsame as [v [Hw Hw1]]. exists v. split; [rewrite Hw; reflexivity|].
  unfold mount, mbind, async_bind, bind, HttpClient.registerLogoutCallback. fold w1.
  unfold initAuth, try_catch, mbind, async_bind, bind. rewrite Hw1. reflexivity.
Qed.

Lemma sync_headers_signed_out (p : Provider) (k : string) :
  truthy_opt (opt_prop "token" (Some (auth p))) = false ->
  default ∅ (defaults_headers (sync_headers p)) !! k
  = if bool_decide (k = "Authorization" \/ k = "authorization") then None
    else default ∅ (defaults_headers p) !! k.
Proof.
  intros Ht. unfold sync_headers. rewrite Ht.
  destruct (defaults_headers p) as [h|] eqn:Hd;
    cbn [set_defaults defaults_headers default from_option id]; rewrite ?Hd;
    cbn [default from_option id].
  - case_bool_decide as Hk.
    + destruct Hk as [-> | ->].
      * rewrite lookup_delete_ne by discriminate. apply lookup_delete_eq.
      * apply lookup_delete_eq.
    + rewrite !lookup_delete_ne; [reflexivity| |]; intros <-; apply Hk; auto.
  - case_bool_decide; [|reflexivity]. apply lookup_empty.
Qed.

Lemma set_token_headers_lookup (token : option json) (p : Provider) (k : string) :
  default ∅ (defaults_headers (set_token_headers token p)) !! k
  = if bool_decide (k = "Authorization" \/ k = "authorization")
    then Some ("Token " +:+ to_string_opt token)
    else default ∅ (defaults_headers p) !! k.
Proof.
  unfold set_token_headers. cbn [set_defaults defaults_headers default from_option id].
  assert (Hh : match defaults_headers p with Some h => h | None => ∅ end
               = default ∅ (defaults_headers p)).
  { destruct (defaults_headers p); reflexivity. }
  rewrite Hh. case_bool_decide as Hk.
  - destruct Hk as [-> | ->].
    + rewrite lookup_insert_ne by discriminate. apply lookup_insert_eq.
    + apply lookup_insert_eq.
  - rewrite !lookup_insert_ne; [reflexivity| |]; intros <-; apply Hk; auto.
Qed.

End ProviderFacts.

(** X12.  [login] persists and authenticates.  It never throws and always
    sets the context to the record it is given.  For a record that
    [JSON.parse] reads back from its [JSON.stringify] text and whose token
    is a non-empty string [t]: the store then holds that text under the
    auth key and reads back as the record, the context is authenticated,
    both default authorization headers of the client are ["Token " ++ t],
    every other default header is as before, and the header effect that
    follows changes nothing more. *)
Theorem login_persists_and_authenticates (J : JsonCodec) (fields : list (string * json))
    (t : string) (p : AuthContext.Provider) (w : World) :
  JSON_parse J (JSON_stringify J (JObj fields)) = Some (JObj fields) ->
  JSON_stringify J (JObj fields) <> "" ->
  assoc "token" fields = Some (JStr t) -> t <> "" ->
  exists p' w',
    AuthContext.login J (JObj fields) p w = (Return p', w')
    /\ storage w' = <[Session.AUTH_STORAGE_KEY := JSON_stringify J (JObj fields)]> (storage w)
    /\ fst (Session.getAuthData J w') = Return (JObj fields)
    /\ AuthContext.auth p' = JObj fields
    /\ AuthContext.loading p' = AuthContext.loading p
    /\ AuthContext.isAuthenticated p' = true
    /\ (forall k, default ∅ (AuthContext.defaults_headers p') !! k
                  = if bool_decide (k = "Authorization" \/ k = "authorization")
                    then Some ("Token " +:+ t)
                    else default ∅ (AuthContext.defaults_headers p) !! k)
    /\ AuthContext.sync_headers p' = p'.
Proof.
  intros Hrt Hne Htok Ht.
  assert (Htr : truthy_opt (opt_prop "token" (Some (JObj fields))) = true).
  { cbn. rewrite Htok. cbn. rewrite (nonempty_eqb _ Ht). reflexivity. }
  assert (Hg : Session.getAuthData J (snd (Session.setAuthData J (JObj fields) w))
               = (Return (JObj fields), snd (Session.setAuthData J (JObj fields) w))).
  { eapply getAuthData_parsed; [|exact Hne|exact Hrt].
    rewrite setAuthData_object_storage. apply lookup_insert_eq. }
  eexists. eexists. split; [apply login_run|]. rewrite Htr, Hg. cbn [snd].
  split; [apply setAuthData_object_storage|]. split; [rewrite Hg; reflexivity|].
  split; [reflexivity|]. split; [reflexivity|].
  split; [exact Htr|]. split.
  - intros k. rewrite set_token_headers_lookup. cbn [opt_prop prop]. rewrite Htok.
    reflexivity.
  - unfold AuthContext.sync_headers.
    change (AuthContext.auth (AuthContext.set_token_headers _ _)) with (JObj fields).
    rewrite Htr. apply set_token_headers_twice.
Qed.

Lemma login_persists_and_authenticates_witness :
  exists p' w',
    AuthContext.login MiniJson.codec (JObj sample_auth) AuthContext.initial empty_world
    = (Return p', w')
    /\ AuthContext.isAuthenticated p' = true
    /\ default ∅ (AuthContext.defaults_headers p') !! "Authorization" = Some "Token t0k"
    /\ default ∅ (AuthContext.defaults_headers p') !! "X-Requested-With"
       = Some "XMLHttpRequest".
Proof.
  destruct (login_persists_and_authenticates MiniJson.codec sample_auth "t0k"
              AuthContext.initial empty_world)
    as [p' [w' [H1 [_ [_ [_ [_ [H2 [H3 _]]]]]]]]].
  - vm_compute. reflexivity.
  - vm_compute. discriminate.
  - reflexivity.
  - discriminate.
  - exists p', w'. split; [exact H1|]. split; [exact H2|].
    split; [rewrite H3; reflexivity|]. rewrite H3. reflexivity.
Defined.

(** X13.  [logout] signs out everywhere: for every context and store it
    resolves with the context set to [null], not authenticated, and the
    auth key removed; the header effect that follows then deletes both
    default authorization headers and keeps every other default header;
    and from then on the request interceptor attaches nothing. *)
Theorem logout_clears_store_and_headers (J : JsonCodec) (p : AuthContext.Provider)
    (w : World) (config : HttpClient.Config) :
  exists p' w',
    AuthContext.logout p w = (Return p', w')
    /\ storage w' = delete Session.AUTH_STORAGE_KEY (storage w)
    /\ AuthContext.auth p' = JNull
    /\ AuthContext.isAuthenticated p' = false
    /\ (forall k, default ∅ (AuthContext.defaults_headers (AuthContext.sync_headers p')) !! k
                  = if bool_decide (k = "Authorization" \/ k = "authorization") then None
                    else default ∅ (AuthContext.defaults_headers p) !! k)
    /\ HttpClient.request_interceptor J config w' = (Return config, w').
Proof.
  eexists. eexists. unfold AuthContext.logout, mbind, async_bind, bind.
  rewrite clearAuthData_world. cbn [ret]. split; [reflexivity|].
  split; [cbn; apply delete_twice|]. split; [reflexivity|]. split; [reflexivity|].
  split.
  - intros k. rewrite sync_headers_signed_out by reflexivity. reflexivity.
  - apply (request_interceptor_no_token J config _ _ JNull); [|reflexivity].
    apply getAuthData_absent. cbn. apply lookup_delete_eq.
Qed.

(** X14.  A session survives a restart, a logout does not.  For a record
    that [JSON.parse] reads back and whose token is a non-empty string
    [t]: mounting a fresh provider on the store [login] left gives a
    context that holds the record, has finished loading, is authenticated
    and has both default headers at ["Token " ++ t].  Mounting on the
    store any [logout] left gives a context with [null], not
    authenticated, without default authorization headers.  Either way the
    provider's hook is the registered logout callback. *)
Theorem session_survives_restart (J : JsonCodec) (fields : list (string * json))
    (t : string) (p : AuthContext.Provider) (w : World) :
  JSON_parse J (JSON_stringify J (JObj fields)) = Some (JObj fields) ->
  JSON_stringify J (JObj fields) <> "" ->
  assoc "token" fields = Some (JStr t) -> t <> "" ->
  (exists p2 w2,
      AuthContext.mount J (snd (AuthContext.login J (JObj fields) p w)) = (Return p2, w2)
      /\ AuthContext.auth p2 = JObj fields
      /\ AuthContext.loading p2 = false
      /\ AuthContext.isAuthenticated p2 = true
      /\ default ∅ (AuthContext.defaults_headers p2) !! "Authorization"
         = Some ("Token " +:+ t)
      /\ default ∅ (AuthContext.defaults_headers p2) !! "authorization"
         = Some ("Token " +:+ t)
      /\ logoutCallback w2 = Some AuthContext.auth_hook)
  /\ (exists p2 w2,
        AuthContext.mount J (snd (AuthContext.logout p w)) = (Return p2, w2)
        /\ AuthContext.auth p2 = JNull
        /\ AuthContext.loading p2 = false
        /\ AuthContext.isAuthenticated p2 = false
        /\ default ∅ (AuthContext.defaults_headers p2) !! "Authorization" = None
        /\ default ∅ (AuthContext.defaults_headers p2) !! "authorization" = None
        /\ logoutCallback w2 = Some AuthContext.auth_hook).
Proof.
  intros Hrt Hne Htok Ht. split.
  - destruct (login_persists_and_store J fields p w Hrt Hne) as [Hw Hg].
    destruct (mount_run J (snd (AuthContext.login J (JObj fields) p w))) as [v [Hv Hm]].
    rewrite Hg in Hv. cbn in Hv. inversion Hv; subst v.
    eexists. eexists. split; [exact Hm|].
    assert (Htr : truthy_opt (opt_prop "token" (Some (JObj fields))) = true).
    { cbn. rewrite Htok. cbn. rewrite (nonempty_eqb _ Ht). reflexivity. }
    split; [unfold AuthContext.sync_headers at 1; cbn [AuthContext.auth AuthContext.set_loading AuthContext.set_auth]; rewrite Htr; reflexivity|].
    split; [unfold AuthContext.sync_headers at 1; cbn [AuthContext.auth AuthContext.set_loading AuthContext.set_auth]; rewrite Htr; reflexivity|].
    split; [unfold AuthContext.sync_headers at 1; cbn [AuthContext.auth AuthContext.set_loading AuthContext.set_auth]; rewrite Htr; exact Htr|].
    assert (Hk : forall k, k = "Authorization" \/ k = "authorization" ->
              default ∅ (AuthContext.defaults_headers
                           (AuthContext.sync_headers
                              (AuthContext.set_loading false
                                 (AuthContext.set_auth (JObj fields)
                                    (AuthContext.sync_headers AuthContext.initial))))) !! k
              = Some ("Token " +:+ t)).
    { intros k Hk. unfold AuthContext.sync_headers at 1.
      cbn [AuthContext.auth AuthContext.set_loading AuthContext.set_auth]. rewrite Htr.
      rewrite set_token_headers_lookup. rewrite bool_decide_eq_true_2 by exact Hk.
      cbn [opt_prop prop]. rewrite Htok. reflexivity. }
    split; [apply Hk; auto|]. split; [apply Hk; auto|]. reflexivity.
  - destruct (mount_run J (snd (AuthContext.logout p w))) as [v [Hv Hm]].
    assert (Hg : Session.getAuthData J (snd (AuthContext.logout p w))
                 = (Return JNull, snd (AuthContext.logout p w))).
    { apply getAuthData_absent. unfold AuthContext.logout, mbind, async_bind, bind.
      rewrite clearAuthData_world. cbn. apply lookup_delete_eq. }
    rewrite Hg in Hv. cbn in Hv. inversion Hv; subst v.
    eexists. eexists. split; [exact Hm|].
    split; [reflexivity|]. split; [reflexivity|]. split; [reflexivity|].
    split; [|split; [|reflexivity]]; rewrite sync_headers_signed_out by reflexivity;
      reflexivity.
Qed.

Lemma session_survives_restart_witness :
  exists p2 w2,
    AuthContext.mount MiniJson.codec
      (snd (AuthContext.login MiniJson.codec (JObj sample_auth) AuthContext.initial
              empty_world)) = (Return p2, w2)
    /\ AuthContext.auth p2 = JObj sample_auth
    /\ AuthContext.isAuthenticated p2 = true.
Proof.
  destruct (proj1 (session_survives_restart MiniJson.codec sample_auth "t0k"
                     AuthContext.initial empty_world
                     ltac:(vm_compute; reflexivity) ltac:(vm_compute; discriminate)
                     eq_refl ltac:(discriminate)))
    as [p2 [w2 [H1 [H2 [_ [H3 _]]]]]].
  exists p2, w2. split; [exact H1|]. split; [exact H2|exact H3].
Defined.

(** X15.  An authentication failure signs the context out.  With the
    provider's hook registered as the logout callback, a rejected response
    with status 401 or 403 leaves, whatever the context held: the auth key
    removed from the store, the context at [null] and not authenticated,
    both default authorization headers deleted and every other default
    header kept; the error is passed on.  A rejection with any other
    status, or without a response, leaves context and world as they
    were. *)
Theorem auth_failure_signs_context_out (e : JsError) (p : AuthContext.Provider)
    (w : World) :
  logoutCallback w = Some AuthContext.auth_hook ->
  let out := AuthContext.under_provider (HttpClient.response_rejected e) p w in
  fst (fst out) = Throw e
  /\ (forall r, response e = Some r -> status r = 401 \/ status r = 403 ->
        storage (snd (fst out)) = delete Session.AUTH_STORAGE_KEY (storage w)
        /\ AuthContext.auth (snd out) = JNull
        /\ AuthContext.isAuthenticated (snd out) = false
        /\ AuthContext.loading (snd out) = AuthContext.loading p
        /\ (forall k, default ∅ (AuthContext.defaults_headers (snd out)) !! k
                      = if bool_decide (k = "Authorization" \/ k = "authorization")
                        then None
                        else default ∅ (AuthContext.defaults_headers p) !! k))
  /\ ((forall r, response e = Some r -> status r <> 401 /\ status r <> 403) ->
      out = (Throw e, w, p)).
Proof.
  intros Hcb out. unfold out, AuthContext.under_provider. split; [|split].
  - cbn [fst].
    destruct (response e) as [r|] eqn:Hr.
    + destruct (decide (status r = 401 \/ status r = 403)) as [Hs | Hs].
      * rewrite (response_rejected_auth e r w Hr Hs). reflexivity.
      * rewrite (response_rejected_other e w); [reflexivity|].
        intros r' Hr'. assert (r' = r) as -> by congruence.
        split; intros H; apply Hs; auto.
    + rewrite (response_rejected_other e w); [reflexivity|]. intros r' Hr'. congruence.
  - intros r Hr Hs. rewrite (response_rejected_auth e r w Hr Hs). rewrite Hcb.
    cbn [fst snd called storage]. rewrite drop_app_length.
    cbn [existsb Nat.eqb AuthContext.auth_hook orb].
    split; [reflexivity|]. split; [|split; [|split]].
    + unfold AuthContext.sync_headers, AuthContext.on_hook. cbn.
      destruct (AuthContext.defaults_headers p); reflexivity.
    + unfold AuthContext.isAuthenticated, AuthContext.sync_headers, AuthContext.on_hook. cbn.
      destruct (AuthContext.defaults_headers p); reflexivity.
    + unfold AuthContext.sync_headers, AuthContext.on_hook. cbn.
      destruct (AuthContext.defaults_headers p); reflexivity.
    + intros k. rewrite sync_headers_signed_out by reflexivity. reflexivity.
  - intros Hother. rewrite (response_rejected_other e w Hother). cbn [snd].
    rewrite drop_all. reflexivity.
Qed.

Lemma auth_failure_signs_context_out_witness :
  AuthContext.auth
    (snd (AuthContext.under_provider (HttpClient.response_rejected unauthorized)
            signed_in_provider signed_in_world)) = JNull.
Proof.
  apply (proj1 (proj2 (proj1 (proj2 (auth_failure_signs_context_out unauthorized
                  signed_in_provider signed_in_world eq_refl))
                  {| status := 401; data := None |} eq_refl (or_introl eq_refl)))).
Defined.

(** ** Toasts of the attendance screen, call after call *)

Section ToastSequences.
Import Attendance.

Lemma showToast_stamp (now_key now_id : Z) (msg : json) (ty : ToastType)
    (opts : ToastOpts) (k : string) (s : Screen) :
  k <> "" -> throttled (Some k) now_key s = false ->
  lastToastTimeRef (showToast now_key now_id msg ty opts (Some k) s)
  = <[k := now_key]> (lastToastTimeRef s).
Proof.
  intros Hk Hth. unfold showToast. rewrite Hth, (nonempty_eqb _ Hk). reflexivity.
Qed.

Lemma showToast_keyless (now_key now_id : Z) (msg : json) (ty : ToastType)
    (opts : ToastOpts) (s : Screen) :
  toasts (showToast now_key now_id msg ty opts None s)
  = toasts s ++ [mkToast (pretty now_id) msg ty opts].
Proof. reflexivity. Qed.

End ToastSequences.

(** X16.  The throttle of [showToast] is a window of 3000 ms per key.
    After a toast with a non-empty key was shown at a time other than 0: a
    second call with that key less than 3000 ms later changes nothing at
    all; a call 3000 ms later or more is shown; calls with another key are
    throttled exactly as before; and a call without a key, or with the
    empty key, is never throttled. *)
Theorem showToast_throttle_window (k : string) (t1 i1 : Z) (m1 : json)
    (ty1 : Attendance.ToastType) (o1 : Attendance.ToastOpts) (s : Attendance.Screen) :
  k <> "" -> t1 <> 0 -> Attendance.throttled (Some k) t1 s = false ->
  let s1 := Attendance.showToast t1 i1 m1 ty1 o1 (Some k) s in
  (forall t2 i2 m2 ty2 o2, t2 - t1 < 3000 ->
      Attendance.showToast t2 i2 m2 ty2 o2 (Some k) s1 = s1)
  /\ (forall t2 i2 m2 ty2 o2, 3000 <= t2 - t1 ->
        Attendance.toasts (Attendance.showToast t2 i2 m2 ty2 o2 (Some k) s1)
        = Attendance.toasts s ++ [Attendance.mkToast (pretty i1) m1 ty1 o1;
                                  Attendance.mkToast (pretty i2) m2 ty2 o2])
  /\ (forall k' t2, k' <> k ->
        Attendance.throttled (Some k') t2 s1 = Attendance.throttled (Some k') t2 s)
  /\ (forall t2 s0, Attendance.throttled None t2 s0 = false
                    /\ Attendance.throttled (Some "") t2 s0 = false).
Proof.
  intros Hk Ht1 Hth s1.
  assert (Hstamp : Attendance.lastToastTimeRef s1 = <[k := t1]> (Attendance.lastToastTimeRef s)).
  { apply showToast_stamp; assumption. }
  assert (Hthr : forall t2, Attendance.throttled (Some k) t2 s1 = (t2 - t1 <? 3000)).
  { intros t2. unfold Attendance.throttled. rewrite (nonempty_eqb _ Hk), Hstamp.
    rewrite lookup_insert_eq. apply Z.eqb_neq in Ht1. rewrite Ht1. reflexivity. }
  split; [|split; [|split]].
  - intros t2 i2 m2 ty2 o2 Hlt. apply showToast_throttled. rewrite Hthr.
    apply Z.ltb_lt. exact Hlt.
  - intros t2 i2 m2 ty2 o2 Hge.
    assert (Hopen : Attendance.throttled (Some k) t2 s1 = false).
    { rewrite Hthr. apply Z.ltb_ge. exact Hge. }
    rewrite (proj1 (showToast_shown t2 i2 m2 ty2 o2 (Some k) s1 Hopen)).
    unfold s1. rewrite (proj1 (showToast_shown t1 i1 m1 ty1 o1 (Some k) s Hth)).
    rewrite <- app_assoc. reflexivity.
  - intros k' t2 Hne. unfold Attendance.throttled. rewrite Hstamp.
    rewrite lookup_insert_ne by congruence. reflexivity.
  - intros t2 s0. split; reflexivity.
Qed.

Lemma showToast_throttle_window_witness :
  Attendance.showToast 1700000002000 1700000002001 (JStr "again") Attendance.error
    Attendance.no_opts (Some "attendance-error")
    (Attendance.showToast 1700000000000 1700000000001 (JStr "first") Attendance.error
       Attendance.no_opts (Some "attendance-error") Loop.initial)
  = Attendance.showToast 1700000000000 1700000000001 (JStr "first") Attendance.error
      Attendance.no_opts (Some "attendance-error") Loop.initial.
Proof.
  apply (proj1 (showToast_throttle_window "attendance-error" 1700000000000 1700000000001
                  (JStr "first") Attendance.error Attendance.no_opts Loop.initial
                  ltac:(discriminate) ltac:(discriminate) eq_refl)).
  reflexivity.
Defined.

(** X17.  Toast ids are the millisecond of their creation, so two toasts
    shown in the same millisecond share one id: after two toasts without a
    key, removing the id of the first also removes the second exactly when
    both were created at the same [Date.now()]; created at different
    times, the second stays. *)
Theorem same_millisecond_toasts_share_an_id (n1 n2 k1 k2 : Z) (m1 m2 : json)
    (ty1 ty2 : Attendance.ToastType) (o1 o2 : Attendance.ToastOpts)
    (s : Attendance.Screen) :
  let s2 := Attendance.showToast k2 n2 m2 ty2 o2 None
              (Attendance.showToast k1 n1 m1 ty1 o1 None s) in
  Attendance.toasts s2
  = Attendance.toasts s ++ [Attendance.mkToast (pretty n1) m1 ty1 o1;
                            Attendance.mkToast (pretty n2) m2 ty2 o2]
  /\ Attendance.toasts (Attendance.removeToast (pretty n1) s2)
     = Attendance.toasts (Attendance.removeToast (pretty n1) s)
       ++ (if decide (n1 = n2) then [] else [Attendance.mkToast (pretty n2) m2 ty2 o2]).
Proof.
  intros s2. assert (H2 : Attendance.toasts s2
                          = Attendance.toasts s ++ [Attendance.mkToast (pretty n1) m1 ty1 o1;
                                                    Attendance.mkToast (pretty n2) m2 ty2 o2]).
  { unfold s2. rewrite !showToast_keyless, <- app_assoc. reflexivity. }
  split; [exact H2|].
  unfold Attendance.removeToast. cbn [Attendance.toasts Attendance.set_toasts].
  rewrite H2, filter_app. f_equal.
  rewrite filter_cons. cbn [Attendance.id Attendance.mkToast].
  destruct (decide (pretty n1 <> pretty n1)) as [Hbad | _]; [contradiction|].
  rewrite filter_cons, filter_nil. cbn [Attendance.id Attendance.mkToast].
  destruct (decide (n1 = n2)) as [-> | Hne].
  - destruct (decide (pretty n2 <> pretty n2)) as [Hbad | _]; [contradiction|]. reflexivity.
  - destruct (decide (pretty n2 <> pretty n1)) as [_ | Heq]; [reflexivity|].
    exfalso. apply Hne. apply (inj pretty). destruct (decide (pretty n1 = pretty n2)); [assumption|].
    exfalso. apply Heq. congruence.
Qed.

(** ** One capture: answers and cooldowns *)

Section CaptureOutcomes.
Import Attendance Loop.

Lemma fetchGeolocation_spoken (g : GeoEnv) (s : Screen) :
  spoken (snd (fetchGeolocation g s)) = spoken s.
Proof.
  unfold fetchGeolocation, fetchGeolocation_catch.
  destruct (requestForegroundPermissions g) as [st|e].
  - destruct (is_granted st); cbn; [|reflexivity].
    destruct (getCurrentPosition g); [reflexivity|].
    destruct (getForegroundPermissions g); reflexivity.
  - destruct (getForegroundPermissions g); reflexivity.
Qed.

(** A run that passed the guard: the state the last block starts from. *)
Lemma captureAndSend_run_ui (env : CaptureEnv) (s : Screen) :
  cameraRef s = true -> isProcessingRef s = false ->
  exists s1,
    (cameraActive s1 = cameraActive s /\ started s1 = started s
     /\ requests s1 = requests s /\ lastCaptureTimeRef s1 = now_enter env
     /\ nextAllowedCaptureAtRef s1 = Z.max (nextAllowedCaptureAtRef s) (now_enter env)
     /\ toasts s1 = toasts s /\ spoken s1 = spoken s)
    /\ captureAndSend env s
       = match located env s with
         | Throw e => captureAndSend_catch e (now_key env) (now_id env) (now_done env) s1
         | Return None =>
             captureAndSend_no_location (now_key env) (now_id env) (now_done env) s1
         | Return (Some geoData) =>
             match picture env with
             | Throw e =>
                 captureAndSend_catch e (now_key env) (now_id env) (now_done env) s1
             | Return None => captureAndSend_no_photo (now_id env) s1
             | Return (Some photo) =>
                 let s2 := captureAndSend_submit photo geoData s1 in
                 match answer env with
                 | Throw e =>
                     captureAndSend_catch e (now_key env) (now_id env) (now_done env) s2
                 | Return resp =>
                     captureAndSend_response geoData resp
                       (now_key env) (now_id env) (now_done env) s2
                 end
             end
         end.
Proof.
  intros Hc Hp. unfold captureAndSend.
  rewrite (captureAndSend_enter_Some _ _ Hc Hp).
  set (s0 := set_isProcessing true _).
  unfold captureAndSend_rest, located.
  destruct (geolocation s) as [g|] eqn:Hg.
  - exists s0. repeat split; reflexivity.
  - pose proof (fetchGeolocation_frame (geo env) s0) as F. cbv zeta in F.
    pose proof (fetchGeolocation_result (geo env) s0 s) as R.
    pose proof (fetchGeolocation_spoken (geo env) s0) as Sp.
    destruct (fetchGeolocation (geo env) s0) as [r s1]. cbn [fst snd] in F, R, Sp.
    destruct F as (_ & _ & F2 & F3 & _ & F5 & F6 & _ & F7 & _ & _ & _ & F8 & _).
    exists s1. rewrite <- R.
    repeat split; try (etransitivity; [eassumption|reflexivity]).
Qed.



Lemma gate_closed_by_last (d : bool) (now : Z) (s : Screen) :
  now <= lastCaptureTimeRef s + 10000 -> gate_open d now s = false.
Proof.
  intros H. unfold gate_open, allowedByTime, cooldownMs.
  replace (10000 <? now - lastCaptureTimeRef s) with false
    by (symmetry; apply Z.ltb_ge; lia).
  rewrite andb_false_r. reflexivity.
Qed.

Lemma gate_closed_by_next (d : bool) (now : Z) (s : Screen) :
  now < nextAllowedCaptureAtRef s -> gate_open d now s = false.
Proof.
  intros H. unfold gate_open, allowedByTime.
  replace (nextAllowedCaptureAtRef s <=? now) with false
    by (symmetry; apply Z.leb_gt; lia).
  rewrite !andb_false_r. reflexivity.
Qed.

End CaptureOutcomes.



(** X19.  Every run of [captureAndSend] that passes its guard closes the
    gate of the detection loop behind it, however it ends: the
    last-capture timestamp is the clock at entry, so no capture timeout
    passes the gate up to 10000 ms after the entry; and when the run sent
    its request, none passes it before 6000 ms after the clock of its last
    block either. *)
Theorem capture_closes_the_gate (env : Attendance.CaptureEnv) (s : Attendance.Screen)
    (Hcam : Attendance.cameraRef s = true)
    (Hidle : Attendance.isProcessingRef s = false) :
  let s' := Attendance.captureAndSend env s in
  Attendance.lastCaptureTimeRef s' = Attendance.now_enter env
  /\ (forall detected now, now <= Attendance.now_enter env + 10000 ->
        Loop.gate_open detected now s' = false
        /\ Loop.tick_resume true now s' = s')
  /\ (sent env s <> [] ->
      forall detected now, now < Attendance.now_done env + 6000 ->
        Loop.gate_open detected now s' = false
        /\ Loop.tick_resume true now s' = s').
Proof.
  intros s'. subst s'.
  assert (Hstay : forall now s0, Loop.gate_open true now s0 = false ->
                                 Loop.tick_resume true now s0 = s0).
  { intros now s0. unfold Loop.gate_open, Loop.tick_resume. cbn [andb negb].
    destruct (negb (Attendance.isProcessingRef s0)
              && negb (bool_decide (is_Some (Attendance.captureTimeoutRef s0))));
      cbn [andb]; [intros ->|]; reflexivity. }
  destruct (captureAndSend_run_ui env s Hcam Hidle)
    as (s1 & (A1 & A2 & A3 & A4 & A5 & A6 & A7) & Hrun).
  assert (Hlast : Attendance.lastCaptureTimeRef (Attendance.captureAndSend env s)
                  = Attendance.now_enter env).
  { rewrite Hrun. destruct (located env s) as [[g|]|e].
    - destruct (Attendance.picture env) as [[photo|]|e].
      + cbv zeta. destruct (Attendance.answer env) as [resp|e].
        * destruct (response_fields g resp (Attendance.now_key env) (Attendance.now_id env)
                      (Attendance.now_done env) (Attendance.captureAndSend_submit photo g s1))
            as (_ & _ & _ & _ & _ & _ & R & _). rewrite R. exact A4.
        * destruct (catch_fields e (Attendance.now_key env) (Attendance.now_id env)
                      (Attendance.now_done env) (Attendance.captureAndSend_submit photo g s1))
            as (_ & _ & _ & _ & _ & _ & _ & R & _). rewrite R. exact A4.
      + destruct (no_photo_fields (Attendance.now_id env) s1)
          as (_ & _ & _ & _ & _ & _ & R & _). rewrite R. exact A4.
      + destruct (catch_fields e (Attendance.now_key env) (Attendance.now_id env)
                    (Attendance.now_done env) s1) as (_ & _ & _ & _ & _ & _ & _ & R & _).
        rewrite R. exact A4.
    - destruct (no_location_fields (Attendance.now_key env) (Attendance.now_id env)
                  (Attendance.now_done env) s1) as (_ & _ & _ & _ & _ & _ & _ & R & _).
      rewrite R. exact A4.
    - destruct (catch_fields e (Attendance.now_key env) (Attendance.now_id env)
                  (Attendance.now_done env) s1) as (_ & _ & _ & _ & _ & _ & _ & R & _).
      rewrite R. exact A4. }
  split; [exact Hlast|]. split.
  - intros detected now Hnow.
    assert (Hg : forall d, Loop.gate_open d now (Attendance.captureAndSend env s) = false).
    { intros d. apply gate_closed_by_last. rewrite Hlast. exact Hnow. }
    split; [apply Hg | apply Hstay, Hg].
  - intros Hsent detected now Hnow.
    assert (Hnext : Attendance.now_done env + 6000
                    <= Attendance.nextAllowedCaptureAtRef (Attendance.captureAndSend env s)).
    { rewrite Hrun. unfold sent in Hsent. destruct (located env s) as [[g|]|e];
        [|contradiction|contradiction].
      destruct (Attendance.picture env) as [[photo|]|e]; [|contradiction|contradiction].
      cbv zeta. destruct (Attendance.answer env) as [resp|e].
      - destruct (response_fields g resp (Attendance.now_key env) (Attendance.now_id env)
                    (Attendance.now_done env) (Attendance.captureAndSend_submit photo g s1))
          as (_ & _ & _ & _ & _ & _ & _ & _ & [R | R]); rewrite R; lia.
      - destruct (catch_fields e (Attendance.now_key env) (Attendance.now_id env)
                    (Attendance.now_done env) (Attendance.captureAndSend_submit photo g s1))
          as (_ & _ & R & _). rewrite R. lia. }
    assert (Hg : forall d, Loop.gate_open d now (Attendance.captureAndSend env s) = false).
    { intros d. apply gate_closed_by_next. lia. }
    split; [apply Hg | apply Hstay, Hg].
Qed.

Lemma capture_closes_the_gate_witness :
  Loop.gate_open true 1700000013000
    (Attendance.captureAndSend (answered_with marked_ok 1700000003600) camera_screen)
  = false.
Proof.
  apply (proj1 (proj2 (capture_closes_the_gate (answered_with marked_ok 1700000003600)
                         camera_screen eq_refl eq_refl))).
  cbn. lia.
Defined.

Section RetryFacts.
Import Attendance Loop.






End RetryFacts.




(** ** Starting the camera and fetching the location *)

(** X21.  [handleStart] turns the camera on only with the location
    permission: when the screen was not started and is started afterwards,
    the first permission check or the check after the prompt said
    [granted], and both capture timestamps are back at 0.  When the first
    check says [granted] the camera is started, active and idle, with no
    toast left.  When neither check says [granted] the camera flags are as
    before.  No request is made either way. *)
Theorem start_needs_location_permission (env : Loop.StartEnv) (s : Attendance.Screen) :
  let s' := Loop.handleStart env s in
  (Attendance.started s = false -> Attendance.started s' = true ->
     (Loop.first_check env = Return Attendance.granted
      \/ Loop.second_check env = Return Attendance.granted)
     /\ Attendance.lastCaptureTimeRef s' = 0
     /\ Attendance.nextAllowedCaptureAtRef s' = 0)
  /\ (Loop.first_check env = Return Attendance.granted ->
      Attendance.started s' = true /\ Attendance.cameraActive s' = true
      /\ Attendance.stoppedState s' = Attendance.idle /\ Attendance.toasts s' = [])
  /\ (Loop.first_check env <> Return Attendance.granted ->
      Loop.second_check env <> Return Attendance.granted ->
      Attendance.started s' = Attendance.started s
      /\ Attendance.cameraActive s' = Attendance.cameraActive s)
  /\ Attendance.requests s' = Attendance.requests s.
Proof.
  intros s'. subst s'. unfold Loop.handleStart.
  set (s0 := Attendance.dismissAllToasts s).
  assert (Hdenied :
    forall s1, Attendance.started s1 = Attendance.started s ->
               Attendance.cameraActive s1 = Attendance.cameraActive s ->
               Attendance.requests s1 = Attendance.requests s ->
      let s' := match Loop.second_check env with
                | Throw _ => s1
                | Return newStatus =>
                    if negb (Attendance.is_granted newStatus)
                    then Attendance.showToast (Loop.start_now_key env) (Loop.start_now_id env)
                           (JStr "Location permission is required to mark attendance")
                           Attendance.error Attendance.no_opts (Some "location-required") s1
                    else Loop.start_camera (Attendance.started s)
                           (Attendance.set_locationPermission (Some true) s1)
                end in
      (Attendance.started s = false -> Attendance.started s' = true ->
         Loop.second_check env = Return Attendance.granted
         /\ Attendance.lastCaptureTimeRef s' = 0
         /\ Attendance.nextAllowedCaptureAtRef s' = 0)
      /\ (Loop.second_check env <> Return Attendance.granted ->
          Attendance.started s' = Attendance.started s
          /\ Attendance.cameraActive s' = Attendance.cameraActive s)
      /\ Attendance.requests s' = Attendance.requests s).
  { intros s1 H1 H2 H3 s'. subst s'.
    destruct (Loop.second_check env) as [[| |]|e]; cbn [Attendance.is_granted negb].
    - split; [|split; [congruence|]].
      + intros Hs _. rewrite Hs. cbn. auto.
      + unfold Loop.start_camera. destruct (negb (Attendance.started s)); cbn; exact H3.
    - match goal with |- context [Attendance.showToast ?a ?b ?c ?d ?e ?f s1] =>
        pose proof (showToast_frame a b c d e f s1) as F end.
      cbv zeta in F. destruct F as (_ & _ & F1 & F2 & _ & _ & _ & _ & F3 & _).
      rewrite F1, F2, F3, H1, H2, H3.
      split; [intros Hs Hs'; congruence|]. split; [auto|reflexivity].
    - match goal with |- context [Attendance.showToast ?a ?b ?c ?d ?e ?f s1] =>
        pose proof (showToast_frame a b c d e f s1) as F end.
      cbv zeta in F. destruct F as (_ & _ & F1 & F2 & _ & _ & _ & _ & F3 & _).
      rewrite F1, F2, F3, H1, H2, H3.
      split; [intros Hs Hs'; congruence|]. split; [auto|reflexivity].
    - rewrite H1, H2, H3. split; [intros Hs Hs'; congruence|]. split; [auto|reflexivity]. }
  assert (Hprompt :
    let s' := match Attendance.fetchGeolocation (Loop.start_geo env) s0 with
              | (Throw _, s1) => s1
              | (Return _, s1) =>
                  match Loop.second_check env with
                  | Throw _ => s1
                  | Return newStatus =>
                      if negb (Attendance.is_granted newStatus)
                      then Attendance.showToast (Loop.start_now_key env)
                             (Loop.start_now_id env)
                             (JStr "Location permission is required to mark attendance")
                             Attendance.error Attendance.no_opts (Some "location-required") s1
                      else Loop.start_camera (Attendance.started s)
                             (Attendance.set_locationPermission (Some true) s1)
                  end
              end in
    (Attendance.started s = false -> Attendance.started s' = true ->
       Loop.second_check env = Return Attendance.granted
       /\ Attendance.lastCaptureTimeRef s' = 0
       /\ Attendance.nextAllowedCaptureAtRef s' = 0)
    /\ (Loop.second_check env <> Return Attendance.granted ->
        Attendance.started s' = Attendance.started s
        /\ Attendance.cameraActive s' = Attendance.cameraActive s)
    /\ Attendance.requests s' = Attendance.requests s).
  { pose proof (fetchGeolocation_frame (Loop.start_geo env) s0) as F. cbv zeta in F.
    destruct (Attendance.fetchGeolocation (Loop.start_geo env) s0) as [r s1].
    cbn [snd] in F. destruct F as (_ & _ & F1 & F2 & _ & _ & _ & _ & F3 & _).
    change (Attendance.started s0) with (Attendance.started s) in F1.
    change (Attendance.cameraActive s0) with (Attendance.cameraActive s) in F2.
    change (Attendance.requests s0) with (Attendance.requests s) in F3.
    destruct r as [r|e]; [exact (Hdenied s1 F1 F2 F3)|].
    cbv zeta. rewrite F1, F2, F3.
    split; [intros Hs Hs'; congruence|]. split; [auto|reflexivity]. }
  cbv zeta in Hprompt. destruct Hprompt as [P1 [P2 P3]].
  assert (Hgranted :
    let s' := Loop.start_camera (Attendance.started s)
                (snd (Attendance.fetchGeolocation (Loop.start_geo env)
                        (Attendance.set_locationPermission (Some true) s0))) in
    Attendance.started s' = true /\ Attendance.cameraActive s' = true
    /\ Attendance.stoppedState s' = Attendance.idle /\ Attendance.toasts s' = []
    /\ Attendance.requests s' = Attendance.requests s
    /\ (Attendance.started s = false ->
        Attendance.lastCaptureTimeRef s' = 0 /\ Attendance.nextAllowedCaptureAtRef s' = 0)).
  { pose proof (fetchGeolocation_frame (Loop.start_geo env)
                  (Attendance.set_locationPermission (Some true) s0)) as F. cbv zeta in F.
    destruct F as (_ & _ & _ & _ & _ & _ & _ & _ & F3 & _ & _ & _ & F4 & _).
    cbv zeta. split; [reflexivity|]. split; [reflexivity|]. split; [reflexivity|].
    split; [|split].
    - unfold Loop.start_camera. destruct (negb (Attendance.started s)); cbn; rewrite F4;
        reflexivity.
    - unfold Loop.start_camera. destruct (negb (Attendance.started s)); cbn; rewrite F3;
        reflexivity.
    - intros Hs. rewrite Hs. cbn. auto. }
  cbv zeta in Hgranted. destruct Hgranted as [G1 [G2 [G3 [G4 [G5 G6]]]]].
  destruct (Loop.first_check env) as [[| |]|e]; cbn [Attendance.is_granted negb].
  - split; [intros Hs _; split; [left; reflexivity | apply G6; exact Hs]|].
    split; [auto|]. split; [congruence|exact G5].
  - split; [intros Hs Hs'; destruct (P1 Hs Hs') as [Q1 Q2]; auto|].
    split; [discriminate|]. split; [intros _; exact P2 | exact P3].
  - split; [intros Hs Hs'; destruct (P1 Hs Hs') as [Q1 Q2]; auto|].
    split; [discriminate|]. split; [intros _; exact P2 | exact P3].
  - split; [intros Hs Hs'; destruct (P1 Hs Hs') as [Q1 Q2]; auto|].
    split; [discriminate|]. split; [intros _; exact P2 | exact P3].
Qed.

(** X22.  What [fetchGeolocation] gives.  It resolves with a location
    exactly when the permission request said [granted] and the position
    request resolved; the location is then the position's latitude and
    longitude with its accuracy, 0 when the device gave none, and it is
    stored with the error cleared and the permission noted as granted.
    When the permission request resolves with anything else it resolves
    with [null], notes the permission as refused, sets the error to
    ['Location permission denied'] and keeps the location known before.
    It rejects only when the permission re-check of its [catch] block
    rejects. *)
Theorem fetchGeolocation_outcomes (g : Attendance.GeoEnv) (s : Attendance.Screen) :
  let out := Attendance.fetchGeolocation g s in
  (forall loc, fst out = Return (Some loc) <->
     Attendance.requestForegroundPermissions g = Return Attendance.granted
     /\ exists c, Attendance.getCurrentPosition g = Return c
                  /\ loc = {| Attendance.latitude := Attendance.c_latitude c;
                              Attendance.longitude := Attendance.c_longitude c;
                              Attendance.accuracy :=
                                match Attendance.c_accuracy c with
                                | Some a => if Num.is_zero a then 0%Q else a
                                | None => 0%Q
                                end |})
  /\ (forall loc, fst out = Return (Some loc) ->
        Attendance.geolocation (snd out) = Some loc
        /\ Attendance.geoError (snd out) = None
        /\ Attendance.locationPermission (snd out) = Some true)
  /\ (forall st, Attendance.requestForegroundPermissions g = Return st ->
        st <> Attendance.granted ->
        fst out = Return None
        /\ Attendance.locationPermission (snd out) = Some false
        /\ Attendance.geoError (snd out) = Some "Location permission denied"
        /\ Attendance.geolocation (snd out) = Attendance.geolocation s)
  /\ (forall e, fst out = Throw e -> Attendance.getForegroundPermissions g = Throw e).
Proof.
  intros out. subst out. unfold Attendance.fetchGeolocation, Attendance.fetchGeolocation_catch.
  destruct (Attendance.requestForegroundPermissions g) as [st|e0].
  - destruct st; cbn [Attendance.is_granted negb].
    + destruct (Attendance.getCurrentPosition g) as [c|e1].
      * cbn [fst snd]. split; [|split; [|split]].
        -- intros loc. split.
           ++ intros H. inversion H. split; [reflexivity|]. exists c. split; reflexivity.
           ++ intros [_ [c' [Hc ->]]]. inversion Hc. reflexivity.
        -- intros loc H. inversion H. repeat split.
        -- intros st Heq Hst. inversion Heq; subst st. contradiction.
        -- discriminate.
      * destruct (Attendance.getForegroundPermissions g) as [st'|e2]; cbn [fst snd].
        -- split; [|split; [|split]].
           ++ intros loc. split; [discriminate|]. intros [_ [c [Hc _]]]. discriminate.
           ++ discriminate.
           ++ intros st Heq Hst. inversion Heq; subst st. contradiction.
           ++ discriminate.
        -- split; [|split; [|split]].
           ++ intros loc. split; [discriminate|]. intros [_ [c [Hc _]]]. discriminate.
           ++ discriminate.
           ++ intros st Heq Hst. inversion Heq; subst st. contradiction.
           ++ intros e H. inversion H. reflexivity.
    + cbn [fst snd]. split; [|split; [|split]].
      * intros loc. split; [discriminate|]. intros [H _]. discriminate.
      * discriminate.
      * intros st _ _. repeat split.
      * discriminate.
    + cbn [fst snd]. split; [|split; [|split]].
      * intros loc. split; [discriminate|]. intros [H _]. discriminate.
      * discriminate.
      * intros st _ _. repeat split.
      * discriminate.
  - destruct (Attendance.getForegroundPermissions g) as [st'|e2]; cbn [fst snd].
    + split; [|split; [|split]].
      * intros loc. split; [discriminate|]. intros [H _]. discriminate.
      * discriminate.
      * discriminate.
      * discriminate.
    + split; [|split; [|split]].
      * intros loc. split; [discriminate|]. intros [H _]. discriminate.
      * discriminate.
      * discriminate.
      * intros e H. inversion H. reflexivity.
Qed.

(** ** The loop while a submission is in flight *)

Lemma submitting_trace_runs :
  exists m obs,
    Loop.run submitting_trace (Loop.boot 1700000000000) = Some (m, obs)
    /\ pending (Loop.screen m) = 1%nat.
Proof. vm_compute. eexists. eexists. split; reflexivity. Qed.

(** X23.  In every state the loop reaches, the processing state and its
    ref agree and the camera is mounted exactly when the screen is started
    and the camera active.  While a capture is unsettled, or the timeout
    that clears the flags after a missing location is pending: Cancel,
    Retry and Start are not available, and an interval tick detects
    nothing, schedules nothing and leaves the committed screen as it
    is. *)
Theorem no_user_action_while_submitting (evs : list Loop.Event) (t0 : Z)
    (m : Loop.Machine) (obs : list Loop.Obs) :
  Loop.run evs (Loop.boot t0) = Some (m, obs) ->
  Attendance.isProcessing (Loop.screen m) = Attendance.isProcessingRef (Loop.screen m)
  /\ Attendance.cameraRef (Loop.screen m)
     = Attendance.started (Loop.screen m) && Attendance.cameraActive (Loop.screen m)
  /\ (pending (Loop.screen m) = 1%nat ->
      Loop.step Loop.Cancel m = None
      /\ Loop.step Loop.Retry m = None
      /\ (forall env, Loop.step (Loop.Start env) m = None)
      /\ (forall g, Loop.step (Loop.AutoStart g) m = None)
      /\ (forall now, Loop.clock m <= now ->
            Loop.step (Loop.Tick now) m
            = Some ({| Loop.screen := Loop.commit (Loop.screen m); Loop.clock := now |}, []))).
Proof.
  intros Hrun.
  destruct (run_inv5 evs (Loop.boot t0) m obs (inv5_boot t0) Hrun) as [A B C D].
  split; [exact A|]. split; [exact B|].
  intros Hp. destruct (D Hp) as (D1 & D2 & D3).
  destruct m as [s c]. cbn [Loop.screen Loop.clock] in *.
  unfold Loop.step. cbn [Loop.screen Loop.clock].
  rewrite A, D1, D2, D3. cbn [negb andb].
  split; [reflexivity|]. split; [reflexivity|]. split; [reflexivity|].
  split; [reflexivity|].
  intros now Hnow. apply Z.leb_le in Hnow. rewrite Hnow. reflexivity.
Qed.

Lemma no_user_action_while_submitting_witness :
  exists m obs,
    Loop.run submitting_trace (Loop.boot 1700000000000) = Some (m, obs)
    /\ Loop.step Loop.Cancel m = None.
Proof.
  destruct submitting_trace_runs as [m [obs [Hrun Hp]]].
  exists m, obs. split; [exact Hrun|].
  apply (proj1 (proj2 (proj2 (no_user_action_while_submitting submitting_trace
                                1700000000000 m obs Hrun)) Hp)).
Defined.

(** ** Requests of the loop *)

Section Traffic.
Import Attendance Loop.























End Traffic.



(** ** The tap-to-capture screen: feedback and lookups *)

Section TapFacts.
Import Manual.

Lemma ui_fetchAttendanceDetails (env : Env) (empName : json) (s : Screen) :
  toasts (snd (fetchAttendanceDetails env empName s)) = toasts s
  /\ removals (snd (fetchAttendanceDetails env empName s)) = removals s
  /\ calls (snd (fetchAttendanceDetails env empName s)) = calls s ++ [GetSummary].
Proof.
  unfold fetchAttendanceDetails. destruct (details env) as [r|e]; cbn [snd].
  - destruct (find_row empName _) as [[found|]|]; cbn [snd]; repeat split.
  - repeat split.
Qed.

Lemma ui_loadAttendanceSummary (env : Env) (s : Screen) :
  exists rest,
    toasts (loadAttendanceSummary env s) = toasts s ++ rest
    /\ removals (loadAttendanceSummary env s) = removals s ++ expiries rest
    /\ (rest = [] \/ exists t2 e, rest = [t2] /\ summary env = Throw e
                                  /\ t_type t2 = Attendance.error).
Proof.
  unfold loadAttendanceSummary. destruct (summary env) as [resp|e].
  - exists []. cbn. rewrite !app_nil_r. split; [reflexivity|]. split; [reflexivity|].
    left. reflexivity.
  - eexists [_]. cbn. split; [reflexivity|]. split; [reflexivity|].
    right. eexists. exists e. split; [reflexivity|]. split; reflexivity.
Qed.

Lemma ui_handleCapture_answered (env : Env) (photo : Attendance.Photo)
    (res : Response) (s : Screen) :
  match fst (handleCapture_answered env photo res s) with
  | Throw _ =>
      toasts (snd (handleCapture_answered env photo res s)) = toasts s
      /\ removals (snd (handleCapture_answered env photo res s)) = removals s
  | Return _ =>
      exists t rest,
        toasts (snd (handleCapture_answered env photo res s)) = toasts s ++ t :: rest
        /\ removals (snd (handleCapture_answered env photo res s))
           = removals s ++ expiries (t :: rest)
        /\ t_type t <> Attendance.error
        /\ (rest = [] \/ exists t2 e, rest = [t2] /\ summary env = Throw e
                                      /\ t_type t2 = Attendance.error)
  end.
Proof.
  unfold handleCapture_answered.
  set (payload := match Js.data res with Some d => _ | None => _ end).
  set (attendance := match or_else _ _ with Some a => a | None => payload end).
  set (ci := or_else (or3 _ _ _) (prop "checkin_time" payload)).
  set (co := or_else (or3 _ _ _) (prop "checkout_time" payload)).
  set (emp := or_else (or3 _ _ _) (prop "employee" payload)).
  assert (Hshow : forall f1 f2 s1,
    toasts s1 = toasts s -> removals s1 = removals s ->
    exists t rest,
      toasts (loadAttendanceSummary env
                (showToast (now_toast env)
                   (if already payload then JStr "Attendance already recorded"
                    else JStr "Attendance marked successfully!")
                   (if already payload then Attendance.info else Attendance.success)
                   (Some (Attendance.uri photo)) emp f1 f2 s1)) = toasts s ++ t :: rest
      /\ removals (loadAttendanceSummary env
                     (showToast (now_toast env)
                        (if already payload then JStr "Attendance already recorded"
                         else JStr "Attendance marked successfully!")
                        (if already payload then Attendance.info else Attendance.success)
                        (Some (Attendance.uri photo)) emp f1 f2 s1))
         = removals s ++ expiries (t :: rest)
      /\ t_type t <> Attendance.error
      /\ (rest = [] \/ exists t2 e, rest = [t2] /\ summary env = Throw e
                                    /\ t_type t2 = Attendance.error)).
  { intros f1 f2 s1 H1 H2.
    match goal with |- context [loadAttendanceSummary env ?x] =>
      destruct (ui_loadAttendanceSummary env x) as [rest [L1 [L2 L3]]] end.
    eexists. exists rest. rewrite L1, L2. cbn [toasts removals showToast].
    rewrite H1, H2, <- !app_assoc. split; [reflexivity|]. split; [reflexivity|].
    split; [|exact L3]. cbn. destruct (already payload); discriminate. }
  destruct (negb (truthy_opt ci) && negb (truthy_opt co) && truthy_opt emp).
  - pose proof (ui_fetchAttendanceDetails env
                  (match emp with Some e => e | None => JNull end) s) as [F1 [F2 _]].
    destruct (fetchAttendanceDetails env _ s) as [[d|] s1]; cbn [snd] in F1, F2.
    + destruct (formatTime env _) as [f1|e]; [|split; assumption].
      destruct (formatTime env _) as [f2|e]; [|split; assumption].
      cbn [fst snd]. apply Hshow; assumption.
    + destruct (formatTime env ci) as [f1|e]; [|split; assumption].
      destruct (formatTime env co) as [f2|e]; [|split; assumption].
      cbn [fst snd]. apply Hshow; assumption.
  - destruct (formatTime env ci) as [f1|e]; [|split; reflexivity].
    destruct (formatTime env co) as [f2|e]; [|split; reflexivity].
    cbn [fst snd]. apply Hshow; reflexivity.
Qed.

Lemma cameraRef_handleCapture_answered (env : Env) (photo : Attendance.Photo)
    (res : Response) (s : Screen) :
  cameraRef s = true -> cameraRef (snd (handleCapture_answered env photo res s)) = true.
Proof.
  intros Hc. unfold handleCapture_answered.
  set (payload := match Js.data res with Some d => _ | None => _ end).
  set (attendance := match or_else _ _ with Some a => a | None => payload end).
  set (ci := or_else (or3 _ _ _) (prop "checkin_time" payload)).
  set (co := or_else (or3 _ _ _) (prop "checkout_time" payload)).
  set (emp := or_else (or3 _ _ _) (prop "employee" payload)).
  assert (Hd : forall n, cameraRef (snd (fetchAttendanceDetails env n s)) = true).
  { intros n. unfold fetchAttendanceDetails. destruct (details env) as [r|e]; cbn [snd].
    - destruct (find_row n _) as [[found|]|]; exact Hc.
    - exact Hc. }
  assert (Hl : forall x, cameraRef x = true -> cameraRef (loadAttendanceSummary env x) = true).
  { intros x Hx. unfold loadAttendanceSummary. destruct (summary env); exact Hx. }
  destruct (negb (truthy_opt ci) && negb (truthy_opt co) && truthy_opt emp).
  - specialize (Hd (match emp with Some e => e | None => JNull end)).
    destruct (fetchAttendanceDetails env _ s) as [[d|] s1]; cbn [snd] in Hd.
    + destruct (formatTime env _) as [f1|e]; [|exact Hd].
      destruct (formatTime env _) as [f2|e]; [|exact Hd].
      cbn [snd]. apply Hl. exact Hd.
    + destruct (formatTime env ci) as [f1|e]; [|exact Hd].
      destruct (formatTime env co) as [f2|e]; [|exact Hd].
      cbn [snd]. apply Hl. exact Hd.
  - destruct (formatTime env ci) as [f1|e]; [|exact Hc].
    destruct (formatTime env co) as [f2|e]; [|exact Hc].
    cbn [snd]. apply Hl. exact Hc.
Qed.


End TapFacts.

(** X25.  Every tap is answered.  A tap that passes the guard ends with
    the processing flag cleared and the camera as it was, and shows at
    least one toast: one toast for the outcome of the capture, followed
    only when a successful capture's summary refresh failed by one error
    toast.  Every toast shown is scheduled for removal after 4000 ms. *)
Theorem tap_always_answers (env : Manual.Env) (s : Manual.Screen) :
  Manual.cameraRef s = true -> Manual.isProcessing s = false ->
  let s' := Manual.handleCapture env s in
  Manual.isProcessing s' = false /\ Manual.cameraRef s' = true
  /\ exists t rest,
       Manual.toasts s' = Manual.toasts s ++ t :: rest
       /\ Manual.removals s'
          = Manual.removals s ++ map (fun u => (Manual.t_id u, 4000)) (t :: rest)
       /\ (rest = []
           \/ exists t2 e, rest = [t2] /\ Manual.summary env = Throw e
                           /\ Manual.t_type t <> Attendance.error
                           /\ Manual.t_type t2 = Attendance.error).
Proof.
  intros Hc Hp s'. subst s'. unfold Manual.handleCapture. rewrite Hc, Hp. cbn [orb negb].
  assert (Hcatch : forall e s1,
    Manual.toasts s1 = Manual.toasts s -> Manual.removals s1 = Manual.removals s ->
    Manual.cameraRef s1 = true ->
    let s' := Manual.set_isProcessing false (Manual.handleCapture_catch env e s1) in
    Manual.isProcessing s' = false /\ Manual.cameraRef s' = true
    /\ exists t rest,
         Manual.toasts s' = Manual.toasts s ++ t :: rest
         /\ Manual.removals s'
            = Manual.removals s ++ map (fun u => (Manual.t_id u, 4000)) (t :: rest)
         /\ (rest = []
             \/ exists t2 e, rest = [t2] /\ Manual.summary env = Throw e
                             /\ Manual.t_type t <> Attendance.error
                             /\ Manual.t_type t2 = Attendance.error)).
  { intros e s1 H1 H2 H3. cbn. rewrite H1, H2, H3. split; [reflexivity|].
    split; [reflexivity|]. eexists. exists []. split; [reflexivity|].
    split; [reflexivity|]. left. reflexivity. }
  destruct (Manual.picture env) as [[photo|]|e].
  - destruct (Manual.answer env) as [res|e];
      [|apply Hcatch; [reflexivity | reflexivity | exact Hc]].
    set (s2 := Manual.add_call _ (Manual.set_isProcessing true s)).
    pose proof (ui_handleCapture_answered env photo res s2) as U.
        assert (Hcam : Manual.cameraRef (snd (Manual.handleCapture_answered env photo res s2))
                   = true).
    { apply cameraRef_handleCapture_answered. exact Hc. }
    destruct (Manual.handleCapture_answered env photo res s2) as [[u|e] s3];
      cbn [fst snd] in U, Hcam.
    + destruct U as [t [rest [U1 [U2 [U3 U4]]]]]. cbn. rewrite Hcam.
      split; [reflexivity|]. split; [reflexivity|].
      exists t, rest. split; [exact U1|]. split; [exact U2|].
      destruct U4 as [-> | [t2 [e [-> [Hs Ht2]]]]]; [left; reflexivity|].
      right. exists t2, e. auto.
    + destruct U as [U1 U2]. apply Hcatch; assumption.
  - cbn. rewrite Hc. split; [reflexivity|]. split; [reflexivity|].
    eexists. exists []. split; [reflexivity|]. split; [reflexivity|]. left. reflexivity.
  - apply Hcatch; [reflexivity | reflexivity | exact Hc].
Qed.

Lemma tap_always_answers_witness :
  Manual.isProcessing (Manual.handleCapture tap_env tap_screen) = false
  /\ length (Manual.toasts (Manual.handleCapture tap_env tap_screen)) = 1%nat.
Proof.
  destruct (tap_always_answers tap_env tap_screen eq_refl eq_refl)
    as [H1 [_ [t [rest [H2 [_ H3]]]]]].
  split; [exact H1|]. rewrite H2.
  destruct H3 as [-> | [t2 [e [_ [He _]]]]]; [reflexivity | discriminate He].
Defined.


(** ** Toasts of the loop always expire *)

Section ExpiryFacts.
Import Attendance Loop.

Lemma expiry_weaken (c c' : Z) (s : Screen) : Expiry c s -> c <= c' -> Expiry c' s.
Proof.
  intros [A B C D] Hc. constructor; [|exact B|exact C|exact D].
  intros t Ht. destruct (A t Ht) as [tm (H1 & H2 & H3 & H4)].
  exists tm. repeat split; try assumption. lia.
Qed.

(** Blocks that may drop toasts or forget the capture timeout, and touch
    no timer. *)
Lemma expiry_sub (c : Z) (s s' : Screen) :
  (forall t, t ∈ toasts s' -> t ∈ toasts s) ->
  timers s' = timers s -> next_handle s' = next_handle s ->
  captureTimeoutRef s' = captureTimeoutRef s \/ captureTimeoutRef s' = None ->
  Expiry c s -> Expiry c s'.
Proof.
  intros Ht Hti Hn Hr [A B C D]. constructor.
  - intros t Hin. rewrite Hti. apply A, Ht, Hin.
  - intros tm. rewrite Hti, Hn. apply B.
  - intros a b. rewrite Hti. apply C.
  - intros h Hh. rewrite Hti, Hn. apply D.
    destruct Hr as [Hr | Hr]; rewrite Hr in Hh; [exact Hh | discriminate].
Qed.

Lemma expiry_frame (c : Z) (s s' : Screen) :
  toasts s' = toasts s -> timers s' = timers s -> next_handle s' = next_handle s ->
  captureTimeoutRef s' = captureTimeoutRef s ->
  Expiry c s -> Expiry c s'.
Proof.
  intros Ht Hti Hn Hr. apply expiry_sub; try assumption; [|left; exact Hr].
  intros t. rewrite Ht. auto.
Qed.

Lemma expiry_setTimeout (c : Z) (a : TimerAction) (d now : Z) (s : Screen) :
  Expiry c s -> Expiry c (snd (setTimeout a d now s)).
Proof.
  intros [A B C D]. constructor; cbn.
  - intros t Ht. destruct (A t Ht) as [tm (H1 & H2)].
    exists tm. split; [apply elem_of_app; left; exact H1 | exact H2].
  - intros tm Htm. apply elem_of_app in Htm as [Htm | Htm].
    + specialize (B tm Htm). lia.
    + apply list_elem_of_singleton in Htm. subst tm. cbn. lia.
  - intros x y Hx Hy Hxy.
    apply elem_of_app in Hx as [Hx | Hx]; apply elem_of_app in Hy as [Hy | Hy].
    + apply C; assumption.
    + apply list_elem_of_singleton in Hy. subst y. cbn in Hxy.
      specialize (B x Hx). lia.
    + apply list_elem_of_singleton in Hx. subst x. cbn in Hxy.
      specialize (B y Hy). lia.
    + apply list_elem_of_singleton in Hx. apply list_elem_of_singleton in Hy.
      subst x y. reflexivity.
  - intros h Hh. destruct (D h Hh) as [D1 D2]. split; [lia|].
    intros tm Htm Heq. apply elem_of_app in Htm as [Htm | Htm]; [apply D2; assumption|].
    apply list_elem_of_singleton in Htm. subst tm. cbn in Heq. lia.
Qed.

(** Lines 484-490: the capture timeout is set and remembered. *)
Lemma expiry_schedule (c : Z) (d now : Z) (s : Screen) :
  Expiry c s ->
  Expiry c (set_captureTimeoutRef (Some (next_handle s))
              (snd (setTimeout AutoCapture d now s))).
Proof.
  intros H. pose proof (expiry_setTimeout c AutoCapture d now s H) as [A B C D].
  destruct H as [_ B0 _ _].
  constructor; [exact A | exact B | exact C|].
  intros h Hh. cbn in Hh. inversion Hh; subst h. split; [cbn; lia|].
  intros tm Htm Heq. cbn in Htm. apply elem_of_app in Htm as [Htm | Htm].
  - specialize (B0 tm Htm). lia.
  - apply list_elem_of_singleton in Htm. subst tm. reflexivity.
Qed.

Lemma expiry_showToast (c : Z) (now_key now_id : Z) (msg : json) (ty : ToastType)
    (opts : ToastOpts) (key : option string) (s : Screen) :
  Expiry c s -> now_id <= c -> Expiry c (showToast now_key now_id msg ty opts key s).
Proof.
  intros H Hc. destruct (throttled key now_key s) eqn:Hth.
  - rewrite showToast_throttled by exact Hth. exact H.
  - destruct (showToast_shown now_key now_id msg ty opts key s Hth) as [S1 S2].
    pose proof (showToast_frame now_key now_id msg ty opts key s) as F. cbv zeta in F.
    destruct F as (_ & _ & _ & _ & _ & _ & _ & F1 & _).
    assert (Hn : next_handle (showToast now_key now_id msg ty opts key s)
                 = S (next_handle s)).
    { unfold showToast. rewrite Hth.
      destruct key as [k|]; [destruct (String.eqb k "")|]; reflexivity. }
    destruct H as [A B C D]. constructor.
    + intros t Ht. rewrite S1 in Ht. rewrite S2.
      apply elem_of_app in Ht as [Ht | Ht].
      * destruct (A t Ht) as [tm (H1 & H2)].
        exists tm. split; [apply elem_of_app; left; exact H1 | exact H2].
      * apply list_elem_of_singleton in Ht. subst t. eexists. split.
        -- apply elem_of_app. right. apply list_elem_of_singleton. reflexivity.
        -- cbn. split; [reflexivity|]. split; [reflexivity | exact Hc].
    + intros tm Htm. rewrite S2 in Htm. rewrite Hn.
      apply elem_of_app in Htm as [Htm | Htm].
      * specialize (B tm Htm). lia.
      * apply list_elem_of_singleton in Htm. subst tm. cbn. lia.
    + intros x y Hx Hy Hxy. rewrite S2 in Hx, Hy.
      apply elem_of_app in Hx as [Hx | Hx]; apply elem_of_app in Hy as [Hy | Hy].
      * apply C; assumption.
      * apply list_elem_of_singleton in Hy. subst y. cbn in Hxy.
        specialize (B x Hx). lia.
      * apply list_elem_of_singleton in Hx. subst x. cbn in Hxy.
        specialize (B y Hy). lia.
      * apply list_elem_of_singleton in Hx. apply list_elem_of_singleton in Hy.
        subst x y. reflexivity.
    + intros h Hh. rewrite F1 in Hh. destruct (D h Hh) as [D1 D2].
      rewrite Hn, S2. split; [lia|].
      intros tm Htm Heq. apply elem_of_app in Htm as [Htm | Htm]; [apply D2; assumption|].
      apply list_elem_of_singleton in Htm. subst tm. cbn in Heq. lia.
Qed.

(** [clearTimeout] of a handle that names no toast removal. *)
Lemma expiry_clearTimeout (c : Z) (h : nat) (s : Screen) :
  Expiry c s ->
  (forall tm i, tm ∈ timers s -> handle tm = h -> action tm <> RemoveToast i) ->
  Expiry c (clearTimeout h s).
Proof.
  intros [A B C D] Hno. constructor; cbn.
  - intros t Ht. destruct (A t Ht) as [tm (H1 & H2 & H3)].
    exists tm. split; [|split; assumption].
    apply list_elem_of_filter. split; [|exact H1].
    intros Heq. apply (Hno tm (id t) H1 Heq H2).
  - intros tm Htm. apply list_elem_of_filter in Htm as [_ Htm]. apply B, Htm.
  - intros x y Hx Hy. apply list_elem_of_filter in Hx as [_ Hx].
    apply list_elem_of_filter in Hy as [_ Hy]. apply C; assumption.
  - intros h0 Hh. destruct (D h0 Hh) as [D1 D2]. split; [exact D1|].
    intros tm Htm. apply list_elem_of_filter in Htm as [_ Htm]. apply D2, Htm.
Qed.

Lemma expiry_clear_capture_timeout (c : Z) (s : Screen) :
  Expiry c s -> Expiry c (clear_capture_timeout s).
Proof.
  intros H. unfold clear_capture_timeout.
  destruct (captureTimeoutRef s) as [h|] eqn:Hr; [|exact H].
  apply (expiry_sub c (clearTimeout h s)); try reflexivity; [auto | right; reflexivity|].
  apply expiry_clearTimeout; [exact H|].
  intros tm i Htm Hh Ha. destruct H as [_ _ _ D].
  destruct (D h Hr) as [_ D2]. rewrite (D2 tm Htm Hh) in Ha. discriminate.
Qed.

(** A toast timeout fires: its timer goes, and so do the toasts of its
    id. *)
Lemma expiry_fire_remove (c : Z) (t : Timer) (i : string) (s : Screen) :
  Expiry c s -> t ∈ timers s -> action t = RemoveToast i ->
  Expiry c (removeToast i (clearTimeout (handle t) s)).
Proof.
  intros [A B C D] Ht Ha. constructor; cbn.
  - intros u Hu. apply list_elem_of_filter in Hu as [Hne Hu].
    destruct (A u Hu) as [tm (H1 & H2 & H3)].
    exists tm. split; [|split; assumption].
    apply list_elem_of_filter. split; [|exact H1].
    intros Heq. pose proof (C tm t H1 Ht Heq) as Hact. rewrite H2, Ha in Hact.
    inversion Hact. contradiction.
  - intros tm Htm. apply list_elem_of_filter in Htm as [_ Htm]. apply B, Htm.
  - intros x y Hx Hy. apply list_elem_of_filter in Hx as [_ Hx].
    apply list_elem_of_filter in Hy as [_ Hy]. apply C; assumption.
  - intros h0 Hh. destruct (D h0 Hh) as [D1 D2]. split; [exact D1|].
    intros tm Htm. apply list_elem_of_filter in Htm as [_ Htm]. apply D2, Htm.
Qed.

(** Another timeout fires. *)
Lemma expiry_fire_other (c : Z) (t : Timer) (s : Screen) :
  Expiry c s -> t ∈ timers s -> (forall i, action t <> RemoveToast i) ->
  Expiry c (clearTimeout (handle t) s).
Proof.
  intros H Ht Ha. apply expiry_clearTimeout; [exact H|].
  intros tm i Htm Hh Hact. destruct H as [_ _ C _].
  apply (Ha i). rewrite <- (C tm t Htm Ht Hh). exact Hact.
Qed.

Lemma expiry_fetchGeolocation (c : Z) (g : GeoEnv) (s : Screen) :
  Expiry c s -> Expiry c (snd (fetchGeolocation g s)).
Proof.
  pose proof (fetchGeolocation_frame g s) as F. cbv zeta in F.
  destruct F as (_ & _ & _ & _ & _ & _ & _ & F1 & _ & _ & F2 & F3 & F4 & _).
  apply expiry_frame; assumption.
Qed.

Lemma expiry_detection_effect (c : Z) (s : Screen) :
  Expiry c s -> Expiry c (detection_effect s).
Proof.
  intros H. unfold detection_effect.
  destruct (negb (started s) || negb (cameraActive s)); [|exact H].
  apply expiry_clear_capture_timeout.
  destruct (faceDetectedRef s); [|exact H].
  apply (expiry_frame c s); try reflexivity. exact H.
Qed.

Lemma expiry_commit (c : Z) (s : Screen) : Expiry c s -> Expiry c (commit s).
Proof.
  intros H. unfold commit. apply expiry_detection_effect.
  apply (expiry_frame c s); try reflexivity. exact H.
Qed.

Lemma expiry_tick_resume (c : Z) (detected : bool) (now : Z) (s : Screen) :
  Expiry c s -> Expiry c (tick_resume detected now s).
Proof.
  intros H. unfold tick_resume.
  destruct (detected && negb (isProcessingRef s)
            && negb (bool_decide (is_Some (captureTimeoutRef s)))).
  - destruct (allowedByTime now s); [|exact H].
    apply (expiry_schedule c 2000 now (clear_capture_timeout s)).
    apply expiry_clear_capture_timeout, H.
  - destruct (negb detected); [|exact H].
    pose proof (expiry_clear_capture_timeout c s H) as H1.
    destruct (faceDetectedRef (clear_capture_timeout s)); [|exact H1].
    apply (expiry_frame c (clear_capture_timeout s)); try reflexivity. exact H1.
Qed.

Lemma expiry_checkForFace_finish (c : Z) (d : Detection) (s : Screen) :
  Expiry c s -> Expiry c (snd (checkForFace_finish d s)).
Proof.
  intros H. destruct d as [| |n]; cbn; try exact H.
  destruct (Bool.eqb _ _); [exact H|].
  apply (expiry_frame c s); try reflexivity. exact H.
Qed.

Lemma expiry_timeout_resume (c : Z) (b : bool) (now : Z) (s : Screen) :
  Expiry c s ->
  Expiry c (match timeout_resume b now s with inl s1 => s1 | inr s1 => s1 end).
Proof.
  intros H. unfold timeout_resume, captureAndSend_enter.
  destruct (b && negb (isProcessingRef s) && cameraRef s).
  - destruct (negb (cameraRef s) || isProcessingRef s).
    + apply (expiry_sub c s); try reflexivity; [auto | right; reflexivity | exact H].
    + apply (expiry_frame c s); try reflexivity. exact H.
  - apply (expiry_sub c s); try reflexivity; [auto | right; reflexivity | exact H].
Qed.

Lemma expiry_catch (c : Z) (e : JsError) (now_key now_id now : Z) (s : Screen) :
  Expiry c s -> now_id <= c -> Expiry c (captureAndSend_catch e now_key now_id now s).
Proof.
  intros H Hc. unfold captureAndSend_catch.
  match goal with |- context [showToast ?a ?b ?m ?d ?o ?k s] =>
    pose proof (expiry_showToast c a b m d o k s H Hc) as H1;
    set (s1 := showToast a b m d o k s) in * end.
  apply (expiry_frame c s1); try exact H1; unfold stopCameraWith; reflexivity.
Qed.

Lemma expiry_no_location (c : Z) (now_key now_id now : Z) (s : Screen) :
  Expiry c s -> now_id <= c -> Expiry c (captureAndSend_no_location now_key now_id now s).
Proof.
  intros H Hc. unfold captureAndSend_no_location.
  match goal with |- context [showToast ?a ?b ?m ?d ?o ?k s] =>
    pose proof (expiry_showToast c a b m d o k s H Hc) as H1;
    set (s1 := showToast a b m d o k s) in * end.
  apply expiry_setTimeout. apply (expiry_frame c s1); try reflexivity. exact H1.
Qed.

Lemma expiry_no_photo (c : Z) (now_id : Z) (s : Screen) :
  Expiry c s -> now_id <= c -> Expiry c (captureAndSend_no_photo now_id s).
Proof.
  intros H Hc. unfold captureAndSend_no_photo.
  match goal with |- context [showToast ?a ?b ?m ?d ?o ?k s] =>
    pose proof (expiry_showToast c a b m d o k s H Hc) as H1;
    set (s1 := showToast a b m d o k s) in * end.
  apply (expiry_frame c s1); try reflexivity. exact H1.
Qed.

Lemma expiry_response (c : Z) (g : GeoLocation) (resp : Response)
    (now_key now_id now : Z) (s : Screen) :
  Expiry c s -> now_id <= c ->
  Expiry c (captureAndSend_response g resp now_key now_id now s).
Proof.
  intros H Hc. unfold captureAndSend_response.
  destruct (truthy_opt _ && truthy_opt _).
  - match goal with |- context [showToast ?a ?b ?m ?d ?o ?k s] =>
      pose proof (expiry_showToast c a b m d o k s H Hc) as H1;
      set (s1 := showToast a b m d o k s) in * end.
    apply (expiry_frame c s1); try reflexivity. exact H1.
  - match goal with |- context [showToast ?a ?b ?m ?d ?o ?k s] =>
      pose proof (expiry_showToast c a b m d o k s H Hc) as H1;
      set (s1 := showToast a b m d o k s) in * end.
    apply (expiry_frame c s1); try reflexivity. exact H1.
Qed.

Lemma expiry_rest (c : Z) (known : option GeoLocation) (env : CaptureEnv) (s : Screen) :
  Expiry c s -> now_id env <= c -> Expiry c (captureAndSend_rest known env s).
Proof.
  intros H Hc. unfold captureAndSend_rest.
  assert (Hloc : Expiry c (snd (match known with
                                | Some g => (Return (Some g), s)
                                | None => fetchGeolocation (geo env) s
                                end))).
  { destruct known; [exact H | apply expiry_fetchGeolocation, H]. }
  destruct (match known with
            | Some g => (Return (Some g), s)
            | None => fetchGeolocation (geo env) s
            end) as [geoData s1]. cbn [snd] in Hloc.
  destruct geoData as [[g|]|e].
  - destruct (picture env) as [[photo|]|e].
    + assert (Hs : Expiry c (captureAndSend_submit photo g s1)).
      { apply (expiry_frame c s1); try reflexivity. exact Hloc. }
      cbv zeta. destruct (answer env) as [resp|e].
      * apply expiry_response; assumption.
      * apply expiry_catch; assumption.
    + apply expiry_no_photo; assumption.
    + apply expiry_catch; assumption.
  - apply expiry_no_location; assumption.
  - apply expiry_catch; assumption.
Qed.

Lemma expiry_start_camera (c : Z) (b : bool) (s : Screen) :
  Expiry c s -> Expiry c (start_camera b s).
Proof.
  intros H. unfold start_camera.
  destruct (negb b); apply (expiry_frame c s); try reflexivity; exact H.
Qed.

Lemma expiry_handleStart (c : Z) (env : StartEnv) (s : Screen) :
  Expiry c s -> start_now_id env <= c -> Expiry c (handleStart env s).
Proof.
  intros H Hc. unfold handleStart.
  assert (H0 : Expiry c (dismissAllToasts s)).
  { apply (expiry_sub c s); try reflexivity; [|left; reflexivity|exact H].
    intros t Ht. cbn in Ht. inversion Ht. }
  destruct (negb (is_granted match first_check env with
                             | Return st => st
                             | Throw _ => undetermined
                             end)).
  - pose proof (expiry_fetchGeolocation c (start_geo env) _ H0) as H1.
    destruct (fetchGeolocation (start_geo env) (dismissAllToasts s)) as [r s1].
    cbn [snd] in H1. destruct r as [r|e]; [|exact H1].
    destruct (second_check env) as [st|e]; [|exact H1].
    destruct (negb (is_granted st)).
    + apply expiry_showToast; assumption.
    + apply expiry_start_camera. apply (expiry_frame c s1); try reflexivity. exact H1.
  - apply expiry_start_camera. apply expiry_fetchGeolocation.
    apply (expiry_frame c (dismissAllToasts s)); try reflexivity. exact H0.
Qed.

Lemma expiry_auto_start (c : Z) (g : GeoEnv) (s : Screen) :
  Expiry c s -> Expiry c (auto_start g s).
Proof.
  intros H. unfold auto_start. destruct (started s); [exact H|].
  apply expiry_fetchGeolocation. apply (expiry_frame c s); try reflexivity. exact H.
Qed.

Lemma step_expiry (ev : Event) (m m' : Machine) (o : list Obs) :
  Expiry (clock m) (screen m) -> step ev m = Some (m', o) ->
  Expiry (clock m') (screen m').
Proof.
  intros HI Hstep. destruct m as [s c]. cbn [screen clock] in HI.
  destruct ev; cbn [step screen clock] in Hstep.
  - (* Tick *)
    destruct ((c <=? now) && started s && cameraActive s) eqn:Hg; [|discriminate].
    apply andb_prop in Hg as [Hg _]. apply andb_prop in Hg as [Hg _].
    apply Z.leb_le in Hg. pose proof (expiry_weaken c now s HI Hg) as H1.
    destruct (isProcessingRef s).
    + inversion Hstep; subst. cbn [screen clock]. apply expiry_commit, H1.
    + destruct (checkForFace_blocked s); inversion Hstep; subst; cbn [screen clock];
        apply expiry_commit.
      * apply expiry_tick_resume, H1.
      * apply (expiry_frame now s); try reflexivity. exact H1.
  - (* FaceResult *)
    destruct (c <=? now) eqn:Hg; [|discriminate]. apply Z.leb_le in Hg.
    pose proof (expiry_weaken c now s HI Hg) as H1.
    destruct (remove_task TickDetect (tasks s)) as [ts|]; [|discriminate].
    assert (H2 : Expiry now (set_tasks ts s)).
    { apply (expiry_frame now s); try reflexivity. exact H1. }
    pose proof (expiry_checkForFace_finish now d _ H2) as H3.
    destruct (checkForFace_finish d (set_tasks ts s)) as [detected s1]. cbn [snd] in H3.
    inversion Hstep; subst. cbn [screen clock]. apply expiry_commit, expiry_tick_resume, H3.
  - (* Fire *)
    destruct (find_timer h s) as [t|] eqn:Hf; [|discriminate].
    destruct (find_timer_elem h s t Hf) as [Hin Hh]. subst h.
    destruct ((c <=? now) && (set_at t + delay t <=? now)) eqn:Hg; [|discriminate].
    apply andb_prop in Hg as [Hg _]. apply Z.leb_le in Hg.
    pose proof (expiry_weaken c now s HI Hg) as H1.
    destruct (action t) as [i| |] eqn:Ha.
    + inversion Hstep; subst. cbn [screen clock]. apply expiry_commit.
      apply expiry_fire_remove; assumption.
    + inversion Hstep; subst. cbn [screen clock]. apply expiry_commit.
      apply (expiry_frame now (clearTimeout (handle t) s)); try reflexivity.
      apply expiry_fire_other; [exact H1 | exact Hin|]. intros i. rewrite Ha. discriminate.
    + assert (H2 : Expiry now (clearTimeout (handle t) s)).
      { apply expiry_fire_other; [exact H1 | exact Hin|]. intros i. rewrite Ha. discriminate. }
      destruct (checkForFace_blocked (clearTimeout (handle t) s)).
      * pose proof (expiry_timeout_resume now false now _ H2) as H3.
        destruct (timeout_resume false now (clearTimeout (handle t) s)) as [s2|s2];
          inversion Hstep; subst; cbn [screen clock]; apply expiry_commit; [|exact H3].
        apply (expiry_frame now s2); try reflexivity. exact H3.
      * inversion Hstep; subst. cbn [screen clock]. apply expiry_commit.
        apply (expiry_frame now (clearTimeout (handle t) s)); try reflexivity. exact H2.
  - (* StillResult *)
    destruct (c <=? now) eqn:Hg; [|discriminate]. apply Z.leb_le in Hg.
    pose proof (expiry_weaken c now s HI Hg) as H1.
    destruct (remove_task (TimeoutDetect h) (tasks s)) as [ts|]; [|discriminate].
    assert (H2 : Expiry now (set_tasks ts s)).
    { apply (expiry_frame now s); try reflexivity. exact H1. }
    pose proof (expiry_checkForFace_finish now d _ H2) as H3.
    destruct (checkForFace_finish d (set_tasks ts s)) as [still1 s1]. cbn [snd] in H3.
    pose proof (expiry_timeout_resume now still1 now s1 H3) as H4.
    destruct (timeout_resume still1 now s1) as [s2|s2]; inversion Hstep; subst;
      cbn [screen clock]; apply expiry_commit; [|exact H4].
    apply (expiry_frame now s2); try reflexivity. exact H4.
  - (* Settle *)
    destruct ((c <=? now_key env) && (now_key env <=? now_id env)
              && (now_id env <=? now_done env)) eqn:Hg; [|discriminate].
    apply andb_prop in Hg as [Hg G3]. apply andb_prop in Hg as [G1 G2].
    apply Z.leb_le in G1, G2, G3.
    destruct (remove_task (Capture h) (tasks s)) as [ts|]; [|discriminate].
    inversion Hstep; subst. cbn [screen clock]. apply expiry_commit.
    unfold timeout_done.
    assert (H1 : Expiry (now_done env) (set_tasks ts s)).
    { apply (expiry_frame (now_done env) s); try reflexivity.
      apply (expiry_weaken c); [exact HI | lia]. }
    pose proof (expiry_rest (now_done env) (geolocation s) env _ H1 G3) as H2.
    apply (expiry_sub (now_done env) (captureAndSend_rest (geolocation s) env (set_tasks ts s)));
      try reflexivity; [auto | right; reflexivity | exact H2].
  - (* Cancel *)
    destruct (started s && cameraActive s && negb (isProcessing s)); [|discriminate].
    inversion Hstep; subst. cbn [screen clock]. apply expiry_commit.
    apply (expiry_frame c s); try exact HI; unfold handleCancel, stopCameraWith; reflexivity.
  - (* Retry *)
    destruct (started s && negb (cameraActive s)); [|discriminate].
    inversion Hstep; subst. cbn [screen clock]. apply expiry_commit.
    apply (expiry_sub c s); try reflexivity; [|left; reflexivity|exact HI].
    intros t Ht. cbn in Ht. inversion Ht.
  - (* Start *)
    destruct (negb (started s) && (c <=? start_now_key env)
              && (start_now_key env <=? start_now_id env)) eqn:Hg; [|discriminate].
    apply andb_prop in Hg as [Hg G2]. apply andb_prop in Hg as [_ G1].
    apply Z.leb_le in G1, G2.
    inversion Hstep; subst. cbn [screen clock]. apply expiry_commit.
    apply expiry_handleStart; [|lia]. apply (expiry_weaken c); [exact HI | lia].
  - (* AutoStart *)
    destruct (negb (started s)); [|discriminate].
    inversion Hstep; subst. cbn [screen clock]. apply expiry_commit.
    apply expiry_auto_start, HI.
  - (* Cleanup *)
    inversion Hstep; subst. cbn [screen clock]. apply expiry_commit.
    apply expiry_clear_capture_timeout, HI.
Qed.

Lemma run_expiry (evs : list Event) (m m' : Machine) (o : list Obs) :
  Expiry (clock m) (screen m) -> run evs m = Some (m', o) ->
  Expiry (clock m') (screen m').
Proof.
  revert m o. induction evs as [|ev evs IH]; intros m o HI Hrun.
  - cbn in Hrun. inversion Hrun; subst. exact HI.
  - cbn in Hrun. destruct (step ev m) as [[m1 o1]|] eqn:Hs; [|discriminate].
    destruct (run evs m1) as [[m2 o2]|] eqn:Hr; [|discriminate].
    inversion Hrun; subst. apply (IH m1 o2); [|exact Hr].
    apply (step_expiry ev m m1 o1 HI Hs).
Qed.

Lemma expiry_boot (t0 : Z) : Expiry (clock (boot t0)) (screen (boot t0)).
Proof.
  constructor; cbn.
  - intros t Ht. inversion Ht.
  - intros tm Htm. inversion Htm.
  - intros a b Ha. inversion Ha.
  - discriminate.
Qed.

End ExpiryFacts.

(** X27.  No toast of the loop is left without its expiry: in every state
    the loop reaches, each toast on the screen has a pending timeout that
    removes its id, set with a delay of 5000 ms at a time not later than
    the clock, so it is due within 5000 ms; cancelled capture timeouts and
    fired timeouts never take such a timeout away.  The handle of a new
    timeout is never in use. *)
Theorem toasts_always_expire (evs : list Loop.Event) (t0 : Z) (m : Loop.Machine)
    (obs : list Loop.Obs) :
  Loop.run evs (Loop.boot t0) = Some (m, obs) ->
  (forall t, t ∈ Attendance.toasts (Loop.screen m) ->
     exists tm, tm ∈ Attendance.timers (Loop.screen m)
                /\ Attendance.action tm = Attendance.RemoveToast (Attendance.id t)
                /\ Attendance.delay tm = 5000
                /\ Attendance.set_at tm + Attendance.delay tm <= Loop.clock m + 5000)
  /\ (forall tm, tm ∈ Attendance.timers (Loop.screen m) ->
        (Attendance.handle tm < Attendance.next_handle (Loop.screen m))%nat).
Proof.
  intros Hrun.
  destruct (run_expiry evs (Loop.boot t0) m obs (expiry_boot t0) Hrun) as [A B _ _].
  split; [|exact B].
  intros t Ht. destruct (A t Ht) as [tm (H1 & H2 & H3 & H4)].
  exists tm. repeat split; try assumption. lia.
Qed.

Lemma answered_trace_runs :
  exists m obs t,
    Loop.run answered_trace (Loop.boot 1700000000000) = Some (m, obs)
    /\ Attendance.toasts (Loop.screen m) = [t].
Proof. vm_compute. eexists. eexists. eexists. split; reflexivity. Qed.

Lemma toasts_always_expire_witness :
  exists m obs tm,
    Loop.run answered_trace (Loop.boot 1700000000000) = Some (m, obs)
    /\ tm ∈ Attendance.timers (Loop.screen m)
    /\ Attendance.delay tm = 5000.
Proof.
  destruct answered_trace_runs as [m [obs [t [Hrun Ht]]]].
  destruct (proj1 (toasts_always_expire answered_trace 1700000000000 m obs Hrun) t)
    as [tm (H1 & _ & H2 & _)].
  - rewrite Ht. apply list_elem_of_singleton. reflexivity.
  - exists m, obs, tm. split; [exact Hrun|]. split; [exact H1 | exact H2].
Defined.
